(** * Order lifecycle of the stock-management API (routes/orders.js)

    A shallow embedding of the three write handlers of the orders router

      - [POST /]              create an order      ([post_orders])
      - [PATCH /:id/approve]  approve an order     ([patch_approve])
      - [PATCH /:id/reject]   reject an order      ([patch_reject])

    and of the two write handlers of the stock router (routes/stock.js)

      - [POST /]              add a stock item     ([post_stock])
      - [PATCH /:id]          edit a stock item    ([patch_stock])

    over a model of the relational store they talk to through Prisma.
    The handlers run behind [authenticateToken] and [requireRole]; what is
    modelled is what runs once those have let the request through.

    Around them, over the same store extended with the [users] table:
    the users router (routes/users.js), the order and stock listings, the
    dashboard (routes/dashboard.js: [get_stats], [get_sales_summary]), the
    seed script (seed.js: [seed]), and from index.js the CORS decision
    ([cors_origin]) and the error handler ([error_handler]).

    Modelling decisions.
    - Tables are finite maps keyed by the TEXT primary key.  The rows of
      [order_items] are kept with their order, in creation order, which is
      how every handler reads them ([include: { orderItems: ... }]).
    - [quantity] columns are INTEGER: [Z].  Prices are DOUBLE PRECISION and
      JavaScript numbers; no rounding law is assumed anywhere: the
      development is parametric in the price arithmetic ([JsNum]).
    - Every [await prisma...] call may throw.  Handlers are written in a
      small state-and-exception monad over a [World] that carries the
      database, a schedule of infrastructure faults, and the list of
      database states that were ever committed (what another session could
      have read).
    - Request bodies are taken well-typed: strings where the handler expects
      strings, an array of lines with an integer [quantity].  A quantity is
      the integer the JSON text spells; the handlers see the Number nearest
      to it ([to_double]), which is that integer up to 2^53 and compares
      with a stored quantity as the integer does.
    - [quantity] columns are 32-bit: the store refuses a write of a value
      outside that range ([in_int32]), and the handler's [catch] turns the
      refusal into a 500.
    - A handler is run one request at a time: nothing else writes between
      two of its round trips.  The dashboard's five counts are the
      exception: they are sent at once and outside any transaction, and
      what other sessions commit between them is a parameter of
      [get_stats] ([others_commit]).  *)

From stdpp Require Import gmap strings list fin_maps.
From Stdlib Require Import ZArith Lia.

Local Open Scope Z_scope.

(** ** Numbers used for prices *)

(** The operations the handlers apply to prices.  [num_truthy] is
    JavaScript's ToBoolean on a number ([x || 0] keeps [x] when it holds),
    [num_negative] is [x < 0], [num_parseFloat] is [parseFloat(x)]. *)
Class JsNum (N : Type) := {
  num_zero : N;
  num_add : N -> N -> N;
  num_mul : N -> Z -> N;
  num_truthy : N -> bool;
  num_negative : N -> bool;
  num_parseFloat : N -> N
}.

(** Integer prices (an amount in minor units), used by the scenarios. *)
#[global] Instance JsNum_Z : JsNum Z := {
  num_zero := 0;
  num_add := Z.add;
  num_mul := Z.mul;
  num_truthy := fun p => negb (p =? 0);
  num_negative := fun p => p <? 0;
  num_parseFloat := fun p => p
}.

(** ** Integers as JavaScript and the store have them *)

(** What an INTEGER column holds: 32 bits, signed. *)
Definition in_int32 (n : Z) : bool := (-2147483648 <=? n) && (n <=? 2147483647).

(** The Number nearest to the integer [n >= 0]: 53 bits of mantissa, round
    to nearest, ties to even.  [None] is Infinity. *)
Definition to_double_pos (n : Z) : option Z :=
  let e := Z.log2 n - 52 in
  if e <=? 0 then Some n
  else
    let m := Z.shiftr n e in
    let rem := n - Z.shiftl m e in
    let half := Z.shiftl 1 (e - 1) in
    let m' := if (half <? rem) || ((rem =? half) && Z.odd m) then m + 1 else m in
    let x := Z.shiftl m' e in
    if x <? 2 ^ 1024 then Some x else None.

(** The Number a JSON integer is read as. *)
Definition to_double (n : Z) : option Z :=
  if n <? 0 then Z.opp <$> to_double_pos (- n) else to_double_pos n.

(** The first decimal digit of [n > 0], and the power of ten it stands at. *)
Fixpoint leading (fuel : nat) (n p : Z) : Z * Z :=
  match fuel with
  | O => (n, p)
  | S fuel => if n <? 10 then (n, p) else leading fuel (n / 10) (p * 10)
  end.

(** The first digit of [String(x)] for a Number [x >= 1e21], which is
    printed in exponent notation with the digits of the shortest decimal
    that reads back as [x]: the leading digit of [x], unless the next
    one-digit multiple of that power of ten already reads back as [x]
    (1e23 is the Number 99999999999999991611392, printed "1e+23"). *)
Definition first_digit (x : Z) : Z :=
  match leading 400 x 1 with
  | (d, p) =>
      if bool_decide (to_double_pos ((d + 1) * p) = Some x)
      then (if d =? 9 then 1 else d + 1)
      else d
  end.

(** [parseInt(quantity)] for a quantity that is a JSON integer: the number
    is turned into a string and the string is read up to its first
    character that is no digit.  Below 1e21 the string is the number's
    decimal form; from 1e21 on it is in exponent notation, of which only
    the first digit is read.  [None] is NaN (the string "Infinity"). *)
Definition parseInt (quantity : Z) : option Z :=
  match to_double quantity with
  | None => None
  | Some x =>
      if Z.abs x <? 10 ^ 21 then Some x
      else Some (Z.sgn x * first_digit (Z.abs x))
  end.

(** ** Data model (migration.sql) *)

(** [CREATE TYPE "OrderStatus" AS ENUM ('PENDING', 'APPROVED', 'REJECTED')] *)
Inductive OrderStatus := PENDING | APPROVED | REJECTED.

#[global] Instance OrderStatus_eq_dec : EqDecision OrderStatus.
Proof. solve_decision. Defined.

(** What a caught exception was; every one of them ends in the handler's
    [catch] and becomes a 500. *)
Inductive Exn :=
| ConnectionError   (* the store could not be reached *)
| RecordNotFound    (* Prisma P2025: update of a row that is not there *)
| UniqueConstraint  (* Prisma P2002: primary key already taken *)
| TypeError         (* JavaScript: property read on null *)
| InvalidValue.     (* Prisma: a value the column's type does not hold
                       (an integer out of the INTEGER range, NaN) *)

Declare Scope prisma_scope.
Delimit Scope prisma_scope with prisma.

Section Model.
Context {price : Type} `{!JsNum price}.

(** Table [stock_items]; the key is the row's [id]. *)
Record StockItem := mkStockItem {
  s_name : string;
  s_quantity : Z;
  s_buyingPrice : price;
  s_sellingPrice : option price
}.

(** Table [order_items]: the four columns the handlers write and read
    ([id] and [orderId] are assigned by the store). *)
Record OrderItem := mkOrderItem {
  oi_stockItemId : string;
  oi_quantity : Z;
  oi_unitPrice : price;
  oi_totalPrice : price
}.

(** Table [orders], with its lines. *)
Record Order := mkOrder {
  o_customerName : string;
  o_customerContact : string;
  o_status : OrderStatus;
  o_totalAmount : price;
  o_rejectionReason : option string;
  o_salesRepId : string;
  o_orderItems : list OrderItem
}.

Record DB := mkDB {
  stock_items : gmap string StockItem;
  orders : gmap string Order
}.

(** An order as the handlers load and return it: with
    [include: { orderItems: { include: { stockItem: true } } }]. *)
Record OrderView := mkOrderView {
  ov_order : Order;
  ov_items : list (OrderItem * option StockItem)
}.

Definition include_items (db : DB) (o : Order) : OrderView :=
  mkOrderView o
    (map (fun oi => (oi, stock_items db !! oi_stockItemId oi)) (o_orderItems o)).

(** ** HTTP responses *)

Inductive Body :=
| JsonError (error : string)
| JsonOrder (o : OrderView)
| JsonStock (s : StockItem)
| JsonNull.

Record Response := mkResponse { res_status : Z; res_body : Body }.

Definition res_error (code : Z) (msg : string) : Response :=
  mkResponse code (JsonError msg).

(** ** The world a handler runs in *)

Record World := mkWorld {
  w_db : DB;
  (** one entry per database round trip still to come: [true] = it throws *)
  w_faults : list bool;
  (** every state that was committed, most recent first *)
  w_committed : list DB
}.

Definition Prisma (A : Type) : Type := World -> (Exn + A) * World.

Definition ret {A} (a : A) : Prisma A := fun w => (inr a, w).

Definition throw {A} (e : Exn) : Prisma A := fun w => (inl e, w).

Definition bind {A B} (c : Prisma A) (k : A -> Prisma B) : Prisma B :=
  fun w =>
    match c w with
    | (inr a, w') => k a w'
    | (inl e, w') => (inl e, w')
    end.

Notation "x <- c ;; k" := (bind c (fun x => k))
  (at level 100, c at next level, right associativity) : prisma_scope.
Notation "c ;;; k" := (bind c (fun _ => k))
  (at level 100, right associativity) : prisma_scope.
Local Open Scope prisma_scope.

(** *** The store's operations

    [db_call] is one round trip: it consumes the next entry of the fault
    schedule and throws when that entry says so. *)
Definition db_call : Prisma unit :=
  fun w =>
    match w_faults w with
    | [] => (inr tt, w)
    | true :: fs => (inl ConnectionError, mkWorld (w_db w) fs (w_committed w))
    | false :: fs => (inr tt, mkWorld (w_db w) fs (w_committed w))
    end.

Definition get_db : Prisma DB := fun w => (inr (w_db w), w).

(** A write inside the current unit of work: visible to the statements
    that follow, not yet committed. *)
Definition put_db (db : DB) : Prisma unit :=
  fun w => (inr tt, mkWorld db (w_faults w) (w_committed w)).

(** The current state becomes visible to every other session. *)
Definition commit : Prisma unit :=
  fun w => (inr tt, mkWorld (w_db w) (w_faults w) (w_db w :: w_committed w)).

(** [prisma.stockItem.findUnique({ where: { id } })] *)
Definition stockItem_findUnique (id : string) : Prisma (option StockItem) :=
  db_call ;;;
  db <- get_db ;;
  ret (stock_items db !! id).

(** [prisma.order.findUnique({ where: { id }, include: ... })] *)
Definition order_findUnique (id : string) : Prisma (option OrderView) :=
  db_call ;;;
  db <- get_db ;;
  ret (include_items db <$> orders db !! id).

Definition decrement (n : Z) (s : StockItem) : StockItem :=
  mkStockItem (s_name s) (s_quantity s - n) (s_buyingPrice s) (s_sellingPrice s).

(** [tx.stockItem.update({ where: { id }, data: { quantity: { decrement: n } } })];
    the store refuses a result that is out of the column's range. *)
Definition tx_stockItem_update_decrement (id : string) (n : Z) : Prisma unit :=
  db_call ;;;
  db <- get_db ;;
  match stock_items db !! id with
  | None => throw RecordNotFound
  | Some s =>
      if in_int32 (s_quantity s - n)
      then put_db (mkDB (<[id := decrement n s]> (stock_items db)) (orders db))
      else throw InvalidValue
  end.

(** [tx.order.update({ where: { id }, data })]: [data] is the change of the
    row's columns; the updated row is returned with its lines. *)
Definition tx_order_update (id : string) (data : Order -> Order) : Prisma OrderView :=
  db_call ;;;
  db <- get_db ;;
  match orders db !! id with
  | None => throw RecordNotFound
  | Some o =>
      put_db (mkDB (stock_items db) (<[id := data o]> (orders db))) ;;;
      db' <- get_db ;;
      ret (include_items db' (data o))
  end.

(** [prisma.order.update(...)] outside a transaction: a unit of work of its own. *)
Definition order_update (id : string) (data : Order -> Order) : Prisma OrderView :=
  o <- tx_order_update id data ;;
  commit ;;;
  ret o.

(** [prisma.order.create({ data: { ..., orderItems: { create } }, include })]:
    the order and its lines are inserted together, or not at all when the
    quantity of a line is out of the column's range.  [id] is the key the
    client generates for the new row. *)
Definition order_create (id : string) (o : Order) : Prisma OrderView :=
  db_call ;;;
  db <- get_db ;;
  match orders db !! id with
  | Some _ => throw UniqueConstraint
  | None =>
      if forallb (fun oi => in_int32 (oi_quantity oi)) (o_orderItems o)
      then
        put_db (mkDB (stock_items db) (<[id := o]> (orders db))) ;;;
        commit ;;;
        db' <- get_db ;;
        ret (include_items db' o)
      else throw InvalidValue
  end.

(** [prisma.stockItem.findUnique({ where: { name } })]: [name] is a unique
    key of the table. *)
Definition stockItem_findUnique_name (name : string) : Prisma (option StockItem) :=
  db_call ;;;
  db <- get_db ;;
  ret ((fun hit => snd (snd hit)) <$>
         list_find (fun row => s_name (snd row) = name) (map_to_list (stock_items db))).

(** [prisma.stockItem.create({ data })]; the primary key and the name are
    unique, and the quantity has to be in the column's range. *)
Definition stockItem_create (id : string) (s : StockItem) : Prisma StockItem :=
  db_call ;;;
  db <- get_db ;;
  match stock_items db !! id,
        list_find (fun row => s_name (snd row) = s_name s) (map_to_list (stock_items db)) with
  | None, None =>
      if in_int32 (s_quantity s)
      then
        put_db (mkDB (<[id := s]> (stock_items db)) (orders db)) ;;;
        commit ;;;
        ret s
      else throw InvalidValue
  | _, _ => throw UniqueConstraint
  end.

(** [prisma.stockItem.update({ where: { id }, data })]; the quantity of the
    row as [data] leaves it has to be in the column's range. *)
Definition stockItem_update (id : string) (data : StockItem -> StockItem) : Prisma StockItem :=
  db_call ;;;
  db <- get_db ;;
  match stock_items db !! id with
  | None => throw RecordNotFound
  | Some s =>
      if in_int32 (s_quantity (data s))
      then
        put_db (mkDB (<[id := data s]> (stock_items db)) (orders db)) ;;;
        commit ;;;
        ret (data s)
      else throw InvalidValue
  end.

(** [prisma.$transaction(async (tx) => body)]: the writes of [body] are
    committed together when it returns and the commit goes through; when
    [body] throws, or the commit fails, they are all undone and the
    exception is passed on. *)
Definition transaction {A} (body : Prisma A) : Prisma A :=
  fun w =>
    let rollback w' := mkWorld (w_db w) (w_faults w') (w_committed w) in
    match body w with
    | (inl e, w') => (inl e, rollback w')
    | (inr a, w') =>
        match db_call w' with
        | (inl e, w'') => (inl e, rollback w'')
        | (inr _, w'') => (inr a, snd (commit w''))
        end
    end.

(** ** Requests *)

(** One element of [req.body.items]. *)
Record ItemReq := mkItemReq {
  it_stockItemId : string;
  it_quantity : Z;
  it_sellingPrice : option price
}.

(** [req.body] of [POST /]; [None] is a field that is absent (or null). *)
Record CreateBody := mkCreateBody {
  b_customerName : option string;
  b_customerContact : option string;
  b_items : option (list ItemReq)
}.

(** JavaScript's ToBoolean on an optional string: absent and the empty
    string are falsy. *)
Definition truthy (s : option string) : bool :=
  match s with
  | None => false
  | Some s => negb (String.eqb s "")
  end.

(** [item.sellingPrice || 0] *)
Definition sellingPrice_or_0 (p : option price) : price :=
  match p with
  | None => num_zero
  | Some p => if num_truthy p then p else num_zero
  end.

(** ** Handlers *)

Definition internal_error : Response := res_error 500 "Internal server error".

(** [try { body } catch (error) { res.status(500).json(...) }] *)
Definition try_catch_500 (body : Prisma Response) : World -> Response * World :=
  fun w =>
    match body w with
    | (inr r, w') => (r, w')
    | (inl _, w') => (internal_error, w')
    end.

(** *** POST / : create order *)

(** The loop [for (const item of items)] with its two accumulators; [inl]
    is a [return res.status(400)...] from inside the loop. *)
Fixpoint validate_items (items : list ItemReq) (totalAmount : price)
    (orderItems : list OrderItem) : Prisma (Response + price * list OrderItem) :=
  match items with
  | [] => ret (inr (totalAmount, orderItems))
  | item :: rest =>
      stockItem <- stockItem_findUnique (it_stockItemId item) ;;
      match stockItem with
      | None =>
          ret (inl (res_error 400 ("Stock item not found: " +:+ it_stockItemId item)))
      | Some stockItem =>
          if s_quantity stockItem <? it_quantity item
          then ret (inl (res_error 400 ("Insufficient stock for " +:+ s_name stockItem)))
          else
            let sellingPrice := sellingPrice_or_0 (it_sellingPrice item) in
            let itemTotal := num_mul sellingPrice (it_quantity item) in
            validate_items rest (num_add totalAmount itemTotal)
              (orderItems ++
                 [mkOrderItem (it_stockItemId item) (it_quantity item) sellingPrice itemTotal])
      end
  end.

(** [userId] is [req.user.id]; [newId] the key generated for the order. *)
Definition post_orders (userId newId : string) (body : CreateBody)
    : World -> Response * World :=
  try_catch_500 (
    match body with
    | mkCreateBody customerName customerContact items =>
        if negb (truthy customerName) || negb (truthy customerContact)
           || negb (bool_decide (is_Some items))
           || (length (default [] items) =? 0)%nat
        then ret (res_error 400 "Customer details and items are required")
        else
          r <- validate_items (default [] items) num_zero [] ;;
          match r with
          | inl response => ret response
          | inr (totalAmount, orderItems) =>
              order <- order_create newId
                         (mkOrder (default "" customerName) (default "" customerContact)
                            PENDING totalAmount None userId orderItems) ;;
              ret (mkResponse 201 (JsonOrder order))
          end
    end).

(** *** PATCH /:id/approve *)

(** [for (const orderItem of order.orderItems) if (orderItem.stockItem.quantity < orderItem.quantity) return ...] *)
Fixpoint check_stock (items : list (OrderItem * option StockItem))
    : Prisma (option Response) :=
  match items with
  | [] => ret None
  | (orderItem, stockItem) :: rest =>
      match stockItem with
      | None => throw TypeError
      | Some stockItem =>
          if s_quantity stockItem <? oi_quantity orderItem
          then ret (Some (res_error 400 ("Insufficient stock for " +:+ s_name stockItem)))
          else check_stock rest
      end
  end.

(** [for (const orderItem of order.orderItems) await tx.stockItem.update(...)] *)
Fixpoint deduct_stock (items : list (OrderItem * option StockItem)) : Prisma unit :=
  match items with
  | [] => ret tt
  | (orderItem, _) :: rest =>
      tx_stockItem_update_decrement (oi_stockItemId orderItem) (oi_quantity orderItem) ;;;
      deduct_stock rest
  end.

Definition set_status (st : OrderStatus) (o : Order) : Order :=
  mkOrder (o_customerName o) (o_customerContact o) st (o_totalAmount o)
    (o_rejectionReason o) (o_salesRepId o) (o_orderItems o).

(** The function handed to [prisma.$transaction]. *)
Definition approve_tx (id : string) (order : OrderView) : Prisma unit :=
  deduct_stock (ov_items order) ;;;
  tx_order_update id (set_status APPROVED) ;;;
  ret tt.

Definition patch_approve (id : string) : World -> Response * World :=
  try_catch_500 (
    order <- order_findUnique id ;;
    match order with
    | None => ret (res_error 404 "Order not found")
    | Some order =>
        if negb (bool_decide (o_status (ov_order order) = PENDING))
        then ret (res_error 400 "Order is not pending")
        else
          insufficient <- check_stock (ov_items order) ;;
          match insufficient with
          | Some response => ret response
          | None =>
              transaction (approve_tx id order) ;;;
              updatedOrder <- order_findUnique id ;;
              ret (mkResponse 200
                     match updatedOrder with
                     | Some o => JsonOrder o
                     | None => JsonNull
                     end)
          end
    end).

(** *** PATCH /:id/reject *)

Definition set_rejected (rejectionReason : option string) (o : Order) : Order :=
  mkOrder (o_customerName o) (o_customerContact o) REJECTED (o_totalAmount o)
    rejectionReason (o_salesRepId o) (o_orderItems o).

Definition patch_reject (id : string) (rejectionReason : option string)
    : World -> Response * World :=
  try_catch_500 (
    if negb (truthy rejectionReason)
    then ret (res_error 400 "Rejection reason is required")
    else
      order <- order_update id (set_rejected rejectionReason) ;;
      ret (mkResponse 200 (JsonOrder order))).

(** *** The stock router (routes/stock.js): POST / and PATCH /:id *)

(** [req.body] of the stock router; [quantity] is taken as an integer. *)
Record StockBody := mkStockBody {
  sb_name : option string;
  sb_quantity : option Z;
  sb_buyingPrice : option price
}.

Definition post_stock (newId : string) (body : StockBody) : World -> Response * World :=
  try_catch_500 (
    match body with
    | mkStockBody name (Some quantity) (Some buyingPrice) =>
        if negb (truthy name)
        then ret (res_error 400 "Name, quantity, and buying price are required")
        else if (quantity <? 0) || num_negative buyingPrice
        then ret (res_error 400 "Values must be non-negative")
        else
          existingItem <- stockItem_findUnique_name (default "" name) ;;
          match existingItem with
          | Some _ => ret (res_error 400 "Item with this name already exists")
          | None =>
              match parseInt quantity with
              | None => throw InvalidValue
              | Some quantity =>
                  stockItem <- stockItem_create newId
                                 (mkStockItem (default "" name) quantity
                                    (num_parseFloat buyingPrice) None) ;;
                  ret (mkResponse 201 (JsonStock stockItem))
              end
          end
    | _ => ret (res_error 400 "Name, quantity, and buying price are required")
    end).

(** [updateData], as the change it makes to a row: only the fields the
    body supplies.  [None] when [parseInt(quantity)] is NaN, which the
    update refuses. *)
Definition updateData (body : StockBody) : option (StockItem -> StockItem) :=
  let buyingPrice s :=
    match sb_buyingPrice body with
    | Some buyingPrice => num_parseFloat buyingPrice
    | None => s_buyingPrice s
    end in
  match parseInt <$> sb_quantity body with
  | Some None => None
  | Some (Some quantity) =>
      Some (fun s => mkStockItem (s_name s) quantity (buyingPrice s) (s_sellingPrice s))
  | None =>
      Some (fun s => mkStockItem (s_name s) (s_quantity s) (buyingPrice s) (s_sellingPrice s))
  end.

Definition patch_stock (id : string) (body : StockBody) : World -> Response * World :=
  try_catch_500 (
    match updateData body with
    | None => throw InvalidValue
    | Some data =>
        stockItem <- stockItem_update id data ;;
        ret (mkResponse 200 (JsonStock stockItem))
    end).

(** ** Sequences of requests *)

Inductive Request :=
| CreateOrder (userId newId : string) (body : CreateBody)
| ApproveOrder (id : string)
| RejectOrder (id : string) (rejectionReason : option string)
| CreateStock (newId : string) (body : StockBody)
| UpdateStock (id : string) (body : StockBody).

Definition serve (r : Request) : World -> Response * World :=
  match r with
  | CreateOrder userId newId body => post_orders userId newId body
  | ApproveOrder id => patch_approve id
  | RejectOrder id reason => patch_reject id reason
  | CreateStock newId body => post_stock newId body
  | UpdateStock id body => patch_stock id body
  end.

(** Requests handled one after the other; the responses are dropped. *)
Fixpoint serve_all (rs : list Request) (w : World) : World :=
  match rs with
  | [] => w
  | r :: rs => serve_all rs (snd (serve r w))
  end.

End Model.

Arguments StockItem : clear implicits.
Arguments OrderItem : clear implicits.
Arguments Order : clear implicits.
Arguments DB : clear implicits.
Arguments OrderView : clear implicits.
Arguments Response : clear implicits.
Arguments World : clear implicits.
Arguments ItemReq : clear implicits.
Arguments CreateBody : clear implicits.
Arguments StockBody : clear implicits.
Arguments Request : clear implicits.
Arguments Prisma : clear implicits.

(** ** Users, listings and the dashboard

    The users router (routes/users.js), the order listing of the orders
    router and the dashboard router (routes/dashboard.js) read or write the
    [users] table next to the tables above. *)

(** [CREATE TYPE "UserRole" AS ENUM (...)] *)
Inductive UserRole := ADMIN | MANAGER | STORE_KEEPER | SALES_REPRESENTATIVE.

#[global] Instance UserRole_eq_dec : EqDecision UserRole.
Proof. solve_decision. Defined.

(** Table [users]; the key is the row's [id]. *)
Record User := mkUser {
  u_username : string;
  u_password : string;
  u_role : UserRole;
  u_isActive : bool;
  u_createdBy : option string
}.

(** [req.user], as the authentication middleware leaves it. *)
Record AuthUser := mkAuthUser { au_id : string; au_role : UserRole }.

(** A JSON answer: a status and either [{ error }] or a payload. *)
Record Reply (A : Type) := mkReply { rp_status : Z; rp_body : string + A }.
Arguments mkReply {A} _ _.
Arguments rp_status {A} _.
Arguments rp_body {A} _.

Definition reply_error {A} (code : Z) (msg : string) : Reply A := mkReply code (inl msg).

Definition reply_ok {A} (code : Z) (a : A) : Reply A := mkReply code (inr a).

(** The columns a [select] of the users router returns (never [password]). *)
Record UserJson := mkUserJson {
  uj_id : string;
  uj_username : string;
  uj_role : UserRole;
  uj_isActive : bool
}.

Definition select_user (id : string) (u : User) : UserJson :=
  mkUserJson id (u_username u) (u_role u) (u_isActive u).

(** [req.body] of [POST /api/users]. *)
Record UserBody := mkUserBody {
  ub_username : option string;
  ub_password : option string;
  ub_role : option string
}.

(** The role a string names, when
    [['MANAGER', 'STORE_KEEPER', 'SALES_REPRESENTATIVE'].includes(role)]. *)
Definition creatable_role (role : string) : option UserRole :=
  if String.eqb role "MANAGER" then Some MANAGER
  else if String.eqb role "STORE_KEEPER" then Some STORE_KEEPER
  else if String.eqb role "SALES_REPRESENTATIVE" then Some SALES_REPRESENTATIVE
  else None.

(** The numbers of [GET /api/dashboard/stats]. *)
Record Stats := mkStats {
  totalUsers : nat;
  totalStockItems : nat;
  pendingOrders : nat;
  approvedOrders : nat;
  lowStockItems : nat
}.

(** Subtraction of prices ([a - b]), which only the sales summary uses. *)
Class JsSub (N : Type) := num_sub : N -> N -> N.

#[global] Instance JsSub_Z : JsSub Z := Z.sub.

(** [process.env], as far as seed.js reads it. *)
Record SeedEnv := mkSeedEnv {
  SEED_ADMIN_USERNAME : option string;
  SEED_ADMIN_PASSWORD : option string
}.

(** One element of the [users] of seed.js. *)
Record UserData := mkUserData {
  ud_username : string;
  ud_password : string;
  ud_role : UserRole
}.

Declare Scope site_scope.
Delimit Scope site_scope with site.

Section Site.
Context {price : Type} `{!JsNum price}.

(** The whole store: the [users] table and the world of orders and stock. *)
Record Site := mkSite {
  site_users : gmap string User;
  site_world : World price
}.

Definition SiteM (A : Type) : Type := Site -> (Exn + A) * Site.

Definition sret {A} (a : A) : SiteM A := fun s => (inr a, s).

Definition sthrow {A} (e : Exn) : SiteM A := fun s => (inl e, s).

Definition sbind {A B} (c : SiteM A) (k : A -> SiteM B) : SiteM B :=
  fun s =>
    match c s with
    | (inr a, s') => k a s'
    | (inl e, s') => (inl e, s')
    end.

Notation "x <- c ;; k" := (sbind c (fun x => k))
  (at level 100, c at next level, right associativity) : site_scope.
Notation "c ;;; k" := (sbind c (fun _ => k))
  (at level 100, right associativity) : site_scope.
Local Open Scope site_scope.

(** An operation on orders and stock, run in the whole store. *)
Definition in_world {A} (c : Prisma price A) : SiteM A :=
  fun s =>
    match c (site_world s) with
    | (r, w') => (r, mkSite (site_users s) w')
    end.

Definition get_users_table : SiteM (gmap string User) := fun s => (inr (site_users s), s).

Definition put_users_table (users : gmap string User) : SiteM unit :=
  fun s => (inr tt, mkSite users (site_world s)).

(** [try { body } catch (error) { res.status(500).json(...) }] *)
Definition try_catch_reply {A} (body : SiteM (Reply A)) : Site -> Reply A * Site :=
  fun s =>
    match body s with
    | (inr r, s') => (r, s')
    | (inl _, s') => (reply_error 500 "Internal server error", s')
    end.

(** *** The [users] table *)

Definition find_username (users : gmap string User) (username : string)
    : option (string * User) :=
  snd <$> list_find (fun row => u_username (snd row) = username) (map_to_list users).

(** [prisma.user.findUnique({ where: { username } })] *)
Definition user_findUnique_username (username : string) : SiteM (option (string * User)) :=
  in_world db_call ;;;
  users <- get_users_table ;;
  sret (find_username users username).

(** [prisma.user.create({ data, select })]: the key and the username are
    unique. *)
Definition user_create (id : string) (u : User) : SiteM User :=
  in_world db_call ;;;
  users <- get_users_table ;;
  match users !! id, find_username users (u_username u) with
  | None, None => put_users_table (<[id := u]> users) ;;; sret u
  | _, _ => sthrow UniqueConstraint
  end.

(** [prisma.user.update({ where: { id }, data, select })] *)
Definition user_update (id : string) (data : User -> User) : SiteM User :=
  in_world db_call ;;;
  users <- get_users_table ;;
  match users !! id with
  | None => sthrow RecordNotFound
  | Some u => put_users_table (<[id := data u]> users) ;;; sret (data u)
  end.

(** [prisma.user.count({ where })] *)
Definition user_count (where_ : User -> bool) : SiteM nat :=
  in_world db_call ;;;
  users <- get_users_table ;;
  sret (size (filter (fun row : string * User => where_ (snd row) = true) users)).

(** [prisma.stockItem.count({ where })] *)
Definition stockItem_count (where_ : StockItem price -> bool) : SiteM nat :=
  in_world (
    bind db_call (fun _ => bind get_db (fun db =>
      ret (size (filter (fun row : string * StockItem price => where_ (snd row) = true)
                   (stock_items db)))))).

(** [prisma.order.count({ where })] *)
Definition order_count (where_ : Order price -> bool) : SiteM nat :=
  in_world (
    bind db_call (fun _ => bind get_db (fun db =>
      ret (size (filter (fun row : string * Order price => where_ (snd row) = true)
                   (orders db)))))).

(** *** The users router *)

(** [POST /api/users]; [adminId] is [req.user.id], [newId] the key generated
    for the row, [hash] stands for [bcrypt.hash(_, 10)] with this request's
    salt. *)
Definition post_users (adminId newId : string) (hash : string -> string) (body : UserBody)
    : Site -> Reply UserJson * Site :=
  try_catch_reply (
    match body with
    | mkUserBody username password role =>
        if negb (truthy username) || negb (truthy password) || negb (truthy role)
        then sret (reply_error 400 "Username, password, and role are required")
        else
          match creatable_role (default "" role) with
          | None => sret (reply_error 400 "Invalid role")
          | Some role =>
              existingUser <- user_findUnique_username (default "" username) ;;
              match existingUser with
              | Some _ => sret (reply_error 400 "Username already exists")
              | None =>
                  let hashedPassword := hash (default "" password) in
                  user <- user_create newId
                            (mkUser (default "" username) hashedPassword role true
                               (Some adminId)) ;;
                  sret (reply_ok 201 (select_user newId user))
              end
          end
    end).

(** [data: { isActive }]: a field that is [undefined] is left alone. *)
Definition set_isActive (isActive : option bool) (u : User) : User :=
  mkUser (u_username u) (u_password u) (u_role u) (default (u_isActive u) isActive)
    (u_createdBy u).

(** [PATCH /api/users/:id/status] *)
Definition patch_user_status (id : string) (isActive : option bool)
    : Site -> Reply UserJson * Site :=
  try_catch_reply (
    user <- user_update id (set_isActive isActive) ;;
    sret (reply_ok 200 (select_user id user))).

(** [GET /api/users]: [where: { role: { not: 'ADMIN' } }].  [orderBy] stands
    for [orderBy: { createdAt: 'desc' }]: the timestamps are not columns of
    this model, so the order of the rows is left to the caller. *)
Definition get_users (orderBy : list (string * User) -> list (string * User))
    : Site -> Reply (list UserJson) * Site :=
  try_catch_reply (
    in_world db_call ;;;
    table <- get_users_table ;;
    let users := orderBy (filter (fun row => u_role (snd row) <> ADMIN) (map_to_list table)) in
    sret (reply_ok 200 (map (fun row => select_user (fst row) (snd row)) users))).

(** *** The order listing: GET /api/orders *)

(** A row of the listing: the order with its lines, and the sales
    representative's username where the query includes it. *)
Record OrderRow := mkOrderRow {
  or_id : string;
  or_order : OrderView price;
  or_salesRep : option string
}.

(** [prisma.order.findMany({ where, include, orderBy: { createdAt: 'desc' } })];
    [withSalesRep] says whether [salesRep: { select: { username } }] is
    included, [orderBy] stands for the ordering (see [get_users]). *)
Definition order_findMany (where_ : string -> Order price -> bool) (withSalesRep : bool)
    (orderBy : list (string * Order price) -> list (string * Order price))
    : SiteM (list OrderRow) :=
  in_world db_call ;;;
  users <- get_users_table ;;
  db <- in_world get_db ;;
  let rows := orderBy (filter (fun row => where_ (fst row) (snd row) = true)
                         (map_to_list (orders db))) in
  sret (map (fun row =>
               mkOrderRow (fst row) (include_items db (snd row))
                 (if withSalesRep
                  then u_username <$> users !! o_salesRepId (snd row)
                  else None))
            rows).

Definition get_orders (orderBy : list (string * Order price) -> list (string * Order price))
    (user : AuthUser) : Site -> Reply (list OrderRow) * Site :=
  try_catch_reply (
    if bool_decide (au_role user = SALES_REPRESENTATIVE)
    then
      orders <- order_findMany (fun _ o => bool_decide (o_salesRepId o = au_id user))
                  false orderBy ;;
      sret (reply_ok 200 orders)
    else
      orders <- order_findMany (fun _ _ => true) true orderBy ;;
      sret (reply_ok 200 orders)).

(** *** The stock listing: GET /api/stock *)

(** [prisma.stockItem.findMany({ orderBy: { name: 'asc' } })]; [orderBy]
    stands for the ordering by name, which is the store's collation. *)
Definition stockItem_findMany
    (orderBy : list (string * StockItem price) -> list (string * StockItem price))
    : SiteM (list (string * StockItem price)) :=
  in_world db_call ;;;
  db <- in_world get_db ;;
  sret (orderBy (map_to_list (stock_items db))).

Definition get_stock
    (orderBy : list (string * StockItem price) -> list (string * StockItem price))
    : Site -> Reply (list (string * StockItem price)) * Site :=
  try_catch_reply (
    stockItems <- stockItem_findMany orderBy ;;
    sret (reply_ok 200 stockItems)).

(** *** The seed script (seed.js) *)

(** [prisma.user.upsert({ where: { username }, update, create })]; [newId]
    is the key generated for the row when it is created. *)
Definition user_upsert (username newId : string) (update : User -> User) (create : User)
    : SiteM User :=
  in_world db_call ;;;
  users <- get_users_table ;;
  match find_username users username with
  | Some (id, u) => put_users_table (<[id := update u]> users) ;;; sret (update u)
  | None =>
      match users !! newId, find_username users (u_username create) with
      | None, None => put_users_table (<[newId := create]> users) ;;; sret create
      | _, _ => sthrow UniqueConstraint
      end
  end.

(** [prisma.stockItem.upsert({ where: { name }, update, create })] *)
Definition stockItem_upsert (name newId : string) (update : StockItem price -> StockItem price)
    (create : StockItem price) : Prisma price (StockItem price) :=
  bind db_call (fun _ => bind get_db (fun db =>
    match list_find (fun row => s_name (snd row) = name) (map_to_list (stock_items db)) with
    | Some (_, (id, s)) =>
        bind (put_db (mkDB (<[id := update s]> (stock_items db)) (orders db))) (fun _ =>
        bind commit (fun _ => ret (update s)))
    | None =>
        match stock_items db !! newId,
              list_find (fun row => s_name (snd row) = s_name create)
                (map_to_list (stock_items db)) with
        | None, None =>
            if in_int32 (s_quantity create) then
              bind (put_db (mkDB (<[newId := create]> (stock_items db)) (orders db))) (fun _ =>
              bind commit (fun _ => ret create))
            else throw InvalidValue
        | _, _ => throw UniqueConstraint
        end
    end)).

(** [for (const x of xs) { await body(x) }] *)
Fixpoint for_of {A} (xs : list A) (body : A -> SiteM unit) : SiteM unit :=
  match xs with
  | [] => sret tt
  | x :: rest => body x ;;; for_of rest body
  end.

(** The [stockItems] of the script: placeholders for quantity and buying
    price. *)
Definition seed_stockItems : list (StockItem price) :=
  let item name := mkStockItem name 0 num_zero None in
  [ item "18mm mdf UV (local )";
    item "18mm mdf  UV (imported )";
    item "18mm mdf veneer local";
    item "18mm mdf laminated";
    item "18mm mdf plain";
    item "18mm Chipwood laminated";
    item "12mm mdf plain";
    item "13mm chipwood";
    item "10mm mdf plain";
    item "10mm mdf veneer";
    item "5.7mm mdf plain";
    item "5.7mm mdf veneer";
    item "2.6mm mdf plain";
    item "2.6mm mdf laminated";
    item "3mm mdf veneer ( imported )";
    item "Hardboard";
    item "Block-board laminated";
    item "Block-board uv" ].

(** [main()] of the script.  [userId] and [stockId] give the key generated
    for a row that is created, [hash] stands for [bcrypt.hash(_, 10)]. *)
Definition seed_main (adminUsername adminPassword : string) (hash : string -> string)
    (userId stockId : string -> string) : SiteM unit :=
  let users := [mkUserData adminUsername adminPassword ADMIN] in
  for_of users (fun userData =>
    let hashedPassword := hash (ud_password userData) in
    user_upsert (ud_username userData) (userId (ud_username userData)) (fun u => u)
      (mkUser (ud_username userData) hashedPassword (ud_role userData) true None) ;;;
    sret tt) ;;;
  for_of seed_stockItems (fun item =>
    in_world (stockItem_upsert (s_name item) (stockId (s_name item)) (fun t => t) item) ;;;
    sret tt).

(** The script as a whole: the exit code of the process and the store it
    leaves.  Without the two variables it exits with 1 before it reaches the
    store; an exception of [main] is caught and ends it with 1, whatever was
    written before staying written.  [prisma.$disconnect()] is taken to
    succeed. *)
Definition seed (env : SeedEnv) (hash : string -> string) (userId stockId : string -> string)
    : Site -> Z * Site :=
  fun s =>
    let adminUsername := SEED_ADMIN_USERNAME env in
    let adminPassword := SEED_ADMIN_PASSWORD env in
    if negb (truthy adminUsername) || negb (truthy adminPassword)
    then (1, s)
    else
      match seed_main (default "" adminUsername) (default "" adminPassword) hash
              userId stockId s with
      | (inr _, s') => (0, s')
      | (inl _, s') => (1, s')
      end.

(** *** The dashboard: GET /stats *)

(** What another session commits while a handler waits for the store: the
    tables as it leaves them.  [None]: nothing is committed. *)
Definition others_commit (tables : option (gmap string User * DB price)) (s : Site) : Site :=
  match tables with
  | None => s
  | Some (users, db) =>
      mkSite users (mkWorld db (w_faults (site_world s)) (db :: w_committed (site_world s)))
  end.

(** [Promise.all(promises)]: every query is sent, and the queries are not in
    one transaction: each is answered on the store as it is by then.
    [others] lists, query by query, what other sessions have committed
    since the query before; the queries are taken in the order they are
    sent, and as the entries of [others] are any tables, every choice of
    the five stores the queries are answered on is covered.  The result is
    the list of the values, or an exception when one of the queries
    fails. *)
Fixpoint promise_all {A} (promises : list (SiteM A))
    (others : list (option (gmap string User * DB price))) : SiteM (list A) :=
  match promises with
  | [] => sret []
  | p :: rest =>
      fun s =>
        match p (others_commit (mjoin (head others)) s) with
        | (r, s1) =>
            match promise_all rest (tail others) s1 with
            | (rs, s2) =>
                (match r, rs with
                 | inr x, inr xs => inr (x :: xs)
                 | inl e, _ => inl e
                 | inr _, inl e => inl e
                 end, s2)
            end
        end
  end.

(** [others]: what other sessions commit while the five counts are taken
    (see [promise_all]). *)
Definition get_stats (others : list (option (gmap string User * DB price)))
    : Site -> Reply Stats * Site :=
  try_catch_reply (
    counts <- promise_all
      [ user_count (fun u => bool_decide (u_role u <> ADMIN) && u_isActive u);
        stockItem_count (fun _ => true);
        order_count (fun o => bool_decide (o_status o = PENDING));
        order_count (fun o => bool_decide (o_status o = APPROVED));
        stockItem_count (fun s => s_quantity s <=? 10) ] others ;;
    match counts with
    | [totalUsers; totalStockItems; pendingOrders; approvedOrders; lowStockItems] =>
        sret (reply_ok 200
                (mkStats totalUsers totalStockItems pendingOrders approvedOrders
                   lowStockItems))
    | _ => sthrow TypeError (* five queries give five counts: not reached *)
    end).

(** *** The dashboard: GET /sales-summary *)

Context `{!JsSub price}.

(** One element of a sale's [items]. *)
Record SaleItem := mkSaleItem {
  sl_name : string;
  sl_quantity : Z;
  sl_unitPrice : price;
  sl_totalPrice : price
}.

(** One element of [sales]. *)
Record Sale := mkSale {
  sale_id : string;
  sale_customerName : string;
  sale_customerContact : string;
  sale_salesRep : string;
  sale_totalAmount : price;
  sale_cost : price;
  sale_profit : price;
  sale_items : list SaleItem
}.

Record Summary := mkSummary {
  sm_totalRevenue : price;
  sm_totalCost : price;
  sm_totalProfit : price;
  sm_totalOrders : nat
}.

Record SalesReport := mkSalesReport { sr_sales : list Sale; sr_summary : Summary }.

(** [order.orderItems.forEach(item => { orderCost += item.stockItem.buyingPrice * item.quantity })] *)
Fixpoint order_cost (items : list (OrderItem price * option (StockItem price)))
    (orderCost : price) : Exn + price :=
  match items with
  | [] => inr orderCost
  | (item, Some stockItem) :: rest =>
      order_cost rest (num_add orderCost (num_mul (s_buyingPrice stockItem) (oi_quantity item)))
  | (_, None) :: _ => inl TypeError
  end.

(** [order.orderItems.map(item => ({ name: item.stockItem.name, ... }))] *)
Fixpoint sale_items_of (items : list (OrderItem price * option (StockItem price)))
    : Exn + list SaleItem :=
  match items with
  | [] => inr []
  | (item, Some stockItem) :: rest =>
      match sale_items_of rest with
      | inr l =>
          inr (mkSaleItem (s_name stockItem) (oi_quantity item) (oi_unitPrice item)
                 (oi_totalPrice item) :: l)
      | inl e => inl e
      end
  | (_, None) :: _ => inl TypeError
  end.

(** [approvedOrders.map(order => ...)] with the two totals it adds to on
    its way; a property read on null ends it. *)
Fixpoint sales_rows (approvedOrders : list OrderRow) (totalRevenue totalCost : price)
    : Exn + list Sale * price * price :=
  match approvedOrders with
  | [] => inr ([], totalRevenue, totalCost)
  | order :: rest =>
      match order_cost (ov_items (or_order order)) num_zero with
      | inl e => inl e
      | inr orderCost =>
          let totalAmount := o_totalAmount (ov_order (or_order order)) in
          let totalRevenue := num_add totalRevenue totalAmount in
          let totalCost := num_add totalCost orderCost in
          match or_salesRep order, sale_items_of (ov_items (or_order order)) with
          | Some salesRep, inr items =>
              match sales_rows rest totalRevenue totalCost with
              | inr (sales, totalRevenue, totalCost) =>
                  inr (mkSale (or_id order)
                         (o_customerName (ov_order (or_order order)))
                         (o_customerContact (ov_order (or_order order)))
                         salesRep totalAmount orderCost
                         (num_sub totalAmount orderCost) items :: sales,
                       totalRevenue, totalCost)
              | inl e => inl e
              end
          | None, _ => inl TypeError
          | _, inl e => inl e
          end
      end
  end.

(** [startDate] and [endDate] are [req.query]'s.  [createdAt_between] stands
    for the condition [createdAt: { gte: new Date(startDate), lte: new
    Date(endDate + 'T23:59:59.999Z') }] on an order (the timestamps are not
    columns of this model), or for what the client throws when it refuses
    the two dates.  Without both dates there is no such condition. *)
Definition date_range (createdAt_between : string -> string -> Exn + (string -> bool))
    (startDate endDate : option string) : Exn + (string -> bool) :=
  if truthy startDate && truthy endDate
  then createdAt_between (default "" startDate) (default "" endDate)
  else inr (fun _ => true).

Definition get_sales_summary
    (createdAt_between : string -> string -> Exn + (string -> bool))
    (orderBy : list (string * Order price) -> list (string * Order price))
    (startDate endDate : option string) : Site -> Reply SalesReport * Site :=
  try_catch_reply (
    match date_range createdAt_between startDate endDate with
    | inl e => sthrow e
    | inr inRange =>
        let whereClause id o := bool_decide (o_status o = APPROVED) && inRange id in
        approvedOrders <- order_findMany whereClause true orderBy ;;
        match sales_rows approvedOrders num_zero num_zero with
        | inl e => sthrow e
        | inr (salesData, totalRevenue, totalCost) =>
            let totalProfit := num_sub totalRevenue totalCost in
            sret (reply_ok 200
                    (mkSalesReport salesData
                       (mkSummary totalRevenue totalCost totalProfit
                          (length approvedOrders))))
        end
    end).

End Site.

Arguments Site : clear implicits.
Arguments SiteM : clear implicits.
Arguments OrderRow : clear implicits.
Arguments Sale : clear implicits.
Arguments SaleItem : clear implicits.
Arguments Summary : clear implicits.
Arguments SalesReport : clear implicits.

(** ** The server (index.js): CORS and the error handler *)

Definition defaultOrigins : list string :=
  [ "http://localhost:5173";
    "http://localhost:5174";
    "http://localhost:3000";
    "https://admin.nameftrading.com";
    "https://nameftrading.com" ].

(** [s] without the prefix [p], when it starts with it. *)
Fixpoint strip_prefix (p s : string) : option string :=
  match p, s with
  | EmptyString, _ => Some s
  | String a p', String b s' => if Ascii.eqb a b then strip_prefix p' s' else None
  | String _ _, EmptyString => None
  end.

(** [/^http:\/\/localhost:(3000|5173|5174)$/.test(origin)] *)
Definition localhost_dev_origin (origin : string) : bool :=
  match strip_prefix "http://localhost:" origin with
  | Some port => String.eqb port "3000" || String.eqb port "5173" || String.eqb port "5174"
  | None => false
  end.

(** What the [origin] function hands to its callback: [cb(null, true)] or
    [cb(new Error(message))]. *)
Inductive CorsResult :=
| CorsAllow
| CorsError (message : string).

(** [origin(origin, cb)] of the [cors] options; [origin] is the request's
    Origin header, [allowedOrigins] the list built at start-up. *)
Definition cors_origin (isProd : bool) (allowedOrigins : list string)
    (origin : option string) : CorsResult :=
  if negb (truthy origin) then CorsAllow
  else if negb isProd && localhost_dev_origin (default "" origin) then CorsAllow
  else if bool_decide (default "" origin ∈ allowedOrigins) then CorsAllow
  else CorsError "Not allowed by CORS".

(** An error as the last middleware receives it. *)
Record JsError := mkJsError {
  err_message : string;
  err_status : option Z;
  err_stack : string
}.

(** The JSON the error handler sends: [error], [message] and, in
    development only, [stack]. *)
Record ErrorReply := mkErrorReply {
  er_status : Z;
  er_error : string;
  er_message : string;
  er_stack : option string
}.

(** [err.status || 500] *)
Definition status_or_500 (status : option Z) : Z :=
  match status with
  | Some s => if s =? 0 then 500 else s
  | None => 500
  end.

(** What the client is sent for an error: the handler's JSON, or the
    answer of Express's own last handler, 500 with its page. *)
Inductive ErrorAnswer :=
| JsonAnswer (reply : ErrorReply)
| ExpressAnswer500.

(** [res.status(status).json(reply)]: a status that is no status code
    (outside 100..999) makes the call throw; the exception leaves the
    error handler and Express's last handler answers. *)
Definition res_status_json (reply : ErrorReply) : ErrorAnswer :=
  if (100 <=? er_status reply) && (er_status reply <=? 999)
  then JsonAnswer reply
  else ExpressAnswer500.

(** [app.use((err, _req, res, _next) => ...)] *)
Definition error_handler (isProd : bool) (err : JsError) : ErrorAnswer :=
  if String.eqb (err_message err) "Not allowed by CORS"
  then res_status_json (mkErrorReply 403 "forbidden" (err_message err) None)
  else
    let status := status_or_500 (err_status err) in
    if negb isProd
    then res_status_json
           (mkErrorReply status "server_error" (err_message err) (Some (err_stack err)))
    else res_status_json
           (mkErrorReply status "server_error" "An unexpected error occurred." None).

(** The path of a request through the CORS middleware: [None] when it goes
    on to the routes, the error handler's answer when the origin function
    reports an error ([stack] is the stack of that error). *)
Definition cors_gate (isProd : bool) (allowedOrigins : list string)
    (origin : option string) (stack : string) : option ErrorAnswer :=
  match cors_origin isProd allowedOrigins origin with
  | CorsAllow => None
  | CorsError message => Some (error_handler isProd (mkJsError message None stack))
  end.

(** A store with integer prices and a Plywood row. *)
Definition plywood (qty : Z) : DB Z :=
  mkDB {[ "s1" := mkStockItem "Plywood" qty 80 (Some 100) ]} ∅.

(** A freshly started service: no fault scheduled, [db] committed. *)
Definition start (db : DB Z) : World Z := mkWorld db [] [db].

Definition ann (items : list (ItemReq Z)) : CreateBody Z :=
  mkCreateBody (Some "Ann") (Some "555-0100") (Some items).

(** Two stock rows, and an order [o1] with one line on each. *)
Definition two_rows : DB Z :=
  mkDB {[ "s1" := mkStockItem "Plywood" 10 80 (Some 100);
          "s2" := mkStockItem "Nails" 50 1 (Some 2) ]} ∅.

Definition two_lines_pending : World Z :=
  snd (post_orders "rep1" "o1"
         (ann [mkItemReq "s1" 4 (Some 100); mkItemReq "s2" 5 (Some 2)]) (start two_rows)).

(** The same world when the third round trip to come throws: in an
    approval that is the second decrement inside the transaction. *)
Definition third_call_fails (w : World Z) : World Z :=
  mkWorld (w_db w) [false; false; true] (w_committed w).

(** A later edit of the Plywood row: new buying price, quantity reset. *)
Definition reprice : StockBody Z := mkStockBody None (Some 40) (Some 95).

(** A users table: one administrator, one sales representative. *)
Definition two_users : gmap string User :=
  {[ "u0" := mkUser "root" "$2a$10$rootrootroot" ADMIN true None;
     "rep1" := mkUser "rita" "$2a$10$ritaritarita" SALES_REPRESENTATIVE true (Some "u0") ]}.

Definition site_of (w : World Z) : Site Z := mkSite two_users w.

(** A stand-in for [bcrypt.hash]. *)
Definition salted (password : string) : string := "$2a$10$" +:+ password.

Definition new_keeper : UserBody :=
  mkUserBody (Some "kofi") (Some "s3cret") (Some "STORE_KEEPER").

Definition new_admin : UserBody :=
  mkUserBody (Some "eve") (Some "s3cret") (Some "ADMIN").

(** Bodies for the stock router. *)
Definition nails_body : StockBody Z := mkStockBody (Some "Nails") (Some 50) (Some 1).

Definition plywood_again : StockBody Z := mkStockBody (Some "Plywood") (Some 5) (Some 80).

Definition overdraw : StockBody Z := mkStockBody None (Some (-7)) None.

(** The seed script's environment and the keys its rows are given. *)
Definition root_env : SeedEnv := mkSeedEnv (Some "root") (Some "s3cret").

Definition user_key (username : string) : string := "user:" +:+ username.

Definition stock_key (name : string) : string := "stock:" +:+ name.

(** The Plywood store after another session has added a second item that
    is low as well. *)
Definition with_screws : DB Z :=
  mkDB {[ "s1" := mkStockItem "Plywood" 10 80 (Some 100);
          "s2" := mkStockItem "Screws" 3 1 None ]} ∅.

(** Scenario A before the approval: Plywood at 10, order [o1] for 4 at 100. *)
Definition pending_4_of_10 : World Z :=
  snd (post_orders "rep1" "o1" (ann [mkItemReq "s1" 4 (Some 100)]) (start (plywood 10))).


(** ** Vocabulary of the statements *)

Section Vocabulary.
Context {price : Type} `{!JsNum price}.

(** What the lines of an order request of stock item [sid], all together. *)
Definition requested (sid : string) (items : list (OrderItem price)) : Z :=
  foldr (fun oi acc => if decide (oi_stockItemId oi = sid) then oi_quantity oi + acc else acc)
        0 items.

(** Every line's decrement applied to the stock table, line by line. *)
Definition settle_stock (items : list (OrderItem price))
    (st : gmap string (StockItem price)) : gmap string (StockItem price) :=
  foldl (fun st oi => alter (decrement (oi_quantity oi)) (oi_stockItemId oi) st) st items.

(** The database after the settlement of order [o], stored under [id]. *)
Definition settled (id : string) (o : Order price) (db : DB price) : DB price :=
  mkDB (settle_stock (o_orderItems o) (stock_items db))
       (<[id := set_status APPROVED o]> (orders db)).

(** Every decrement of the settlement leaves a quantity the column holds:
    once a line has been applied, the quantity of its stock item (what it
    was, minus what the lines up to this one request of it) is within the
    INTEGER range. *)
Definition settlement_fits (items : list (OrderItem price))
    (st : gmap string (StockItem price)) : Prop :=
  forall pre oi post s,
    items = pre ++ oi :: post -> st !! oi_stockItemId oi = Some s ->
    in_int32 (s_quantity s - requested (oi_stockItemId oi) (pre ++ [oi])) = true.

(** A requested line that intake lets through: its stock item exists and
    holds at least the requested quantity. *)
Definition line_ok (db : DB price) (item : ItemReq price) : Prop :=
  exists s, stock_items db !! it_stockItemId item = Some s /\ it_quantity item <= s_quantity s.

(** An order line the approval re-check lets through: its stock item
    exists and holds at least the line's quantity. *)
Definition covered (db : DB price) (oi : OrderItem price) : Prop :=
  exists s, stock_items db !! oi_stockItemId oi = Some s /\ oi_quantity oi <= s_quantity s.

(** No stock row has a negative quantity. *)
Definition stock_nonneg (db : DB price) : Prop :=
  forall sid s, stock_items db !! sid = Some s -> 0 <= s_quantity s.

(** The line intake builds from a requested line. *)
Definition line_of (item : ItemReq price) : OrderItem price :=
  mkOrderItem (it_stockItemId item) (it_quantity item)
    (sellingPrice_or_0 (it_sellingPrice item))
    (num_mul (sellingPrice_or_0 (it_sellingPrice item)) (it_quantity item)).

(** The sum as the loop accumulates it: from 0, left to right. *)
Definition sum_prices (l : list price) : price := foldl num_add num_zero l.

(** The two answers of the validation loop. *)
Definition not_found_msg (item : ItemReq price) : Response price :=
  res_error 400 ("Stock item not found: " +:+ it_stockItemId item).

Definition insufficient_msg (s : StockItem price) : Response price :=
  res_error 400 ("Insufficient stock for " +:+ s_name s).

Definition missing_fields_msg : Response price :=
  res_error 400 "Customer details and items are required".

(** The row intake inserts for an accepted request. *)
Definition created (userId name contact : string) (items : list (ItemReq price)) : Order price :=
  mkOrder name contact PENDING (sum_prices (map oi_totalPrice (map line_of items)))
    None userId (map line_of items).

(** [o'] is [o] as far as its lines and its total go. *)
Definition same_totals (o o' : Order price) : Prop :=
  o_totalAmount o' = o_totalAmount o /\ o_orderItems o' = o_orderItems o.

(** Same database and same commit history. *)
Definition unchanged (w w' : World price) : Prop :=
  w_db w' = w_db w /\ w_committed w' = w_committed w.

End Vocabulary.

(** ** Vocabulary for the stock router *)

Section StockVocabulary.
Context {price : Type} `{!JsNum price}.

(** [name] is a unique key of [stock_items]: no two rows share a name. *)
Definition names_unique (db : DB price) : Prop :=
  forall i j s t, stock_items db !! i = Some s -> stock_items db !! j = Some t ->
                  s_name s = s_name t -> i = j.

(** No row of the table is called [name]. *)
Definition name_unused (db : DB price) (name : string) : Prop :=
  forall i s, stock_items db !! i = Some s -> s_name s <> name.

(** [s'] is the row [s] as far as its name and its selling price go. *)
Definition same_label (s s' : StockItem price) : Prop :=
  s_name s' = s_name s /\ s_sellingPrice s' = s_sellingPrice s.

(** From [db] to [db'] every stock row stays, under its key, with its name
    and selling price; a row that is new has no selling price. *)
Definition stock_evolves (db db' : DB price) : Prop :=
  (forall id s, stock_items db !! id = Some s ->
                exists s', stock_items db' !! id = Some s' /\ same_label s s') /\
  (forall id s', stock_items db' !! id = Some s' -> stock_items db !! id = None ->
                 s_sellingPrice s' = None).

End StockVocabulary.

(** ** Vocabulary for users, listings and the dashboard *)

Section SiteVocabulary.
Context {price : Type} `{!JsNum price}.

(** Same tables (users, orders, stock) and same commit history. *)
Definition site_same (s s' : Site price) : Prop :=
  site_users s' = site_users s /\ unchanged (site_world s) (site_world s').

(** No round trip of the request fails. *)
Definition no_fault (s : Site price) : Prop := w_faults (site_world s) = [].

(** [username] is a unique key of [users]. *)
Definition usernames_unique (users : gmap string User) : Prop :=
  forall i j u v, users !! i = Some u -> users !! j = Some v ->
                  u_username u = u_username v -> i = j.

(** [u'] is the row [u] up to its [isActive] flag. *)
Definition same_account (u u' : User) : Prop :=
  u_username u' = u_username u /\ u_password u' = u_password u /\
  u_role u' = u_role u /\ u_createdBy u' = u_createdBy u.

(** The requests of the users router. *)
Inductive UserRequest :=
| CreateUser (adminId newId : string) (hash : string -> string) (body : UserBody)
| SetUserStatus (id : string) (isActive : option bool)
| ListUsers (orderBy : list (string * User) -> list (string * User)).

Definition serve_users (rq : UserRequest) (s : Site price) : Site price :=
  match rq with
  | CreateUser adminId newId hash body => snd (post_users adminId newId hash body s)
  | SetUserStatus id isActive => snd (patch_user_status id isActive s)
  | ListUsers orderBy => snd (get_users orderBy s)
  end.

Fixpoint serve_users_all (rqs : list UserRequest) (s : Site price) : Site price :=
  match rqs with
  | [] => s
  | rq :: rqs => serve_users_all rqs (serve_users rq s)
  end.

(** The number of orders in a given status. *)
Definition count_status (st : OrderStatus) (db : DB price) : nat :=
  size (filter (fun row : string * Order price => o_status (snd row) = st) (orders db)).

(** 1 when [P] holds, 0 otherwise. *)
Definition one_if (P : Prop) `{!Decision P} : nat := if decide P then 1%nat else 0%nat.

(** What [user] may see of the orders: a sales representative only the
    orders that are theirs. *)
Definition visible_to (user : AuthUser) (o : Order price) : Prop :=
  au_role user = SALES_REPRESENTATIVE -> o_salesRepId o = au_id user.

(** The store once the first [n] entries of [others] have been committed.
    The [k]-th query of a [Promise.all] (from 1) is answered on the tables
    of [after_commits k others s]. *)
Fixpoint after_commits (n : nat) (others : list (option (gmap string User * DB price)))
    (s : Site price) : Site price :=
  match n with
  | O => s
  | S n => after_commits n (tail others) (others_commit (mjoin (head others)) s)
  end.

(** What queries that compute [fs] of the tables are answered, one after
    the other, among the commits of [others]. *)
Fixpoint answers {A} (fs : list (gmap string User -> DB price -> A))
    (others : list (option (gmap string User * DB price))) (s : Site price) : list A :=
  match fs with
  | [] => []
  | f :: fs =>
      let s0 := others_commit (mjoin (head others)) s in
      f (site_users s0) (w_db (site_world s0)) :: answers fs (tail others) s0
  end.

(** A query that only reads: it leaves the store as it was, and its value,
    when it has one, is [f] of the tables. *)
Definition reads {A} (p : SiteM price A) (f : gmap string User -> DB price -> A) : Prop :=
  forall s r s', p s = (r, s') ->
    site_same s s' /\ (forall v, r = inr v -> v = f (site_users s) (w_db (site_world s))) /\
    (no_fault s -> r = inr (f (site_users s) (w_db (site_world s))) /\ s' = s).

(** The row of the order listing for the order [o] under [id]. *)
Definition listed_row (users : gmap string User) (db : DB price) (withSalesRep : bool)
    (id : string) (o : Order price) : OrderRow price :=
  mkOrderRow id (include_items db o)
    (if withSalesRep then u_username <$> users !! o_salesRepId o else None).

(** What the lines cost at the buying prices the stock rows have now. *)
Definition cost_from (db : DB price) (items : list (OrderItem price)) (start : price) : price :=
  fold_left (fun acc oi =>
               match stock_items db !! oi_stockItemId oi with
               | Some t => num_add acc (num_mul (s_buyingPrice t) (oi_quantity oi))
               | None => acc
               end) items start.

Definition cost_now (db : DB price) (items : list (OrderItem price)) : price :=
  cost_from db items num_zero.

(** The rows an order refers to are there: its sales representative and the
    stock item of each of its lines. *)
Definition references_resolve (users : gmap string User) (db : DB price) (o : Order price)
    : Prop :=
  is_Some (users !! o_salesRepId o) /\
  Forall (fun oi => is_Some (stock_items db !! oi_stockItemId oi)) (o_orderItems o).

(** An order the sales summary is about. *)
Definition in_summary (inRange : string -> bool) (id : string) (o : Order price) : Prop :=
  o_status o = APPROVED /\ inRange id = true.

(** An element of a sale's [items] is the line [oi] with the name of its
    stock item. *)
Definition sale_item_of_line (db : DB price) (oi : OrderItem price) (it : SaleItem price)
    : Prop :=
  sl_quantity it = oi_quantity oi /\ sl_unitPrice it = oi_unitPrice oi /\
  sl_totalPrice it = oi_totalPrice oi /\
  exists t, stock_items db !! oi_stockItemId oi = Some t /\ sl_name it = s_name t.

(** The same tables: users, stock and orders. *)
Definition tables_same (s s' : Site price) : Prop :=
  site_users s' = site_users s /\ w_db (site_world s') = w_db (site_world s).

(** From [s] to [s'] every user and every stock row stays as it is, under
    its key, and the orders are the same. *)
Definition rows_kept (s s' : Site price) : Prop :=
  (forall id u, site_users s !! id = Some u -> site_users s' !! id = Some u) /\
  (forall id t, stock_items (w_db (site_world s)) !! id = Some t ->
                stock_items (w_db (site_world s')) !! id = Some t) /\
  orders (w_db (site_world s')) = orders (w_db (site_world s)).

(** The rows of [s'] that [s] does not have are users as [new_user] and
    stock rows as [new_stock]. *)
Definition rows_added (new_user : User -> Prop) (new_stock : StockItem price -> Prop)
    (s s' : Site price) : Prop :=
  (forall id u, site_users s' !! id = Some u -> site_users s !! id = None -> new_user u) /\
  (forall id t, stock_items (w_db (site_world s')) !! id = Some t ->
                stock_items (w_db (site_world s)) !! id = None -> new_stock t).

Definition has_username (s : Site price) (username : string) : Prop :=
  exists id u, site_users s !! id = Some u /\ u_username u = username.

Definition has_stock_name (s : Site price) (name : string) : Prop :=
  exists id t, stock_items (w_db (site_world s)) !! id = Some t /\ s_name t = name.

(** The store holds what the seed script is there to provide. *)
Definition seeded (adminUsername : string) (s : Site price) : Prop :=
  has_username s adminUsername /\
  Forall (fun item => has_stock_name s (s_name item)) (seed_stockItems (price:=price)).

(** The keys generated for the rows the script has to create are new, and
    those of the stock rows differ from each other. *)
Definition seed_keys_fresh (userId stockId : string -> string) (adminUsername : string)
    (items : list (StockItem price)) (s : Site price) : Prop :=
  (has_username s adminUsername \/ site_users s !! userId adminUsername = None) /\
  (forall item, item ∈ items -> ~ has_stock_name s (s_name item) ->
     stock_items (w_db (site_world s)) !! stockId (s_name item) = None) /\
  (forall a b, a ∈ items -> b ∈ items ->
     ~ has_stock_name s (s_name a) -> ~ has_stock_name s (s_name b) ->
     stockId (s_name a) = stockId (s_name b) -> s_name a = s_name b).

(** The loop of seed.js over the stock items. *)
Definition seed_stock_loop (stockId : string -> string) (items : list (StockItem price))
    : SiteM price unit :=
  for_of items (fun item =>
    sbind (in_world (stockItem_upsert (s_name item) (stockId (s_name item)) (fun t => t) item))
      (fun _ => sret tt)).

Context `{!JsSub price}.

(** What a sale says of the listed order it was made from. *)
Definition sale_of_row (db : DB price) (row : OrderRow price) (sale : Sale price) : Prop :=
  let o := ov_order (or_order row) in
  sale_id sale = or_id row /\
  sale_customerName sale = o_customerName o /\
  sale_customerContact sale = o_customerContact o /\
  or_salesRep row = Some (sale_salesRep sale) /\
  sale_totalAmount sale = o_totalAmount o /\
  sale_cost sale = cost_now db (o_orderItems o) /\
  sale_profit sale = num_sub (sale_totalAmount sale) (sale_cost sale) /\
  Forall2 (sale_item_of_line db) (o_orderItems o) (sale_items sale).

End SiteVocabulary.

(** ** The store's operations *)

Section StoreFacts.
Context {price : Type} `{!JsNum price}.
Implicit Types (w : World price) (db : DB price).

Lemma unchanged_refl w : unchanged w w.
Proof. by split. Qed.

Lemma unchanged_trans w1 w2 w3 : unchanged w1 w2 -> unchanged w2 w3 -> unchanged w1 w3.
Proof. intros [? ?] [? ?]; split; congruence. Qed.

Lemma db_call_unchanged w r w' : db_call w = (r, w') -> unchanged w w'.
Proof.
  unfold db_call. destruct (w_faults w) as [|[] fs]; intros [= <- <-]; by split.
Qed.

Lemma stockItem_findUnique_unchanged id w r w' :
  stockItem_findUnique id w = (r, w') -> unchanged w w'.
Proof.
  unfold stockItem_findUnique, bind, get_db, ret.
  destruct (db_call w) as [[e|[]] w1] eqn:E; intros [= <- <-];
    eauto using db_call_unchanged.
Qed.

Lemma stockItem_findUnique_value id w v w' :
  stockItem_findUnique id w = (inr v, w') -> v = stock_items (w_db w) !! id.
Proof.
  unfold stockItem_findUnique, bind, get_db, ret.
  destruct (db_call w) as [[e|[]] w1] eqn:E; intros [= <- <-].
  apply db_call_unchanged in E as [-> _]. done.
Qed.

Lemma order_findUnique_unchanged id w r w' :
  order_findUnique id w = (r, w') -> unchanged w w'.
Proof.
  unfold order_findUnique, bind, get_db, ret.
  destruct (db_call w) as [[e|[]] w1] eqn:E; intros [= <- <-];
    eauto using db_call_unchanged.
Qed.

Lemma order_findUnique_value id w v w' :
  order_findUnique id w = (inr v, w') ->
  v = include_items (w_db w) <$> orders (w_db w) !! id.
Proof.
  unfold order_findUnique, bind, get_db, ret.
  destruct (db_call w) as [[e|[]] w1] eqn:E; intros [= <- <-].
  apply db_call_unchanged in E as [-> _]. done.
Qed.

Lemma insert_decrement id n (s : StockItem price) (st : gmap string (StockItem price)) :
  st !! id = Some s -> <[id := decrement n s]> st = alter (decrement n) id st.
Proof.
  intros Hs. apply map_eq; intros k. rewrite lookup_insert, lookup_alter.
  case_decide; subst; by rewrite ?Hs.
Qed.

(** One decrement: it touches the stock table only, and nothing is
    committed yet. *)
Lemma tx_stockItem_update_decrement_spec id n w r w' :
  tx_stockItem_update_decrement id n w = (r, w') ->
  w_committed w' = w_committed w /\ orders (w_db w') = orders (w_db w) /\
  match r with
  | inr _ => stock_items (w_db w') = alter (decrement n) id (stock_items (w_db w))
  | inl _ => w_db w' = w_db w
  end.
Proof.
  unfold tx_stockItem_update_decrement, bind, get_db, put_db, throw.
  destruct (db_call w) as [[e|[]] w1] eqn:E; apply db_call_unchanged in E as [Hdb Hc].
  - intros [= <- <-]. by rewrite Hdb, Hc.
  - destruct (stock_items (w_db w1) !! id) as [s|] eqn:Hs;
      [destruct (in_int32 (s_quantity s - n))|]; intros [= <- <-]; simpl.
    + rewrite Hc, Hdb in *. by erewrite insert_decrement.
    + by rewrite Hdb, Hc.
    + by rewrite Hdb, Hc.
Qed.

Lemma tx_stockItem_update_decrement_no_fault id n db c s :
  stock_items db !! id = Some s ->
  tx_stockItem_update_decrement id n (mkWorld db [] c)
  = if in_int32 (s_quantity s - n)
    then (inr tt, mkWorld (mkDB (alter (decrement n) id (stock_items db)) (orders db)) [] c)
    else (inl InvalidValue, mkWorld db [] c).
Proof.
  intros Hs. unfold tx_stockItem_update_decrement, bind, get_db, put_db, throw; simpl.
  rewrite Hs. destruct (in_int32 (s_quantity s - n)); simpl; [|done].
  by erewrite insert_decrement.
Qed.

Lemma tx_order_update_spec id data w r w' :
  tx_order_update id data w = (r, w') ->
  w_committed w' = w_committed w /\ stock_items (w_db w') = stock_items (w_db w) /\
  match r with
  | inr v => exists o, orders (w_db w) !! id = Some o /\
                       orders (w_db w') = <[id := data o]> (orders (w_db w)) /\
                       v = include_items (w_db w') (data o)
  | inl _ => w_db w' = w_db w
  end.
Proof.
  unfold tx_order_update, bind, get_db, put_db, throw, ret.
  destruct (db_call w) as [[e|[]] w1] eqn:E; apply db_call_unchanged in E as [Hdb Hc].
  - intros [= <- <-]. by rewrite Hdb, Hc.
  - destruct (orders (w_db w1) !! id) as [o|] eqn:Ho; intros [= <- <-]; simpl.
    + rewrite Hc, Hdb in *. repeat split; eauto.
    + by rewrite Hdb, Hc.
Qed.

(** The loop of decrements. *)
Lemma deduct_stock_spec (items : list (OrderItem price * option (StockItem price))) w r w' :
  deduct_stock items w = (r, w') ->
  w_committed w' = w_committed w /\ orders (w_db w') = orders (w_db w) /\
  (forall u, r = inr u ->
     stock_items (w_db w') = settle_stock (map fst items) (stock_items (w_db w))).
Proof.
  revert w. induction items as [|[oi si] rest IH]; intros w; simpl.
  - unfold ret. intros [= <- <-]. done.
  - unfold bind.
    destruct (tx_stockItem_update_decrement _ _ w) as [[e|[]] w1] eqn:E;
      apply tx_stockItem_update_decrement_spec in E as (Hc & Ho & Hs).
    + intros [= <- <-]. repeat split; try done.
    + intros Hrest. apply IH in Hrest as (Hc' & Ho' & Hs').
      repeat split; try congruence.
      intros u Hu. rewrite (Hs' u Hu), Hs. done.
Qed.

Lemma settle_stock_lookup (items : list (OrderItem price)) st sid :
  settle_stock items st !! sid = decrement (requested sid items) <$> st !! sid.
Proof.
  revert st. induction items as [|oi rest IH]; intros st; simpl.
  - destruct (st !! sid) as [[]|]; simpl; [|done].
    unfold decrement; simpl. by rewrite Z.sub_0_r.
  - unfold settle_stock in *. rewrite IH, lookup_alter.
    destruct (decide (oi_stockItemId oi = sid)) as [->|Hne].
    + destruct (st !! sid) as [s|]; simpl; [|done].
      unfold decrement; simpl. do 2 f_equal. lia.
    + done.
Qed.

Lemma requested_cons sid oi (items : list (OrderItem price)) :
  requested sid (oi :: items)
  = if decide (oi_stockItemId oi = sid) then oi_quantity oi + requested sid items
    else requested sid items.
Proof. done. Qed.

Lemma settlement_fits_nil st : settlement_fits ([] : list (OrderItem price)) st.
Proof. intros pre oi post s Heq. by destruct pre. Qed.

(** Line by line: the first decrement fits, and the others do on the table
    it leaves. *)
Lemma settlement_fits_cons oi (rest : list (OrderItem price)) st :
  settlement_fits (oi :: rest) st <->
  (forall s, st !! oi_stockItemId oi = Some s ->
             in_int32 (s_quantity s - oi_quantity oi) = true) /\
  settlement_fits rest (alter (decrement (oi_quantity oi)) (oi_stockItemId oi) st).
Proof.
  split.
  - intros Hfits. split.
    + intros s Hs. pose proof (Hfits [] oi rest s eq_refl Hs) as H.
      change ([] ++ [oi]) with [oi] in H.
      rewrite requested_cons, decide_True in H by done.
      change (requested (oi_stockItemId oi) []) with 0 in H.
      by rewrite Z.add_0_r in H.
    + intros pre oi' post s' -> Hs'. rewrite lookup_alter in Hs'.
      destruct (decide (oi_stockItemId oi = oi_stockItemId oi')) as [Heq|Hne].
      * rewrite Heq in Hs'. apply fmap_Some in Hs' as (s0 & Hs0 & ->).
        pose proof (Hfits (oi :: pre) oi' post s0 eq_refl Hs0) as H.
        change ((oi :: pre) ++ [oi']) with (oi :: (pre ++ [oi'])) in H.
        rewrite requested_cons, decide_True in H by done.
        cbn [decrement s_quantity].
        by replace (s_quantity s0 - oi_quantity oi
                    - requested (oi_stockItemId oi') (pre ++ [oi']))
          with (s_quantity s0
                - (oi_quantity oi + requested (oi_stockItemId oi') (pre ++ [oi'])))
          by lia.
      * pose proof (Hfits (oi :: pre) oi' post s' eq_refl Hs') as H.
        change ((oi :: pre) ++ [oi']) with (oi :: (pre ++ [oi'])) in H.
        by rewrite requested_cons, decide_False in H by done.
  - intros [Hhead Htail] pre oi' post s Heq Hs. destruct pre as [|x pre].
    + change ([] ++ oi' :: post) with (oi' :: post) in Heq. injection Heq as <- <-.
      change ([] ++ [oi]) with [oi].
      rewrite requested_cons, decide_True by done.
      change (requested (oi_stockItemId oi) []) with 0.
      rewrite Z.add_0_r. by apply Hhead.
    + change ((x :: pre) ++ oi' :: post) with (x :: (pre ++ oi' :: post)) in Heq.
      injection Heq as <- ->.
      change ((oi :: pre) ++ [oi']) with (oi :: (pre ++ [oi'])).
      rewrite requested_cons.
      destruct (decide (oi_stockItemId oi = oi_stockItemId oi')) as [Heq|Hne].
      * replace (s_quantity s - (oi_quantity oi + requested (oi_stockItemId oi') (pre ++ [oi'])))
          with (s_quantity (decrement (oi_quantity oi) s)
                - requested (oi_stockItemId oi') (pre ++ [oi']))
          by (cbn [decrement s_quantity]; lia).
        apply (Htail pre oi' post); [done|].
        rewrite lookup_alter, decide_True by done. by rewrite Heq, Hs.
      * apply (Htail pre oi' post); [done|].
        by rewrite lookup_alter, decide_False by done.
Qed.

(** Without faults the loop of decrements is decided by the table: it runs
    to its end when every decrement fits the column, and otherwise stops at
    the first one that does not. *)
Lemma deduct_stock_no_fault (items : list (OrderItem price * option (StockItem price))) db c :
  Forall (fun it => is_Some (stock_items db !! oi_stockItemId (fst it))) items ->
  (settlement_fits (map fst items) (stock_items db) /\
   deduct_stock items (mkWorld db [] c)
   = (inr tt, mkWorld (mkDB (settle_stock (map fst items) (stock_items db)) (orders db)) [] c))
  \/ (~ settlement_fits (map fst items) (stock_items db) /\
      exists db1, deduct_stock items (mkWorld db [] c) = (inl InvalidValue, mkWorld db1 [] c)).
Proof.
  revert db. induction items as [|[oi si] rest IH]; intros db Hall; simpl.
  - left. split; [apply settlement_fits_nil|]. unfold ret. by destruct db.
  - inversion Hall as [|? ? [s Hs] Hrest]; subst. simpl in Hs.
    unfold bind. rewrite (tx_stockItem_update_decrement_no_fault _ _ _ _ _ Hs).
    destruct (in_int32 (s_quantity s - oi_quantity oi)) eqn:Hfit.
    + destruct (IH (mkDB (alter (decrement (oi_quantity oi)) (oi_stockItemId oi)
                            (stock_items db)) (orders db))) as [[Hfits ->]|[Hno [db1 ->]]].
      * simpl. eapply Forall_impl; [exact Hrest|]. intros [oi' si'] Hsome; simpl in *.
        rewrite lookup_alter. case_decide; subst; [|done]. by apply fmap_is_Some.
      * left. split; [|done]. apply settlement_fits_cons. split; [|done].
        intros s0 Hs0. rewrite Hs in Hs0. by injection Hs0 as <-.
      * right. split; [|by exists db1]. intros Hfits.
        apply settlement_fits_cons in Hfits as [_ Hfits]. by apply Hno.
    + right. split; [|by exists db]. intros Hfits.
      apply settlement_fits_cons in Hfits as [Hhead _].
      rewrite (Hhead s Hs) in Hfit. done.
Qed.

(** The transaction wrapper: when it throws, no write of its body is kept
    and nothing was committed; when it returns, the body's final state is
    committed in one piece. *)
Lemma transaction_spec {A} (body : Prisma price A) w r w' :
  transaction body w = (r, w') ->
  match r with
  | inl _ => unchanged w w'
  | inr a => exists w1, body w = (inr a, w1) /\ w_db w' = w_db w1 /\
                        w_committed w' = w_db w1 :: w_committed w1
  end.
Proof.
  unfold transaction.
  destruct (body w) as [[e|a] w1] eqn:E.
  - intros [= <- <-]. by split.
  - destruct (db_call w1) as [[e|[]] w2] eqn:E2; intros [= <- <-]; simpl.
    + by split.
    + apply db_call_unchanged in E2 as [Hdb Hc]. exists w1. by rewrite Hdb, Hc.
Qed.

End StoreFacts.

(** ** Approval *)

Section ApprovalFacts.
Context {price : Type} `{!JsNum price}.
Implicit Types (w : World price) (db : DB price) (o : Order price).

Lemma DB_eq db1 db2 :
  stock_items db1 = stock_items db2 -> orders db1 = orders db2 -> db1 = db2.
Proof. destruct db1, db2; simpl; congruence. Qed.

Lemma map_fst_include db o : map fst (ov_items (include_items db o)) = o_orderItems o.
Proof. simpl. rewrite map_map. simpl. apply map_id. Qed.

(** The re-check reads the loaded order only. *)
Lemma check_stock_world (items : list (OrderItem price * option (StockItem price))) w :
  snd (check_stock items w) = w.
Proof.
  induction items as [|[oi [s|]] rest IH]; simpl; try done.
  destruct (s_quantity s <? oi_quantity oi); done.
Qed.

Lemma check_stock_status (items : list (OrderItem price * option (StockItem price))) w resp w' :
  check_stock items w = (inr (Some resp), w') -> res_status resp = 400.
Proof.
  induction items as [|[oi [s|]] rest IH]; simpl; try done.
  destruct (s_quantity s <? oi_quantity oi); [|done].
  by intros [= <- <-].
Qed.

Lemma check_stock_pass (items : list (OrderItem price * option (StockItem price))) w :
  Forall (fun it => exists s, snd it = Some s /\ oi_quantity (fst it) <= s_quantity s) items ->
  check_stock items w = (inr None, w).
Proof.
  induction 1 as [|[oi si] rest (s & Hs & Hle) _ IH]; simpl in *; [done|].
  subst si. destruct (Z.ltb_spec (s_quantity s) (oi_quantity oi)); [lia|done].
Qed.

Lemma check_stock_none (items : list (OrderItem price * option (StockItem price))) w w' :
  check_stock items w = (inr None, w') ->
  Forall (fun it => exists s, snd it = Some s /\ oi_quantity (fst it) <= s_quantity s) items.
Proof.
  induction items as [|[oi [s|]] rest IH]; simpl; try done.
  destruct (Z.ltb_spec (s_quantity s) (oi_quantity oi)); [done|].
  intros Hrest. constructor; [by exists s|auto].
Qed.

Lemma approve_tx_spec id (ov : OrderView price) w u w1 :
  approve_tx id ov w = (inr u, w1) ->
  w_committed w1 = w_committed w /\
  stock_items (w_db w1) = settle_stock (map fst (ov_items ov)) (stock_items (w_db w)) /\
  exists o, orders (w_db w) !! id = Some o /\
            orders (w_db w1) = <[id := set_status APPROVED o]> (orders (w_db w)).
Proof.
  unfold approve_tx, bind, ret.
  destruct (deduct_stock _ w) as [[e|[]] w2] eqn:E; [done|].
  apply deduct_stock_spec in E as (Hc & Ho & Hs). specialize (Hs tt eq_refl).
  destruct (tx_order_update _ _ w2) as [[e|v] w3] eqn:E2; [done|].
  apply tx_order_update_spec in E2 as (Hc' & Hs' & o & Hid & Hins & _).
  intros [= <- <-]. rewrite Ho in *. split; [congruence|]. split; [congruence|eauto].
Qed.

Lemma requested_not_named sid (items : list (OrderItem price)) :
  sid ∉ oi_stockItemId <$> items -> requested sid items = 0.
Proof.
  induction items as [|oi rest IH]; simpl; [done|].
  rewrite not_elem_of_cons. intros [Hne Hrest].
  rewrite decide_False by done. auto.
Qed.

(** When no two lines name the same stock item, what the order requests of
    an item is covered by what is on hand. *)
Lemma requested_covered db sid s (items : list (OrderItem price)) :
  NoDup (oi_stockItemId <$> items) -> Forall (covered db) items ->
  stock_items db !! sid = Some s -> 0 <= s_quantity s ->
  requested sid items <= s_quantity s.
Proof.
  intros Hnd Hcov Hs Hpos. induction items as [|oi rest IH]; simpl; [done|].
  rewrite fmap_cons in Hnd. apply NoDup_cons in Hnd as [Hnotin Hnd].
  inversion Hcov as [|? ? (s0 & Hs0 & Hle) Hrest]; subst.
  destruct (decide (oi_stockItemId oi = sid)) as [Heq|Hne]; [|auto].
  rewrite Heq in *. rewrite requested_not_named by done.
  rewrite Hs in Hs0. injection Hs0 as <-. lia.
Qed.

(** A stock item named by one line only is asked for that line's quantity. *)
Lemma requested_single (items : list (OrderItem price)) oi :
  NoDup (oi_stockItemId <$> items) -> oi ∈ items ->
  requested (oi_stockItemId oi) items = oi_quantity oi.
Proof.
  induction items as [|x rest IH]; [by intros _ ?%elem_of_nil|].
  rewrite fmap_cons, NoDup_cons, elem_of_cons. intros [Hnotin Hnd] [->|Hin]; simpl.
  - rewrite decide_True by done. rewrite requested_not_named by done. lia.
  - rewrite decide_False; [auto|].
    intros Heq. apply Hnotin. rewrite Heq. by apply list_elem_of_fmap_2.
Qed.

(** Every way [PATCH /:id/approve] can end. *)
Lemma patch_approve_cases id w :
  let r := fst (patch_approve id w) in
  let w' := snd (patch_approve id w) in
  (unchanged w w' /\ res_status r <> 200) \/
  (exists o, orders (w_db w) !! id = Some o /\ o_status o = PENDING /\
             w_db w' = settled id o (w_db w) /\
             w_committed w' = settled id o (w_db w) :: w_committed w /\
             (res_status r = 200 \/ res_status r = 500) /\
             Forall (covered (w_db w)) (o_orderItems o)).
Proof.
  unfold patch_approve, try_catch_500, bind, ret.
  destruct (order_findUnique id w) as [[e|v] w1] eqn:E1; simpl.
  { left. split; [by eapply order_findUnique_unchanged|done]. }
  pose proof (order_findUnique_value _ _ _ _ E1) as ->.
  apply order_findUnique_unchanged in E1 as Hu1.
  destruct (orders (w_db w) !! id) as [o|] eqn:Ho; simpl; [|by left].
  case_bool_decide as Hst; simpl; [|by left].
  pose proof (check_stock_world (ov_items (include_items (w_db w) o)) w1) as Hw.
  destruct (check_stock _ w1) as [[e|[resp|]] w2] eqn:E2; simpl in Hw; subst w2; simpl.
  { by left. }
  { left. split; [done|]. apply check_stock_status in E2. lia. }
  assert (Forall (covered (w_db w)) (o_orderItems o)) as Hcov.
  { apply check_stock_none in E2. simpl in E2. rewrite List.Forall_map in E2.
    eapply Forall_impl; [exact E2|]. intros oi (s & Hs & Hle). by exists s. }
  destruct (transaction _ w1) as [[e|u] w3] eqn:E3; simpl;
    apply transaction_spec in E3.
  { left. split; [by eapply unchanged_trans|done]. }
  destruct E3 as (w4 & Htx & Hdb & Hc).
  apply approve_tx_spec in Htx as (Hc4 & Hs4 & o' & Ho' & Hins).
  destruct Hu1 as [Hdb1 Hc1]. rewrite Hdb1 in *. rewrite Ho in Ho'. injection Ho' as <-.
  rewrite map_fst_include in Hs4.
  assert (w_db w3 = settled id o (w_db w)) as Hset.
  { rewrite Hdb. by apply DB_eq. }
  right. exists o.
  destruct (order_findUnique id w3) as [[e|v] w5] eqn:E5; simpl;
    apply order_findUnique_unchanged in E5 as [Hdb5 Hc5];
    rewrite Hdb5, Hc5, Hc, Hc4, Hc1, <- Hset, Hdb; auto 10.
Qed.

End ApprovalFacts.

(** C1. Atomic Stock Settlement is all-or-nothing.  For every approval
    attempt, under every schedule of faults: the attempt either leaves the
    database and the list of committed states exactly as they were, or the
    order was PENDING and the database is the fully settled one (every
    line's decrement applied and the status flipped), committed as a single
    new state, so no partially decremented state is ever committed.  A
    failure of the re-check (400), of the lookup (404) or of the transaction
    itself (an exception out of it) leaves everything as it was, and a 200
    is only answered on the settled state. *)
Theorem approve_settlement_atomic {price} `{!JsNum price} (id : string) (w : World price) :
  let r := fst (patch_approve id w) in
  let w' := snd (patch_approve id w) in
  (unchanged w w' \/
   exists o, orders (w_db w) !! id = Some o /\ o_status o = PENDING /\
             w_db w' = settled id o (w_db w) /\
             w_committed w' = settled id o (w_db w) :: w_committed w)
  /\ (res_status r = 400 \/ res_status r = 404 -> unchanged w w')
  /\ (res_status r = 200 ->
      exists o, orders (w_db w) !! id = Some o /\ o_status o = PENDING /\
                w_db w' = settled id o (w_db w))
  /\ (forall ov e w1, transaction (approve_tx id ov) w = (inl e, w1) -> unchanged w w1).
Proof.
  intros r w'.
  assert (forall ov e w1, transaction (approve_tx id ov) w = (inl e, w1) -> unchanged w w1)
    as Htx by (intros ov e w1 E; by apply transaction_spec in E).
  destruct (patch_approve_cases id w) as [[Hu Hr]|(o & Ho & Hst & Hdb & Hc & Hr & _)].
  - split; [by left|]. split; [done|]. split; [done|exact Htx].
  - split; [right; by exists o|]. split; [|split; [intros _; by exists o|exact Htx]].
    unfold r in *. lia.
Qed.

(** A fault in the middle of the settlement: the body of the transaction
    stops with Plywood already decremented, the handler answers 500, and
    the database and its commit history are what they were. *)
Example approve_fault_midway :
  let w := third_call_fails two_lines_pending in
  (s_quantity <$> stock_items (w_db two_lines_pending) !! "s1" = Some 10) /\
  (exists ov w1, order_findUnique "o1" w = (inr (Some ov), w1) /\
     s_quantity <$> stock_items (w_db (snd (approve_tx "o1" ov w1))) !! "s1" = Some 6) /\
  res_status (fst (patch_approve "o1" w)) = 500 /\
  w_db (snd (patch_approve "o1" w)) = w_db w /\
  w_committed (snd (patch_approve "o1" w)) = w_committed w.
Proof.
  split; [reflexivity|]. split; [|split; [reflexivity|split; reflexivity]].
  eexists _, _. split; reflexivity.
Qed.

Lemma approve_settlement_atomic_witness :
  let w := start (mkDB (stock_items (plywood 3)) (orders (w_db pending_4_of_10))) in
  res_status (fst (patch_approve "o1" w)) = 400 /\ unchanged w (snd (patch_approve "o1" w)).
Proof.
  intros w. split; [reflexivity|].
  apply (approve_settlement_atomic "o1" w). left. reflexivity.
Defined.

(** C6. Every approval answered with 200 found the order PENDING, flipped
    it to APPROVED and decremented the stock once per line by that line's
    quantity: a stock item ends at its former quantity minus what the
    order's lines request of it ([requested]), its name and prices as they
    were; when the lines name pairwise different stock items that is, for
    each line, the line's quantity.  Every other column and row is as
    before.  When no round trip fails, the approval of a PENDING order
    whose every line passes the re-check is answered with 200 exactly when
    every decrement leaves a quantity the INTEGER column holds
    ([settlement_fits]); otherwise it is answered with 500 and nothing
    changes.  The decrements do fit when the quantities on hand are in the
    column's range, no line asks for less than 0, and the lines name
    pairwise different stock items. *)
Theorem approve_decrements_stock {price} `{!JsNum price} (id : string) (w : World price) :
  let r := fst (patch_approve id w) in
  let w' := snd (patch_approve id w) in
  let db' := w_db (snd (patch_approve id w)) in
  (res_status r = 200 ->
   exists o, orders (w_db w) !! id = Some o /\ o_status o = PENDING /\
     orders db' = <[id := set_status APPROVED o]> (orders (w_db w)) /\
     (forall sid, stock_items db' !! sid
                  = decrement (requested sid (o_orderItems o)) <$> stock_items (w_db w) !! sid) /\
     (forall sid s, stock_items (w_db w) !! sid = Some s ->
        exists s', stock_items db' !! sid = Some s' /\
          s_quantity s' = s_quantity s - requested sid (o_orderItems o) /\
          s_name s' = s_name s /\ s_buyingPrice s' = s_buyingPrice s /\
          s_sellingPrice s' = s_sellingPrice s) /\
     (NoDup (oi_stockItemId <$> o_orderItems o) ->
      forall oi s, oi ∈ o_orderItems o -> stock_items (w_db w) !! oi_stockItemId oi = Some s ->
                   stock_items db' !! oi_stockItemId oi = Some (decrement (oi_quantity oi) s)) /\
     Forall (covered (w_db w)) (o_orderItems o))
  /\ (forall o, orders (w_db w) !! id = Some o -> o_status o = PENDING ->
        Forall (covered (w_db w)) (o_orderItems o) ->
        w_faults w = [] ->
        (settlement_fits (o_orderItems o) (stock_items (w_db w)) -> res_status r = 200) /\
        (~ settlement_fits (o_orderItems o) (stock_items (w_db w)) ->
         r = internal_error /\ unchanged w w'))
  /\ (forall o, orders (w_db w) !! id = Some o ->
        Forall (covered (w_db w)) (o_orderItems o) ->
        NoDup (oi_stockItemId <$> o_orderItems o) ->
        Forall (fun oi => 0 <= oi_quantity oi) (o_orderItems o) ->
        (forall sid s, stock_items (w_db w) !! sid = Some s -> in_int32 (s_quantity s) = true) ->
        settlement_fits (o_orderItems o) (stock_items (w_db w))).
Proof.
  intros r w' db'. split; [|split].
  - intros H200.
    destruct (patch_approve_cases id w) as [[_ Hne]|(o & Ho & Hst & Hdb & _ & _ & Hcov)];
      [done|].
    exists o. unfold db'. rewrite Hdb. simpl.
    split; [done|]. split; [done|]. split; [done|]. split; [|split; [|split; [|done]]].
    + intros sid. apply settle_stock_lookup.
    + intros sid s Hs. exists (decrement (requested sid (o_orderItems o)) s).
      rewrite settle_stock_lookup, Hs. done.
    + intros Hnd oi s Hin Hs1. rewrite settle_stock_lookup, Hs1. simpl.
      by rewrite requested_single.
  - intros o Ho Hst Hall Hf. unfold r, w'.
    destruct w as [db fs c]; simpl in *; subst fs.
    assert (Forall (fun it : OrderItem price * option (StockItem price) =>
                      is_Some (stock_items db !! oi_stockItemId (fst it)))
              (ov_items (include_items db o))) as Hsome.
    { apply Forall_map. eapply Forall_impl; [exact Hall|]. intros oi (s & Hs & Hle); simpl; eauto. }
    unfold patch_approve, try_catch_500, bind, order_findUnique, get_db, ret; simpl.
    rewrite Ho; simpl. rewrite bool_decide_true by done; simpl.
    rewrite check_stock_pass.
    2:{ apply Forall_map. eapply Forall_impl; [exact Hall|]. intros oi (s & Hs & Hle); simpl; eauto. }
    unfold transaction, approve_tx, bind.
    destruct (deduct_stock_no_fault _ db c Hsome) as [[Hfits ->]|[Hno [db1 ->]]];
      rewrite map_fst_include in *.
    + unfold tx_order_update, bind, get_db, put_db, ret; simpl. rewrite Ho; simpl.
      split; [done|]. intros Hno. by destruct Hno.
    + simpl. split; [intros Hfits; by destruct Hno|]. intros _. by split.
  - intros o Ho Hcov Hnd Hpos Hrange pre oi post s Hitems Hs.
    rewrite Hitems in Hnd, Hcov, Hpos.
    assert (requested (oi_stockItemId oi) (pre ++ [oi]) = oi_quantity oi) as ->.
    { apply requested_single; [|apply elem_of_app; right; apply list_elem_of_here].
      rewrite fmap_app in *. apply NoDup_app in Hnd as (Hpre & Hnot & Hrest).
      apply NoDup_app. split; [done|]. split; [|apply NoDup_singleton].
      intros x Hx Hx'. apply (Hnot x Hx). apply list_elem_of_singleton in Hx' as ->.
      apply list_elem_of_here. }
    apply Forall_app in Hcov as [_ Hcov]. apply Forall_cons in Hcov as [(s0 & Hs0 & Hle) _].
    apply Forall_app in Hpos as [_ Hpos]. apply Forall_cons in Hpos as [Hn _].
    rewrite Hs in Hs0. injection Hs0 as <-.
    pose proof (Hrange _ _ Hs) as Hq. unfold in_int32 in *.
    apply andb_true_iff in Hq as [Hlo Hhi]. apply Z.leb_le in Hlo, Hhi.
    apply andb_true_iff. split; apply Z.leb_le; lia.
Qed.

Lemma approve_decrements_stock_witness :
  res_status (fst (patch_approve "o1" pending_4_of_10)) = 200 /\
  s_quantity <$> stock_items (w_db (snd (patch_approve "o1" pending_4_of_10))) !! "s1" = Some 6 /\
  o_status <$> orders (w_db (snd (patch_approve "o1" pending_4_of_10))) !! "o1" = Some APPROVED.
Proof.
  destruct (approve_decrements_stock "o1" pending_4_of_10) as (Hdone & Hcan & _).
  assert (res_status (fst (patch_approve "o1" pending_4_of_10)) = 200) as H200.
  { eapply Hcan; [reflexivity|reflexivity| |reflexivity|].
    - repeat constructor. eexists. split; [reflexivity|]. simpl. lia.
    - apply settlement_fits_cons. split; [|apply settlement_fits_nil].
      intros s Hs. vm_compute in Hs. injection Hs as <-. reflexivity. }
  split; [exact H200|].
  destruct (Hdone H200) as (o & Ho & _ & Hord & Hall & _).
  vm_compute in Ho. injection Ho as <-.
  rewrite Hall, Hord, lookup_insert_eq. split; reflexivity.
Defined.

(** A decrement that does not fit.  Plywood at 2147483647 and an order of
    -1 of it: intake accepts the line (it asks for no more than is on
    hand), and so does the re-check; the decrement would leave 2147483648,
    the store refuses it, and the approval is answered with 500, the order
    still PENDING and Plywood as it was. *)
Example approve_decrement_out_of_range :
  let intake := post_orders "rep1" "o1" (ann [mkItemReq "s1" (-1) (Some 100)])
                  (start (plywood 2147483647)) in
  let approved := patch_approve "o1" (snd intake) in
  res_status (fst intake) = 201 /\
  fst approved = res_error 500 "Internal server error" /\
  w_db (snd approved) = w_db (snd intake) /\
  o_status <$> orders (w_db (snd approved)) !! "o1" = Some PENDING /\
  s_quantity <$> stock_items (w_db (snd approved)) !! "s1" = Some 2147483647.
Proof. repeat split; reflexivity. Qed.

(** ** Intake *)

Section IntakeFacts.
Context {price : Type} `{!JsNum price}.
Implicit Types (w : World price) (db : DB price) (items : list (ItemReq price)).

(** The validation loop only reads. *)
Lemma validate_items_unchanged items t acc w r w' :
  validate_items items t acc w = (r, w') -> unchanged w w'.
Proof.
  revert t acc w. induction items as [|item rest IH]; intros t acc w; simpl.
  - unfold ret. intros [= <- <-]. apply unchanged_refl.
  - unfold bind.
    destruct (stockItem_findUnique _ w) as [[e|[s|]] w1] eqn:E;
      apply stockItem_findUnique_unchanged in E.
    + by intros [= <- <-].
    + destruct (s_quantity s <? it_quantity item).
      * by intros [= <- <-].
      * intros Hrest. apply IH in Hrest. by eapply unchanged_trans.
    + by intros [= <- <-].
Qed.

(** When the loop runs to its end, every line passed and the accumulators
    hold the lines and their running sum. *)
Lemma validate_items_accepts items t acc w total ois w' :
  validate_items items t acc w = (inr (inr (total, ois)), w') ->
  Forall (line_ok (w_db w)) items /\
  ois = acc ++ map line_of items /\
  total = foldl num_add t (map oi_totalPrice (map line_of items)).
Proof.
  revert t acc w. induction items as [|item rest IH]; intros t acc w; simpl.
  - unfold ret. intros [= <- <- <-]. by rewrite app_nil_r.
  - unfold bind.
    destruct (stockItem_findUnique _ w) as [[e|[s|]] w1] eqn:E; try done.
    pose proof (stockItem_findUnique_value _ _ _ _ E) as Hs.
    apply stockItem_findUnique_unchanged in E as [Hdb _].
    destruct (Z.ltb_spec (s_quantity s) (it_quantity item)) as [|Hle]; [done|].
    intros Hrest. apply IH in Hrest as (Hall & -> & ->). rewrite Hdb in Hall.
    split; [|by rewrite <- app_assoc].
    constructor; [|done]. exists s. by split.
Qed.

(** When the loop returns early, it is at the first line that does not
    pass, with that line's message. *)
Lemma validate_items_rejects items t acc w resp w' :
  validate_items items t acc w = (inr (inl resp), w') ->
  exists pre item post, items = pre ++ item :: post /\ Forall (line_ok (w_db w)) pre /\
    match stock_items (w_db w) !! it_stockItemId item with
    | None => resp = not_found_msg item
    | Some s => s_quantity s < it_quantity item /\ resp = insufficient_msg s
    end.
Proof.
  revert t acc w. induction items as [|item rest IH]; intros t acc w; simpl; [done|].
  unfold bind.
  destruct (stockItem_findUnique _ w) as [[e|[s|]] w1] eqn:E; try done.
  - pose proof (stockItem_findUnique_value _ _ _ _ E) as Hs.
    apply stockItem_findUnique_unchanged in E as [Hdb _].
    destruct (Z.ltb_spec (s_quantity s) (it_quantity item)) as [Hlt|Hle].
    + intros [= <-]. exists [], item, rest. rewrite <- Hs. by repeat split.
    + intros Hrest. apply IH in Hrest as (pre & item' & post & -> & Hpre & Hitem).
      rewrite Hdb in *. exists (item :: pre), item', post. repeat split; [|done].
      constructor; [|done]. exists s. by split.
  - pose proof (stockItem_findUnique_value _ _ _ _ E) as Hs.
    intros [= <-]. exists [], item, rest. rewrite <- Hs. by repeat split.
Qed.

(** Without faults the loop is decided by the request and the stock table. *)
Lemma validate_items_no_fault_ok items t acc db c :
  Forall (line_ok db) items ->
  validate_items items t acc (mkWorld db [] c)
  = (inr (inr (foldl num_add t (map oi_totalPrice (map line_of items)),
               acc ++ map line_of items)), mkWorld db [] c).
Proof.
  revert t acc. induction items as [|item rest IH]; intros t acc Hall; simpl.
  - by rewrite app_nil_r.
  - inversion Hall as [|? ? (s & Hs & Hle) Hrest]; subst.
    unfold bind, stockItem_findUnique, get_db, ret; simpl. rewrite Hs.
    destruct (Z.ltb_spec (s_quantity s) (it_quantity item)); [lia|].
    rewrite IH by done. by rewrite <- app_assoc.
Qed.

Lemma validate_items_no_fault_first_bad pre item post t acc db c :
  Forall (line_ok db) pre ->
  validate_items (pre ++ item :: post) t acc (mkWorld db [] c)
  = match stock_items db !! it_stockItemId item with
    | None => (inr (inl (not_found_msg item)), mkWorld db [] c)
    | Some s =>
        if s_quantity s <? it_quantity item
        then (inr (inl (insufficient_msg s)), mkWorld db [] c)
        else validate_items post
               (num_add (foldl num_add t (map oi_totalPrice (map line_of pre)))
                        (oi_totalPrice (line_of item)))
               ((acc ++ map line_of pre) ++ [line_of item]) (mkWorld db [] c)
    end.
Proof.
  revert t acc. induction pre as [|p pre IH]; intros t acc Hall; simpl.
  - unfold bind, stockItem_findUnique, get_db, ret; simpl.
    destruct (stock_items db !! it_stockItemId item) as [s|]; [|done].
    destruct (s_quantity s <? it_quantity item); [done|]. by rewrite app_nil_r.
  - inversion Hall as [|? ? (s & Hs & Hle) Hrest]; subst.
    unfold bind at 1. unfold stockItem_findUnique, bind, get_db, ret; simpl. rewrite Hs.
    destruct (Z.ltb_spec (s_quantity s) (it_quantity p)); [lia|].
    rewrite IH by done. by rewrite <- !app_assoc.
Qed.

Lemma order_create_spec id (o : Order price) w r w' :
  order_create id o w = (r, w') ->
  stock_items (w_db w') = stock_items (w_db w) /\
  match r with
  | inr v => orders (w_db w) !! id = None /\
             Forall (fun oi => in_int32 (oi_quantity oi) = true) (o_orderItems o) /\
             orders (w_db w') = <[id := o]> (orders (w_db w)) /\
             w_committed w' = w_db w' :: w_committed w /\
             v = include_items (w_db w') o
  | inl _ => unchanged w w'
  end.
Proof.
  unfold order_create, bind, get_db, put_db, commit, throw, ret.
  destruct (db_call w) as [[e|[]] w1] eqn:E; apply db_call_unchanged in E as [Hdb Hc].
  - intros [= <- <-]. by rewrite Hdb.
  - destruct (orders (w_db w1) !! id) as [o1|] eqn:Ho;
      [|destruct (forallb _ (o_orderItems o)) eqn:Hfit]; intros [= <- <-]; simpl.
    + by rewrite Hdb.
    + rewrite Hc, Hdb in *. split; [done|]. split; [done|]. split; [|done].
      apply Forall_forall. intros oi Hoi. rewrite forallb_forall in Hfit.
      apply Hfit. by apply list_elem_of_In.
    + by rewrite Hdb.
Qed.

Lemma validate_items_rejects_status items t acc w resp w' :
  validate_items items t acc w = (inr (inl resp), w') -> res_status resp = 400.
Proof.
  intros Hv. apply validate_items_rejects in Hv as (pre & item & post & _ & _ & Hitem).
  destruct (stock_items (w_db w) !! it_stockItemId item); [by destruct Hitem as [_ ->]|by subst].
Qed.

Lemma truthy_Some_ne (s : option string) : truthy s = true -> exists n, s = Some n /\ n <> "".
Proof.
  destruct s as [n|]; simpl; [|done]. intros Hn. exists n. split; [done|].
  intros ->. done.
Qed.

(** Every way [POST /] can end. *)
Lemma post_orders_cases userId newId (body : CreateBody price) w :
  let r := fst (post_orders userId newId body w) in
  let w' := snd (post_orders userId newId body w) in
  stock_items (w_db w') = stock_items (w_db w) /\
  ((res_status r <> 201 /\ unchanged w w') \/
   (exists name contact items,
      body = mkCreateBody (Some name) (Some contact) (Some items) /\
      name <> "" /\ contact <> "" /\ items <> [] /\
      Forall (line_ok (w_db w)) items /\
      orders (w_db w) !! newId = None /\
      orders (w_db w') = <[newId := created userId name contact items]> (orders (w_db w)) /\
      w_committed w' = w_db w' :: w_committed w /\
      r = mkResponse 201 (JsonOrder (include_items (w_db w') (created userId name contact items))))).
Proof.
  unfold post_orders, try_catch_500. destruct body as [n c i].
  destruct (negb (truthy n) || negb (truthy c) || negb (bool_decide (is_Some i))
            || (length (default [] i) =? 0)%nat) eqn:Hbad; simpl.
  { split; [done|]. left. split; [done|apply unchanged_refl]. }
  apply orb_false_elim in Hbad as [Hbad Hlen].
  apply orb_false_elim in Hbad as [Hbad Hi].
  apply orb_false_elim in Hbad as [Hn Hc].
  apply negb_false_iff, truthy_Some_ne in Hn as (name & -> & Hname).
  apply negb_false_iff, truthy_Some_ne in Hc as (contact & -> & Hcontact).
  apply negb_false_iff, bool_decide_eq_true in Hi as [items ->]. simpl in *.
  assert (items <> []) as Hne by (intros ->; done).
  unfold bind.
  destruct (validate_items items num_zero [] w) as [[e|[resp|[total ois]]] w1] eqn:Hv; simpl.
  - apply validate_items_unchanged in Hv as [Hdb Hcm]. rewrite Hdb.
    split; [done|]. left. by repeat split.
  - apply validate_items_rejects_status in Hv as Hst.
    apply validate_items_unchanged in Hv as [Hdb Hcm]. unfold ret; simpl. rewrite Hdb.
    split; [done|]. left. repeat split; try done. lia.
  - apply validate_items_accepts in Hv as Hacc. destruct Hacc as (Hall & -> & ->).
    apply validate_items_unchanged in Hv as [Hdb Hcm]. simpl.
    destruct (order_create _ _ w1) as [[e|v] w2] eqn:Hcr; simpl;
      apply order_create_spec in Hcr as [Hst Hcr].
    + destruct Hcr as [Hdb2 Hcm2]. rewrite Hst, Hdb. split; [done|]. left.
      repeat split; [done|congruence|congruence].
    + destruct Hcr as (Hfresh & _ & Hins & Hcm2 & ->). rewrite Hst, Hdb. split; [done|]. right.
      exists name, contact, items. rewrite Hdb in *. rewrite Hcm in Hcm2.
      by repeat split.
Qed.

(** The lines of a created order fit the column. *)
Lemma post_orders_201_in_range userId newId (body : CreateBody price) w items :
  res_status (fst (post_orders userId newId body w)) = 201 ->
  b_items body = Some items ->
  Forall (fun it => in_int32 (it_quantity it) = true) items.
Proof.
  unfold post_orders, try_catch_500. destruct body as [n c i]. simpl. intros H201 ->.
  destruct (negb (truthy n) || negb (truthy c) || negb (bool_decide (is_Some (Some items)))
            || (length (default [] (Some items)) =? 0)%nat) eqn:Hbad; simpl in *; [done|].
  unfold bind in H201.
  destruct (validate_items items num_zero [] w) as [[e|[resp|[total ois]]] w1] eqn:Hv;
    simpl in H201; [done| |].
  - apply validate_items_rejects_status in Hv. unfold ret in H201. simpl in H201. lia.
  - apply validate_items_accepts in Hv as (_ & -> & _).
    destruct (order_create _ _ w1) as [[e|v] w2] eqn:Hcr; simpl in H201; [done|].
    apply order_create_spec in Hcr as (_ & _ & Hfit & _). simpl in Hfit.
    apply Forall_map in Hfit. done.
Qed.

(** Where a 400 of [POST /] comes from. *)
Lemma post_orders_400 userId newId (body : CreateBody price) w :
  let r := fst (post_orders userId newId body w) in
  res_status r = 400 ->
  r = missing_fields_msg \/
  exists items pre item post,
    b_items body = Some items /\ items = pre ++ item :: post /\
    Forall (line_ok (w_db w)) pre /\
    match stock_items (w_db w) !! it_stockItemId item with
    | None => r = not_found_msg item
    | Some s => s_quantity s < it_quantity item /\ r = insufficient_msg s
    end.
Proof.
  unfold post_orders, try_catch_500. destruct body as [n c i].
  destruct (negb (truthy n) || negb (truthy c) || negb (bool_decide (is_Some i))
            || (length (default [] i) =? 0)%nat) eqn:Hbad; simpl.
  { by left. }
  apply orb_false_elim in Hbad as [Hbad Hlen].
  apply orb_false_elim in Hbad as [_ Hi].
  apply negb_false_iff, bool_decide_eq_true in Hi as [items ->]. simpl in *.
  unfold bind.
  destruct (validate_items items num_zero [] w) as [[e|[resp|[total ois]]] w1] eqn:Hv; simpl.
  - done.
  - intros _. right. apply validate_items_rejects in Hv as (pre & item & post & -> & Hpre & Hitem).
    by exists (pre ++ item :: post), pre, item, post.
  - destruct (order_create _ _ w1) as [[e|v] w2]; simpl; done.
Qed.

End IntakeFacts.

(** C4. Order intake answers 400 "Customer details and items are required"
    when the customer name, the contact or the item list is absent (or
    empty).  Otherwise the lines are looked at in order and the first one
    that does not pass decides: 400 "Stock item not found" when its stock
    item does not exist, 400 "Insufficient stock" when it asks for strictly
    more than is on hand.  "Insufficient stock" is answered only because
    some line asks for strictly more than its stock item holds, and "not
    found" only because some line names no stock item.  When no round trip
    fails and the key is new, a request whose lines all pass is created
    (201) exactly when every quantity is one the INTEGER column holds; with
    a quantity below that range (-3000000000, say) it is answered with 500.
    Whenever the answer is not 201, no order was persisted: the database
    and its history are as they were. *)
Theorem create_order_validation {price} `{!JsNum price}
    (userId newId : string) (body : CreateBody price) (w : World price) :
  let r := fst (post_orders userId newId body w) in
  let w' := snd (post_orders userId newId body w) in
  (truthy (b_customerName body) = false \/ truthy (b_customerContact body) = false \/
   b_items body = None \/ b_items body = Some [] ->
   r = missing_fields_msg)
  /\ (forall pre item post,
       truthy (b_customerName body) = true -> truthy (b_customerContact body) = true ->
       b_items body = Some (pre ++ item :: post) -> w_faults w = [] ->
       Forall (line_ok (w_db w)) pre ->
       (stock_items (w_db w) !! it_stockItemId item = None -> r = not_found_msg item) /\
       (forall s, stock_items (w_db w) !! it_stockItemId item = Some s ->
                  s_quantity s < it_quantity item -> r = insufficient_msg s))
  /\ (forall n, r = res_error 400 ("Insufficient stock for " +:+ n) ->
       exists items item s, b_items body = Some items /\ item ∈ items /\
         stock_items (w_db w) !! it_stockItemId item = Some s /\ s_name s = n /\
         s_quantity s < it_quantity item)
  /\ (forall id, r = res_error 400 ("Stock item not found: " +:+ id) ->
       exists items item, b_items body = Some items /\ item ∈ items /\
         it_stockItemId item = id /\ stock_items (w_db w) !! id = None)
  /\ (forall items,
       truthy (b_customerName body) = true -> truthy (b_customerContact body) = true ->
       b_items body = Some items -> items <> [] -> w_faults w = [] ->
       Forall (line_ok (w_db w)) items -> orders (w_db w) !! newId = None ->
       (Forall (fun it => in_int32 (it_quantity it) = true) items -> res_status r = 201) /\
       (~ Forall (fun it => in_int32 (it_quantity it) = true) items -> r = internal_error))
  /\ (res_status r <> 201 -> unchanged w w').
Proof.
  intros r w'. split; [|split; [|split; [|split; [|split]]]].
  - destruct body as [n c i]; simpl. unfold r, post_orders, try_catch_500.
    intros [Hm|[Hm|[Hm|Hm]]]; rewrite Hm; simpl; by rewrite ?orb_true_r.
  - intros pre item post Hn Hc Hi Hf Hpre.
    destruct body as [n c i]; destruct w as [db fs cm]; simpl in *; subst i fs.
    unfold r, post_orders, try_catch_500. rewrite Hn, Hc; simpl.
    replace (length (pre ++ item :: post) =? 0)%nat with false
      by (symmetry; apply Nat.eqb_neq; rewrite length_app; simpl; lia).
    unfold bind. rewrite validate_items_no_fault_first_bad by done.
    split.
    + by intros ->.
    + intros s -> Hlt. by destruct (Z.ltb_spec (s_quantity s) (it_quantity item)); [|lia].
  - intros n Hr. unfold r in *.
    destruct (post_orders_400 userId newId body w) as [Hm|(items & pre & item & post & Hi & -> & _ & Hitem)];
      [by rewrite Hr|by rewrite Hm in Hr|].
    destruct (stock_items (w_db w) !! it_stockItemId item) as [s|] eqn:Hs.
    + destruct Hitem as [Hlt Hrs]. rewrite Hrs in Hr.
      unfold insufficient_msg, res_error in Hr. simpl in Hr. injection Hr as Hn.
      exists (pre ++ item :: post), item, s. repeat split; try done.
      apply elem_of_app. right. by left.
    + by rewrite Hitem in Hr.
  - intros id Hr. unfold r in *.
    destruct (post_orders_400 userId newId body w) as [Hm|(items & pre & item & post & Hi & -> & _ & Hitem)];
      [by rewrite Hr|by rewrite Hm in Hr|].
    destruct (stock_items (w_db w) !! it_stockItemId item) as [s|] eqn:Hs.
    + destruct Hitem as [_ Hrs]. by rewrite Hrs in Hr.
    + rewrite Hitem in Hr. unfold not_found_msg, res_error in Hr. simpl in Hr.
      injection Hr as Hid. change (it_stockItemId item = id) in Hid. subst id.
      exists (pre ++ item :: post), item. repeat split; try done.
      apply elem_of_app. right. by left.
  - intros items Hn Hc Hi Hne Hf Hall Hfresh.
    destruct body as [n c i]; destruct w as [db fs cm]; simpl in *; subst i fs.
    unfold r, post_orders, try_catch_500. rewrite Hn, Hc; simpl.
    replace (length items =? 0)%nat with false
      by (symmetry; apply Nat.eqb_neq; destruct items; simpl; [done|lia]).
    unfold bind. rewrite validate_items_no_fault_ok by done.
    unfold order_create, bind, get_db, throw; simpl. rewrite Hfresh.
    destruct (forallb _ (map line_of items)) eqn:Hfit; simpl.
    + split; [done|]. intros Hno. destruct Hno. apply Forall_forall. intros it Hit.
      rewrite forallb_forall in Hfit. apply (Hfit (line_of it)).
      apply in_map. by apply list_elem_of_In.
    + split; [|done]. intros Hyes. apply not_true_iff_false in Hfit. destruct Hfit.
      apply forallb_forall. intros oi Hoi. apply in_map_iff in Hoi as (it & <- & Hit).
      apply list_elem_of_In in Hit. rewrite Forall_forall in Hyes. by apply Hyes.
  - intros Hr. destruct (post_orders_cases userId newId body w) as [_ [[_ Hu]|Hok]]; [done|].
    destruct Hok as (? & ? & ? & _ & _ & _ & _ & _ & _ & _ & _ & Hr'). unfold r in Hr.
    by rewrite Hr' in Hr.
Qed.

Lemma create_order_validation_witness :
  let w := start (plywood 3) in
  let res := post_orders "rep1" "o1" (ann [mkItemReq "s1" 4 (Some 100)]) w in
  fst res = res_error 400 "Insufficient stock for Plywood" /\ unchanged w (snd res).
Proof.
  intros w res.
  pose proof (create_order_validation "rep1" "o1" (ann [mkItemReq "s1" 4 (Some 100)]) w)
    as (_ & Hline & _ & _ & _ & Hkeep).
  split.
  - destruct (Hline [] (mkItemReq "s1" 4 (Some 100)) [] eq_refl eq_refl eq_refl eq_refl
                (Forall_nil_2 _)) as [_ Hins].
    apply (Hins (mkStockItem "Plywood" 3 80 (Some 100))); [reflexivity|simpl; lia].
  - apply Hkeep. vm_compute. discriminate.
Defined.

(** A line of -3000000000 passes the loop (it is not more than what is on
    hand), the store refuses it, and the answer is 500 with no order
    stored. *)
Example create_order_out_of_range :
  let w := start (plywood 10) in
  let res := post_orders "rep1" "o1" (ann [mkItemReq "s1" (-3000000000) (Some 100)]) w in
  fst res = internal_error /\ w_db (snd res) = w_db w /\ w_committed (snd res) = w_committed w.
Proof. vm_compute. done. Qed.

(** C7. Order intake writes no stock row: after any create-order request,
    accepted or not, under any schedule of faults, the [stock_items] table
    is the one it was (every quantity, price and name); the only write is
    the insertion of the new order, with its lines, under its fresh key. *)
Theorem create_order_stock_untouched {price} `{!JsNum price}
    (userId newId : string) (body : CreateBody price) (w : World price) :
  let w' := snd (post_orders userId newId body w) in
  stock_items (w_db w') = stock_items (w_db w) /\
  (orders (w_db w') = orders (w_db w) \/
   exists o, orders (w_db w) !! newId = None /\
             orders (w_db w') = <[newId := o]> (orders (w_db w))).
Proof.
  intros w'. destruct (post_orders_cases userId newId body w) as [Hst [[_ [Hdb _]]|Hok]].
  - split; [done|]. left. unfold w'. by rewrite Hdb.
  - split; [done|]. right.
    destruct Hok as (name & contact & items & _ & _ & _ & _ & _ & Hfresh & Hins & _).
    eauto.
Qed.

(** C9, as the code has it.  A created order's lines carry the requested
    quantities unchanged, line by line; so every persisted quantity is at
    least 1 exactly when every requested quantity is.  A persisted quantity
    never exceeds what was on hand of its stock item at intake, and it is
    one the INTEGER column holds: between -2147483648 and 2147483647. *)
Theorem created_lines_keep_requested_quantity {price} `{!JsNum price}
    (userId newId : string) (body : CreateBody price) (w : World price) :
  let r := fst (post_orders userId newId body w) in
  let w' := snd (post_orders userId newId body w) in
  res_status r = 201 ->
  exists items o,
    b_items body = Some items /\ orders (w_db w') !! newId = Some o /\
    map oi_quantity (o_orderItems o) = map it_quantity items /\
    (Forall (fun oi => 1 <= oi_quantity oi) (o_orderItems o) <->
     Forall (fun it => 1 <= it_quantity it) items) /\
    Forall (covered (w_db w)) (o_orderItems o) /\
    Forall (fun oi => -2147483648 <= oi_quantity oi <= 2147483647) (o_orderItems o).
Proof.
  intros r w' H201.
  destruct (post_orders_cases userId newId body w) as [_ [[Hne _]|Hok]]; [done|].
  destruct Hok as (name & contact & items & -> & _ & _ & _ & Hall & _ & Hins & _).
  pose proof (post_orders_201_in_range _ _ _ _ items H201 eq_refl) as Hrange.
  exists items, (created userId name contact items). unfold w'. rewrite Hins, lookup_insert_eq.
  simpl. rewrite !map_map. simpl. split; [done|]. split; [done|]. split; [done|].
  split; [|split].
  - rewrite Forall_map. done.
  - apply Forall_map. eapply Forall_impl; [exact Hall|]. done.
  - apply Forall_map. eapply Forall_impl; [exact Hrange|]. intros it Hin. simpl.
    unfold in_int32 in Hin. apply andb_true_iff in Hin as [Hlo Hhi].
    apply Z.leb_le in Hlo, Hhi. done.
Qed.

Lemma created_lines_keep_requested_quantity_witness :
  exists o, orders (w_db pending_4_of_10) !! "o1" = Some o /\
            map oi_quantity (o_orderItems o) = [4].
Proof.
  destruct (created_lines_keep_requested_quantity "rep1" "o1"
              (ann [mkItemReq "s1" 4 (Some 100)]) (start (plywood 10)) eq_refl)
    as (items & o & Hi & Ho & Hq & _).
  injection Hi as <-. exists o. split; [exact Ho|exact Hq].
Defined.

(** C9 as stated does not hold: a line of quantity 0 passes intake (0 is
    not more than what is on hand) and is persisted with quantity 0. *)
Lemma create_order_quantity_zero_persisted :
  let res := post_orders "rep1" "o1" (ann [mkItemReq "s1" 0 (Some 100)]) (start (plywood 10)) in
  res_status (fst res) = 201 /\
  exists o, orders (w_db (snd res)) !! "o1" = Some o /\
            map oi_quantity (o_orderItems o) = [0] /\
            ~ Forall (fun oi => 1 <= oi_quantity oi) (o_orderItems o).
Proof.
  split; [reflexivity|]. eexists. split; [reflexivity|]. split; [reflexivity|].
  simpl. intros Hall. inversion Hall as [|? ? Hle _]. simpl in Hle. lia.
Qed.

(** ** Rejection *)

Section RejectionFacts.
Context {price : Type} `{!JsNum price}.
Implicit Types (w : World price) (db : DB price) (o : Order price).

Lemma order_update_spec id data w r w' :
  order_update id data w = (r, w') ->
  stock_items (w_db w') = stock_items (w_db w) /\
  match r with
  | inr v => exists o, orders (w_db w) !! id = Some o /\
                       orders (w_db w') = <[id := data o]> (orders (w_db w)) /\
                       w_committed w' = w_db w' :: w_committed w /\
                       v = include_items (w_db w') (data o)
  | inl e => unchanged w w' /\ (orders (w_db w) !! id = None -> e = ConnectionError \/ e = RecordNotFound)
  end.
Proof.
  unfold order_update, bind, commit, ret.
  destruct (tx_order_update id data w) as [[e|v] w1] eqn:E.
  - intros [= <- <-]. pose proof (tx_order_update_spec _ _ _ _ _ E) as (Hc & Hs & Hdb).
    split; [done|]. split; [by split|]. intros Hnone.
    revert E. unfold tx_order_update, bind, get_db, put_db, throw, ret, db_call.
    destruct (w_faults w) as [|[] fs]; simpl; rewrite ?Hnone; intros [= <-]; auto.
  - apply tx_order_update_spec in E as (Hc & Hs & o & Ho & Hins & ->).
    intros [= <- <-]; simpl. split; [done|]. exists o. rewrite Hc. by repeat split.
Qed.

(** Every way [PATCH /:id/reject] can end. *)
Lemma patch_reject_cases id reason w :
  let r := fst (patch_reject id reason w) in
  let w' := snd (patch_reject id reason w) in
  stock_items (w_db w') = stock_items (w_db w) /\
  ((truthy reason = false /\ r = res_error 400 "Rejection reason is required" /\ w' = w) \/
   (truthy reason = true /\ r = internal_error /\ unchanged w w') \/
   (truthy reason = true /\
    exists o, orders (w_db w) !! id = Some o /\
      orders (w_db w') = <[id := set_rejected reason o]> (orders (w_db w)) /\
      w_committed w' = w_db w' :: w_committed w /\
      r = mkResponse 200 (JsonOrder (include_items (w_db w') (set_rejected reason o))))).
Proof.
  unfold patch_reject, try_catch_500.
  destruct (truthy reason) eqn:Ht; simpl.
  - unfold bind, ret.
    destruct (order_update id (set_rejected reason) w) as [[e|v] w1] eqn:E; simpl;
      apply order_update_spec in E as [Hs E].
    + split; [done|]. right. left. by destruct E.
    + split; [done|]. right. right. split; [done|].
      destruct E as (o & Ho & Hins & Hc & ->). by exists o.
  - split; [done|]. by left.
Qed.

(** Rejecting an id that names no order: the update throws and the
    handler's catch answers 500. *)
Lemma patch_reject_missing id reason w :
  orders (w_db w) !! id = None -> truthy reason = true ->
  fst (patch_reject id reason w) = internal_error /\
  unchanged w (snd (patch_reject id reason w)).
Proof.
  intros Hnone Ht.
  destruct (patch_reject_cases id reason w) as [_ [(Hf & _)|[(_ & Hr & Hu)|(_ & o & Ho & _)]]];
    [congruence|done|congruence].
Qed.

Lemma patch_reject_no_fault id reason db c o :
  orders db !! id = Some o -> truthy reason = true ->
  res_status (fst (patch_reject id reason (mkWorld db [] c))) = 200.
Proof.
  intros Ho Ht. unfold patch_reject, try_catch_500. rewrite Ht; simpl.
  unfold bind, order_update, tx_order_update, bind, get_db; simpl. by rewrite Ho.
Qed.

End RejectionFacts.

(** C8. [reject] answers 400 "Rejection reason is required" when the reason
    is absent or empty, and then changes nothing.  When it answers 200 the
    order is stored with status REJECTED and the supplied reason, its other
    columns and lines as before.  In every case the [stock_items] table is
    the one it was.  A reject with a reason, of an order that exists, is
    answered with 200 when no round trip fails. *)
Theorem reject_requires_reason_and_keeps_stock {price} `{!JsNum price}
    (id : string) (reason : option string) (w : World price) :
  let r := fst (patch_reject id reason w) in
  let w' := snd (patch_reject id reason w) in
  (reason = None \/ reason = Some "" ->
   r = res_error 400 "Rejection reason is required" /\ w' = w)
  /\ (res_status r = 200 ->
      exists o, orders (w_db w) !! id = Some o /\
        orders (w_db w') !! id
        = Some (mkOrder (o_customerName o) (o_customerContact o) REJECTED (o_totalAmount o)
                  reason (o_salesRepId o) (o_orderItems o)) /\
        (exists text, reason = Some text /\ text <> "") /\
        forall id', id' <> id -> orders (w_db w') !! id' = orders (w_db w) !! id')
  /\ stock_items (w_db w') = stock_items (w_db w)
  /\ (forall o, orders (w_db w) !! id = Some o -> truthy reason = true -> w_faults w = [] ->
       res_status r = 200).
Proof.
  intros r w'.
  destruct (patch_reject_cases id reason w) as [Hst Hcases]. fold r w' in Hst, Hcases.
  repeat apply conj.
  - intros Hempty. assert (truthy reason = false) as Hf by (by destruct Hempty as [-> | ->]).
    destruct Hcases as [(_ & Hr & Hw)|[(Ht & _)|(Ht & _)]]; [done|congruence|congruence].
  - intros H200. destruct Hcases as [(_ & Hr & _)|[(_ & Hr & _)|(Ht & o & Ho & Hins & _)]].
    + by rewrite Hr in H200.
    + by rewrite Hr in H200.
    + exists o. rewrite Hins, lookup_insert_eq. repeat split; try done.
      * by apply truthy_Some_ne.
      * intros id' Hne. by rewrite lookup_insert_ne.
  - done.
  - intros o Ho Ht Hf. destruct w as [db fs c]; simpl in *; subst fs.
    by eapply patch_reject_no_fault.
Qed.

Lemma reject_requires_reason_and_keeps_stock_witness :
  let res := patch_reject "o1" (Some "customer cancelled") pending_4_of_10 in
  res_status (fst res) = 200 /\
  (exists o, orders (w_db (snd res)) !! "o1" = Some o /\ o_status o = REJECTED /\
             o_rejectionReason o = Some "customer cancelled") /\
  stock_items (w_db (snd res)) = stock_items (w_db pending_4_of_10).
Proof.
  intros res.
  destruct (reject_requires_reason_and_keeps_stock "o1" (Some "customer cancelled")
              pending_4_of_10) as (_ & Hdone & Hstock & Hcan).
  assert (res_status (fst res) = 200) as H200.
  { eapply Hcan; reflexivity. }
  split; [exact H200|]. split; [|exact Hstock].
  destruct (Hdone H200) as (o & _ & Ho & _). eexists. split; [exact Ho|]. split; reflexivity.
Defined.

(** C10. Rejecting an id that names no order, with a reason, is answered
    with the generic 500 "Internal server error", never 404: the handler
    goes straight to the update, the update throws because the row is not
    there (or because the store cannot be reached), and the handler's catch
    turns the exception into the 500.  Nothing is changed. *)
Theorem reject_missing_order_is_500 {price} `{!JsNum price}
    (id : string) (reason : option string) (w : World price) :
  orders (w_db w) !! id = None ->
  truthy reason = true ->
  let r := fst (patch_reject id reason w) in
  let w' := snd (patch_reject id reason w) in
  r = res_error 500 "Internal server error" /\ res_status r <> 404 /\
  unchanged w w' /\
  (exists e w1, order_update id (set_rejected reason) w = (inl e, w1) /\
                (e = RecordNotFound \/ e = ConnectionError) /\
                (w_faults w = [] -> e = RecordNotFound)).
Proof.
  intros Hnone Ht r w'.
  destruct (patch_reject_missing id reason w Hnone Ht) as [Hr Hu]. fold r in Hr.
  split; [exact Hr|]. split; [by rewrite Hr|]. split; [exact Hu|].
  destruct (order_update id (set_rejected reason) w) as [[e|v] w1] eqn:E.
  - exists e, w1. split; [done|].
    pose proof (order_update_spec _ _ _ _ _ E) as (_ & _ & He).
    split; [destruct (He Hnone); auto|].
    intros Hf. revert E.
    unfold order_update, tx_order_update, bind, get_db, throw, db_call.
    rewrite Hf; simpl. rewrite Hnone. by intros [= <- _].
  - apply order_update_spec in E as (_ & o & Ho & _). congruence.
Qed.

Lemma reject_missing_order_is_500_witness :
  fst (patch_reject "no-such-order" (Some "customer cancelled") pending_4_of_10)
  = res_error 500 "Internal server error".
Proof.
  apply (reject_missing_order_is_500 "no-such-order" (Some "customer cancelled")
           pending_4_of_10); reflexivity.
Defined.

(** C3 at work on the code.  Scenario A is run to its end (order APPROVED,
    Plywood at 6); a reject with a reason is then answered with 200, and
    the order is stored REJECTED with that reason, the stock staying
    decremented. *)
Theorem reject_of_approved_order_succeeds :
  let w := snd (patch_approve "o1" pending_4_of_10) in
  let res := patch_reject "o1" (Some "changed my mind") w in
  o_status <$> orders (w_db w) !! "o1" = Some APPROVED /\
  res_status (fst res) = 200 /\
  o_status <$> orders (w_db (snd res)) !! "o1" = Some REJECTED /\
  o_rejectionReason <$> orders (w_db (snd res)) !! "o1" = Some (Some "changed my mind") /\
  s_quantity <$> stock_items (w_db (snd res)) !! "s1" = Some 6.
Proof. repeat split; reflexivity. Qed.

(** C2 at work on the code.  Plywood at 10; one order with two lines of 6
    on it.  Intake accepts it (each line alone is covered), the approval
    re-check passes for the same reason, and the two decrements leave
    Plywood at -2. *)
Theorem duplicate_lines_drive_stock_negative :
  let body := ann [mkItemReq "s1" 6 (Some 100); mkItemReq "s1" 6 (Some 100)] in
  let intake := post_orders "rep1" "o1" body (start (plywood 10)) in
  let approved := patch_approve "o1" (snd intake) in
  s_quantity <$> stock_items (plywood 10) !! "s1" = Some 10 /\
  res_status (fst intake) = 201 /\
  res_status (fst approved) = 200 /\
  s_quantity <$> stock_items (w_db (snd approved)) !! "s1" = Some (-2) /\
  w_db (serve_all [CreateOrder "rep1" "o1" body; ApproveOrder "o1"] (start (plywood 10)))
  = w_db (snd approved).
Proof. repeat split; reflexivity. Qed.

(** ** Sequences of requests *)

Section SequenceFacts.
Context {price : Type} `{!JsNum price}.
Implicit Types (w : World price) (o : Order price).

(** The stock router writes the [stock_items] table only. *)
Lemma stockItem_findUnique_name_unchanged name w r w' :
  stockItem_findUnique_name name w = (r, w') -> unchanged w w'.
Proof.
  unfold stockItem_findUnique_name, bind, get_db, ret.
  destruct (db_call w) as [[e|[]] w1] eqn:E; intros [= <- <-];
    eauto using db_call_unchanged.
Qed.

Lemma stockItem_create_orders id (s : StockItem price) w r w' :
  stockItem_create id s w = (r, w') -> orders (w_db w') = orders (w_db w).
Proof.
  unfold stockItem_create, bind, get_db, put_db, commit, throw, ret.
  destruct (db_call w) as [[e|[]] w1] eqn:E; apply db_call_unchanged in E as [Hdb _].
  - intros [= <- <-]. by rewrite Hdb.
  - destruct (stock_items (w_db w1) !! id);
      [|destruct (list_find _ _); [|destruct (in_int32 (s_quantity s))]];
      intros [= <- <-]; simpl; by rewrite Hdb.
Qed.

Lemma stockItem_update_orders id data w r w' :
  stockItem_update id data w = (r, w') -> orders (w_db w') = orders (w_db w).
Proof.
  unfold stockItem_update, bind, get_db, put_db, commit, throw, ret.
  destruct (db_call w) as [[e|[]] w1] eqn:E; apply db_call_unchanged in E as [Hdb _].
  - intros [= <- <-]. by rewrite Hdb.
  - destruct (stock_items (w_db w1) !! id) as [s|];
      [destruct (in_int32 (s_quantity (data s)))|];
      intros [= <- <-]; simpl; by rewrite Hdb.
Qed.

Lemma post_stock_orders newId (body : StockBody price) w :
  orders (w_db (snd (post_stock newId body w))) = orders (w_db w).
Proof.
  unfold post_stock, try_catch_500.
  destruct body as [name [quantity|] [buyingPrice|]]; try done.
  destruct (negb (truthy name)); [done|].
  destruct ((quantity <? 0) || num_negative buyingPrice); [done|].
  unfold bind, ret.
  destruct (stockItem_findUnique_name _ w) as [[e|[found|]] w1] eqn:E; simpl;
    apply stockItem_findUnique_name_unchanged in E as [Hdb _]; try by rewrite Hdb.
  destruct (parseInt quantity) as [q|]; simpl; [|by rewrite Hdb].
  unfold bind.
  destruct (stockItem_create _ _ w1) as [[e|v] w2] eqn:E2; simpl;
    apply stockItem_create_orders in E2; by rewrite E2, Hdb.
Qed.

Lemma patch_stock_orders id (body : StockBody price) w :
  orders (w_db (snd (patch_stock id body w))) = orders (w_db w).
Proof.
  unfold patch_stock, try_catch_500, bind, ret.
  destruct (updateData body) as [data|]; simpl; [|done].
  destruct (stockItem_update _ _ w) as [[e|v] w1] eqn:E; simpl;
    by apply stockItem_update_orders in E.
Qed.

Lemma same_totals_refl o : same_totals o o.
Proof. by split. Qed.

Lemma same_totals_trans o1 o2 o3 : same_totals o1 o2 -> same_totals o2 o3 -> same_totals o1 o3.
Proof. intros [? ?] [? ?]; split; congruence. Qed.

(** No request removes an order or touches its lines or its total. *)
Lemma serve_keeps_order (rq : Request price) w id o :
  orders (w_db w) !! id = Some o ->
  exists o', orders (w_db (snd (serve rq w))) !! id = Some o' /\ same_totals o o'.
Proof.
  intros Ho. destruct rq as [userId newId body|id0|id0 reason|newId body|id0 body]; simpl.
  - destruct (post_orders_cases userId newId body w) as [_ [[_ [Hdb _]]|Hok]].
    + rewrite Hdb. eauto using same_totals_refl.
    + destruct Hok as (name & contact & items & _ & _ & _ & _ & _ & Hfresh & Hins & _).
      rewrite Hins. exists o. split; [|apply same_totals_refl].
      rewrite lookup_insert_ne; [done|]. intros ->. congruence.
  - destruct (patch_approve_cases id0 w) as [[[Hdb _] _]|(o0 & Ho0 & _ & Hdb & _)].
    + rewrite Hdb. eauto using same_totals_refl.
    + rewrite Hdb. simpl. destruct (decide (id0 = id)) as [->|Hne].
      * rewrite lookup_insert_eq. rewrite Ho in Ho0. injection Ho0 as <-.
        eexists. split; [done|]. by split.
      * rewrite lookup_insert_ne by done. eauto using same_totals_refl.
  - destruct (patch_reject_cases id0 reason w)
      as [_ [(_ & _ & ->)|[(_ & _ & [Hdb _])|(_ & o0 & Ho0 & Hins & _)]]].
    + eauto using same_totals_refl.
    + rewrite Hdb. eauto using same_totals_refl.
    + rewrite Hins. destruct (decide (id0 = id)) as [->|Hne].
      * rewrite lookup_insert_eq. rewrite Ho in Ho0. injection Ho0 as <-.
        eexists. split; [done|]. by split.
      * rewrite lookup_insert_ne by done. eauto using same_totals_refl.
  - rewrite post_stock_orders. eauto using same_totals_refl.
  - rewrite patch_stock_orders. eauto using same_totals_refl.
Qed.

Lemma serve_all_keeps_order (rs : list (Request price)) w id o :
  orders (w_db w) !! id = Some o ->
  exists o', orders (w_db (serve_all rs w)) !! id = Some o' /\ same_totals o o'.
Proof.
  revert w o. induction rs as [|rq rs IH]; intros w o Ho; simpl.
  - eauto using same_totals_refl.
  - destruct (serve_keeps_order rq w id o Ho) as (o1 & Ho1 & Hs1).
    destruct (IH _ _ Ho1) as (o2 & Ho2 & Hs2).
    eauto using same_totals_trans.
Qed.

End SequenceFacts.

(** C5. For every created order: each line carries the requested quantity,
    a unit price that is the supplied selling price (0 when none is
    supplied, as for a supplied price that is falsy), and a total price
    that is that unit price times the quantity; the order's total amount is
    the sum of its lines' total prices.  Whatever requests follow (further
    creations, approvals, rejections, new stock items, edits of a stock
    item's quantity and price), the order stays in place with the same
    lines and the same total amount. *)
Theorem order_total_is_sum_and_stays {price} `{!JsNum price}
    (userId newId : string) (body : CreateBody price) (w : World price) :
  let r := fst (post_orders userId newId body w) in
  let w' := snd (post_orders userId newId body w) in
  res_status r = 201 ->
  exists items o,
    b_items body = Some items /\ orders (w_db w') !! newId = Some o /\
    Forall2 (fun it oi =>
               oi_quantity oi = it_quantity it /\
               oi_unitPrice oi = match it_sellingPrice it with
                                 | None => num_zero
                                 | Some p => if num_truthy p then p else num_zero
                                 end /\
               oi_totalPrice oi = num_mul (oi_unitPrice oi) (it_quantity it))
            items (o_orderItems o) /\
    o_totalAmount o = foldl num_add num_zero (map oi_totalPrice (o_orderItems o)) /\
    forall later : list (Request price),
      exists o', orders (w_db (serve_all later w')) !! newId = Some o' /\
                 o_totalAmount o' = o_totalAmount o /\ o_orderItems o' = o_orderItems o.
Proof.
  intros r w' H201.
  destruct (post_orders_cases userId newId body w) as [_ [[Hne _]|Hok]]; [done|].
  destruct Hok as (name & contact & items & -> & _ & _ & _ & _ & _ & Hins & _).
  assert (orders (w_db w') !! newId = Some (created userId name contact items)) as Ho.
  { unfold w'. by rewrite Hins, lookup_insert_eq. }
  exists items, (created userId name contact items).
  split; [done|]. split; [exact Ho|]. split; [|split; [done|]].
  - simpl. clear. induction items as [|it rest IH]; simpl; constructor; [|done].
    split; [reflexivity|]. split; reflexivity.
  - intros later. destruct (serve_all_keeps_order later w' newId _ Ho) as (o' & Ho' & [? ?]).
    by exists o'.
Qed.

Lemma order_total_is_sum_and_stays_witness :
  let later := [ApproveOrder "o1"; UpdateStock "s1" reprice; RejectOrder "o1" (Some "late")] in
  o_totalAmount <$> orders (w_db pending_4_of_10) !! "o1" = Some 400 /\
  exists o', orders (w_db (serve_all later pending_4_of_10)) !! "o1" = Some o' /\
             o_totalAmount o' = 400.
Proof.
  intros later.
  destruct (order_total_is_sum_and_stays "rep1" "o1" (ann [mkItemReq "s1" 4 (Some 100)])
              (start (plywood 10)) eq_refl) as (items & o & _ & Ho & _ & Hsum & Hstay).
  change (orders (w_db pending_4_of_10) !! "o1" = Some o) in Ho.
  assert (o_totalAmount o = 400) as H400.
  { vm_compute in Ho. injection Ho as <-. reflexivity. }
  split; [by rewrite Ho; simpl; rewrite H400|].
  destruct (Hstay later) as (o' & Ho' & Ht & _). exists o'. split; [exact Ho'|congruence].
Defined.

(** X1. Approval of an order that is unknown or not PENDING is refused and
    changes nothing: 404 "Order not found", 400 "Order is not pending" (500
    when the lookup itself fails). *)
Theorem approve_refuses_non_pending {price} `{!JsNum price} (id : string) (w : World price) :
  let r := fst (patch_approve id w) in
  let w' := snd (patch_approve id w) in
  (orders (w_db w) !! id = None ->
   unchanged w w' /\ (r = res_error 404 "Order not found" \/ r = internal_error) /\
   (w_faults w = [] -> r = res_error 404 "Order not found"))
  /\ (forall o, orders (w_db w) !! id = Some o -> o_status o <> PENDING ->
       unchanged w w' /\ (r = res_error 400 "Order is not pending" \/ r = internal_error) /\
       (w_faults w = [] -> r = res_error 400 "Order is not pending")).
Proof.
  intros r w'. unfold r, w', patch_approve, try_catch_500, bind, ret. split.
  - intros Hnone.
    destruct (order_findUnique id w) as [[e|v] w1] eqn:E; simpl.
    + split; [by eapply order_findUnique_unchanged|]. split; [by right|].
      intros Hf. revert E. unfold order_findUnique, bind, db_call. by rewrite Hf.
    + pose proof (order_findUnique_value _ _ _ _ E) as ->. rewrite Hnone. simpl.
      split; [by eapply order_findUnique_unchanged|]. split; [by left|done].
  - intros o Ho Hst.
    destruct (order_findUnique id w) as [[e|v] w1] eqn:E; simpl.
    + split; [by eapply order_findUnique_unchanged|]. split; [by right|].
      intros Hf. revert E. unfold order_findUnique, bind, db_call. by rewrite Hf.
    + pose proof (order_findUnique_value _ _ _ _ E) as ->. rewrite Ho. simpl.
      rewrite bool_decide_false by done. simpl.
      split; [by eapply order_findUnique_unchanged|]. split; [by left|done].
Qed.

Lemma approve_refuses_non_pending_witness :
  let w := snd (patch_reject "o1" (Some "customer cancelled") pending_4_of_10) in
  fst (patch_approve "o1" w) = res_error 400 "Order is not pending" /\
  unchanged w (snd (patch_approve "o1" w)).
Proof.
  intros w. destruct (approve_refuses_non_pending "o1" w) as [_ Hterm].
  destruct (Hterm (set_rejected (Some "customer cancelled")
                     (created "rep1" "Ann" "555-0100" [mkItemReq "s1" 4 (Some 100)])))
    as (Hu & _ & Hr); [reflexivity|discriminate|].
  split; [by apply Hr|exact Hu].
Defined.

(** X2. Approval keeps every stock quantity non-negative when the order's
    lines name pairwise different stock items (requests handled one at a
    time). *)
Theorem approve_keeps_stock_nonneg_distinct {price} `{!JsNum price}
    (id : string) (w : World price) :
  stock_nonneg (w_db w) ->
  (forall o, orders (w_db w) !! id = Some o -> NoDup (oi_stockItemId <$> o_orderItems o)) ->
  stock_nonneg (w_db (snd (patch_approve id w))).
Proof.
  intros Hpos Hnd.
  destruct (patch_approve_cases id w) as [[[Hdb _] _]|(o & Ho & _ & Hdb & _ & _ & Hcov)];
    rewrite Hdb; [done|].
  intros sid s'. simpl. rewrite settle_stock_lookup.
  destruct (stock_items (w_db w) !! sid) as [s|] eqn:Hs; simpl; [|done].
  intros [= <-]. simpl.
  pose proof (requested_covered (w_db w) sid s (o_orderItems o) (Hnd o Ho) Hcov Hs (Hpos _ _ Hs)).
  lia.
Qed.

Lemma approve_keeps_stock_nonneg_distinct_witness :
  stock_nonneg (w_db (snd (patch_approve "o1" two_lines_pending))).
Proof.
  apply approve_keeps_stock_nonneg_distinct.
  - intros sid s Hs. change (stock_items (w_db two_lines_pending)) with (stock_items two_rows) in Hs.
    unfold two_rows in Hs. simpl in Hs.
    apply lookup_insert_Some in Hs as [[_ <-]|[_ Hs]]; [simpl; lia|].
    apply lookup_singleton_Some in Hs as [_ <-]. simpl; lia.
  - intros o Ho. vm_compute in Ho. injection Ho as <-. simpl.
    apply NoDup_cons. split; [|apply NoDup_singleton].
    rewrite list_elem_of_singleton. discriminate.
Defined.

(** ** Integers *)

Lemma in_int32_spec n : in_int32 n = true <-> -2147483648 <= n <= 2147483647.
Proof. unfold in_int32. rewrite andb_true_iff, !Z.leb_le. done. Qed.

Lemma to_double_pos_small n : 0 <= n < 2 ^ 53 -> to_double_pos n = Some n.
Proof.
  intros [H0 H53]. unfold to_double_pos.
  destruct (Z.leb_spec (Z.log2 n - 52) 0) as [|He]; [done|].
  assert (0 < n) as Hpos by (destruct (decide (n = 0)) as [->|]; [done|lia]).
  apply (Z.log2_lt_pow2 n 53) in H53; [lia|done].
Qed.

(** Rounding keeps an integer below 2^53 and moves no other below it. *)
Lemma to_double_pos_spec n x :
  0 <= n -> to_double_pos n = Some x ->
  (n < 2 ^ 53 /\ x = n) \/ (2 ^ 53 <= n /\ 2 ^ 53 <= x < 2 ^ 1024).
Proof.
  intros H0. unfold to_double_pos.
  destruct (Z.leb_spec (Z.log2 n - 52) 0) as [He|He].
  - intros [= <-]. left. split; [|done].
    destruct (decide (n = 0)) as [->|Hn]; [done|].
    apply Z.log2_lt_pow2; lia.
  - set (e := Z.log2 n - 52) in *.
    set (m := Z.shiftr n e).
    set (m' := if (_ || _) then m + 1 else m).
    destruct (Z.ltb_spec (Z.shiftl m' e) (2 ^ 1024)) as [Hlt|]; [|done].
    intros [= <-]. right.
    assert (0 < n) as Hpos.
    { destruct (decide (n = 0)) as [Hn|]; [|lia]. subst n. done. }
    destruct (Z.log2_spec n Hpos) as [Hlo _].
    assert (Z.log2 n = 52 + e) as Hlog by (unfold e; lia).
    assert (0 <= e) as He0 by lia.
    assert (2 ^ 52 * 2 ^ e <= n) as Hn.
    { rewrite <- Z.pow_add_r by lia. by rewrite <- Hlog. }
    assert (0 < 2 ^ e) as Hpe by (apply Z.pow_pos_nonneg; lia).
    assert (2 <= 2 ^ e) as Hp2.
    { change 2 with (2 ^ 1) at 1. apply Z.pow_le_mono_r; lia. }
    assert (2 ^ 52 <= m) as Hm.
    { unfold m. rewrite Z.shiftr_div_pow2 by done. apply Z.div_le_lower_bound; lia. }
    assert (m <= m') as Hm' by (unfold m'; destruct (_ || _); lia).
    rewrite Z.shiftl_mul_pow2 in * by done.
    split; [|split; [|done]].
    + assert (2 ^ 53 = 2 ^ 52 * 2) as -> by done. nia.
    + assert (2 ^ 53 = 2 ^ 52 * 2) as -> by done. nia.
Qed.

Lemma leading_digit fuel n p d q :
  leading fuel n p = (d, q) -> 0 < n -> n < 10 ^ Z.of_nat fuel -> 1 <= d <= 9.
Proof.
  revert n p. induction fuel as [|fuel IH]; intros n p.
  - simpl. lia.
  - cbn [leading]. destruct (Z.ltb_spec n 10) as [Hlt|Hge].
    + intros [= <- <-]. lia.
    + intros Hl Hpos Hn. apply (IH _ _ Hl).
      * apply Z.div_str_pos. lia.
      * rewrite Nat2Z.inj_succ, Z.pow_succ_r in Hn by lia.
        apply Z.div_lt_upper_bound; lia.
Qed.

Lemma first_digit_range x : 0 < x < 2 ^ 1024 -> 1 <= first_digit x <= 9.
Proof.
  intros [Hpos Hlt]. unfold first_digit.
  destruct (leading 400 x 1) as [d p] eqn:Hl.
  assert (1 <= d <= 9) as Hd.
  { apply (leading_digit _ _ _ _ _ Hl Hpos).
    eapply Z.lt_trans; [exact Hlt|]. by vm_compute. }
  case_bool_decide; [|done]. destruct (Z.eqb_spec d 9); lia.
Qed.

(** What [parseInt] makes of an integer, when the result is one the
    INTEGER column holds: the integer itself, or, for one that is printed in
    exponent notation, a single digit with its sign. *)
Lemma parseInt_spec n q :
  parseInt n = Some q -> in_int32 q = true ->
  q = n \/ (2 ^ 53 <= Z.abs n /\ 1 <= Z.abs q <= 9 /\ Z.sgn q = Z.sgn n).
Proof.
  intros Hp Hq. apply in_int32_spec in Hq.
  assert (forall m x, 0 <= m -> to_double_pos m = Some x ->
            forall q', (if Z.abs x <? 10 ^ 21 then Some x
                        else Some (Z.sgn x * first_digit (Z.abs x))) = Some q' ->
            Z.abs q' <= 2147483648 ->
            q' = m \/ (2 ^ 53 <= m /\ 1 <= q' <= 9)) as Hpos.
  { intros m x Hm Hx q' Hq' Hr.
    destruct (to_double_pos_spec m x Hm Hx) as [[Hsmall ->]|[Hbig [Hx53 Hx1024]]].
    - destruct (Z.ltb_spec (Z.abs m) (10 ^ 21)) as [_|Hge].
      + left. by injection Hq' as <-.
      + exfalso. assert (2 ^ 53 < 10 ^ 21) by done. lia.
    - right. split; [done|].
      assert (0 < x) as Hxpos by (assert (0 < 2 ^ 53) by done; lia).
      rewrite Z.abs_eq in Hq' by lia.
      destruct (Z.ltb_spec x (10 ^ 21)) as [Hlt|Hge].
      + injection Hq' as <-. assert (2147483648 < 2 ^ 53) by done. lia.
      + injection Hq' as <-. rewrite Z.sgn_pos by done.
        pose proof (first_digit_range x (conj Hxpos Hx1024)). lia. }
  revert Hp. unfold parseInt, to_double.
  destruct (Z.ltb_spec n 0) as [Hneg|Hnn].
  - destruct (to_double_pos (- n)) as [y|] eqn:Hy; simpl; [|done].
    rewrite Z.abs_opp. intros Hq'.
    assert (0 <= y) as Hy0.
    { destruct (to_double_pos_spec (- n) y ltac:(lia) Hy) as [[_ ->]|[_ [H53 _]]]; [lia|].
      assert (0 < 2 ^ 53) by done. lia. }
    destruct (Hpos (- n) y ltac:(lia) Hy (- q)) as [Heq|(Hbig & Hd)].
    + destruct (Z.abs y <? 10 ^ 21).
      * injection Hq' as <-. f_equal. lia.
      * injection Hq' as <-. f_equal. rewrite Z.sgn_opp. ring.
    + lia.
    + left. lia.
    + right. split; [lia|]. split; [lia|]. rewrite !Z.sgn_neg by lia. done.
  - intros Hq'. destruct (to_double_pos n) as [x|] eqn:Hx; [|done].
    destruct (Hpos n x Hnn Hx q Hq' ltac:(lia)) as [Heq|(Hbig & Hd)]; [by left|].
    right. split; [lia|]. split; [lia|]. rewrite !Z.sgn_pos; [done| |lia].
    assert (0 < 2 ^ 53) by done. lia.
Qed.

Lemma parseInt_small n : - 2 ^ 53 < n < 2 ^ 53 -> parseInt n = Some n.
Proof.
  intros Hn. unfold parseInt, to_double.
  assert (2 ^ 53 < 10 ^ 21) as Hc by done.
  destruct (Z.ltb_spec n 0) as [Hneg|Hnn].
  - rewrite to_double_pos_small by lia. simpl.
    destruct (Z.ltb_spec (Z.abs (- - n)) (10 ^ 21)); [f_equal; lia|lia].
  - rewrite to_double_pos_small by lia.
    destruct (Z.ltb_spec (Z.abs n) (10 ^ 21)); [done|lia].
Qed.

Lemma parseInt_int32 n : in_int32 n = true -> parseInt n = Some n.
Proof.
  intros Hn. apply in_int32_spec in Hn. apply parseInt_small.
  assert (2147483648 < 2 ^ 53) by done. lia.
Qed.

(** ** The stock router *)

Section StockFacts.
Context {price : Type} `{!JsNum price}.
Implicit Types (w : World price) (db : DB price) (st : gmap string (StockItem price)).

Lemma find_name_None st name :
  list_find (fun row : string * StockItem price => s_name (snd row) = name) (map_to_list st) = None <->
  forall i s, st !! i = Some s -> s_name s <> name.
Proof.
  rewrite list_find_None, Forall_forall. split.
  - intros Hall i s Hs. apply (Hall (i, s)). by apply elem_of_map_to_list.
  - intros Hall [i s] Hin. apply elem_of_map_to_list in Hin. by apply (Hall i s).
Qed.

Lemma find_name_Some st name hit :
  list_find (fun row : string * StockItem price => s_name (snd row) = name) (map_to_list st) = Some hit ->
  st !! fst (snd hit) = Some (snd (snd hit)) /\ s_name (snd (snd hit)) = name.
Proof.
  destruct hit as [n [i s]]. intros Hf. apply list_find_Some in Hf as (Hl & Hn & _).
  split; [|done]. apply elem_of_map_to_list. by eapply list_elem_of_lookup_2.
Qed.

Lemma stockItem_findUnique_name_value name w v w' :
  stockItem_findUnique_name name w = (inr v, w') ->
  match v with
  | Some s => exists i, stock_items (w_db w) !! i = Some s /\ s_name s = name
  | None => forall i s, stock_items (w_db w) !! i = Some s -> s_name s <> name
  end.
Proof.
  unfold stockItem_findUnique_name, bind, get_db, ret.
  destruct (db_call w) as [[e|[]] w1] eqn:E; intros [= <- <-].
  apply db_call_unchanged in E as [-> _].
  destruct (list_find _ _) as [hit|] eqn:Hf; simpl.
  - apply find_name_Some in Hf as [? ?]. eauto.
  - by apply find_name_None.
Qed.

Lemma stockItem_create_spec id (s : StockItem price) w r w' :
  stockItem_create id s w = (r, w') ->
  orders (w_db w') = orders (w_db w) /\
  match r with
  | inr v => v = s /\ stock_items (w_db w) !! id = None /\
             (forall i t, stock_items (w_db w) !! i = Some t -> s_name t <> s_name s) /\
             in_int32 (s_quantity s) = true /\
             stock_items (w_db w') = <[id := s]> (stock_items (w_db w)) /\
             w_committed w' = w_db w' :: w_committed w
  | inl _ => unchanged w w'
  end.
Proof.
  unfold stockItem_create, bind, get_db, put_db, commit, throw, ret.
  destruct (db_call w) as [[e|[]] w1] eqn:E; apply db_call_unchanged in E as [Hdb Hc].
  - intros [= <- <-]. by rewrite Hdb.
  - destruct (stock_items (w_db w1) !! id) eqn:Hid;
      [|destruct (list_find _ _) eqn:Hf; [|destruct (in_int32 (s_quantity s)) eqn:Hfit]];
      intros [= <- <-]; simpl; rewrite ?Hdb; try done.
    rewrite Hdb in *. pose proof (proj1 (find_name_None _ _) Hf) as Hun. by rewrite Hc.
Qed.

Lemma stockItem_update_spec id data w r w' :
  stockItem_update id data w = (r, w') ->
  orders (w_db w') = orders (w_db w) /\
  match r with
  | inr v => exists s, stock_items (w_db w) !! id = Some s /\ v = data s /\
                       in_int32 (s_quantity (data s)) = true /\
                       stock_items (w_db w') = <[id := data s]> (stock_items (w_db w)) /\
                       w_committed w' = w_db w' :: w_committed w
  | inl e => unchanged w w' /\
             (stock_items (w_db w) !! id = None -> e = ConnectionError \/ e = RecordNotFound)
  end.
Proof.
  unfold stockItem_update, bind, get_db, put_db, commit, throw, ret, db_call.
  destruct (w_faults w) as [|[] fs]; simpl;
    try (destruct (stock_items (w_db w) !! id) as [s|] eqn:Hs;
         [destruct (in_int32 (s_quantity (data s))) eqn:Hfit|]);
    intros [= <- <-]; simpl; eauto 10 using unchanged_refl.
  all: split; [done|]; split; [by split|]; try done; auto.
Qed.

(** Every way [POST /] of the stock router can end. *)
Lemma post_stock_cases newId (body : StockBody price) w :
  let r := fst (post_stock newId body w) in
  let w' := snd (post_stock newId body w) in
  (res_status r <> 201 /\ unchanged w w') \/
  (exists name quantity buyingPrice stored,
     body = mkStockBody (Some name) (Some quantity) (Some buyingPrice) /\
     name <> "" /\ 0 <= quantity /\ num_negative buyingPrice = false /\
     parseInt quantity = Some stored /\ in_int32 stored = true /\
     stock_items (w_db w) !! newId = None /\ name_unused (w_db w) name /\
     stock_items (w_db w')
     = <[newId := mkStockItem name stored (num_parseFloat buyingPrice) None]>
         (stock_items (w_db w)) /\
     w_committed w' = w_db w' :: w_committed w /\
     r = mkResponse 201
           (JsonStock (mkStockItem name stored (num_parseFloat buyingPrice) None))).
Proof.
  unfold post_stock, try_catch_500.
  destruct body as [name [quantity|] [buyingPrice|]]; simpl;
    try (left; split; [done|apply unchanged_refl]).
  destruct (truthy name) eqn:Hn; simpl; [|left; split; [done|apply unchanged_refl]].
  apply truthy_Some_ne in Hn as (n & -> & Hne). simpl.
  destruct ((quantity <? 0) || num_negative buyingPrice) eqn:Hneg; simpl;
    [left; split; [done|apply unchanged_refl]|].
  apply orb_false_elim in Hneg as [Hq Hp]. apply Z.ltb_ge in Hq.
  unfold bind, ret.
  destruct (stockItem_findUnique_name n w) as [[e|[found|]] w1] eqn:E; simpl;
    pose proof (stockItem_findUnique_name_unchanged _ _ _ _ E) as Hu1;
    try (left; by split).
  destruct (parseInt quantity) as [stored|] eqn:Hparse; simpl; [|left; by split].
  unfold bind.
  destruct (stockItem_create _ _ w1) as [[e|v] w2] eqn:E2; simpl;
    apply stockItem_create_spec in E2 as [Ho E2].
  - left. split; [done|]. by eapply unchanged_trans.
  - destruct E2 as (-> & Hid & Hun & Hfit & Hins & Hc). destruct Hu1 as [Hdb1 Hc1].
    rewrite Hdb1 in *. right. exists n, quantity, buyingPrice, stored.
    rewrite Hc, Hc1. by repeat split.
Qed.

(** Every way [PATCH /:id] of the stock router can end. *)
Lemma patch_stock_cases id (body : StockBody price) w :
  let r := fst (patch_stock id body w) in
  let w' := snd (patch_stock id body w) in
  (r = internal_error /\ unchanged w w') \/
  (exists data s, updateData body = Some data /\ stock_items (w_db w) !! id = Some s /\
     in_int32 (s_quantity (data s)) = true /\
     stock_items (w_db w') = <[id := data s]> (stock_items (w_db w)) /\
     w_committed w' = w_db w' :: w_committed w /\
     r = mkResponse 200 (JsonStock (data s))).
Proof.
  unfold patch_stock, try_catch_500, bind, ret.
  destruct (updateData body) as [data|] eqn:Hdata; simpl;
    [|left; split; [done|apply unchanged_refl]].
  destruct (stockItem_update _ _ w) as [[e|v] w1] eqn:E; simpl;
    apply stockItem_update_spec in E as [Ho E].
  - left. by destruct E.
  - right. destruct E as (s & Hs & -> & Hfit & Hins & Hc). by exists data, s.
Qed.

Lemma same_label_refl (s : StockItem price) : same_label s s.
Proof. by split. Qed.

Lemma same_label_trans (s1 s2 s3 : StockItem price) :
  same_label s1 s2 -> same_label s2 s3 -> same_label s1 s3.
Proof. intros [? ?] [? ?]; split; congruence. Qed.

(** A change of the table row by row, each row keeping its label. *)
Lemma evolves_pointwise db db' (f : string -> StockItem price -> StockItem price) :
  (forall i, stock_items db' !! i = f i <$> stock_items db !! i) ->
  (forall i s, same_label s (f i s)) ->
  stock_evolves db db' /\ (names_unique db -> names_unique db').
Proof.
  intros Hlk Hlab. split; [split|].
  - intros id s Hs. exists (f id s). by rewrite Hlk, Hs.
  - intros id s'. rewrite Hlk. intros Hs' Hn. by rewrite Hn in Hs'.
  - intros Hun i j s' t'. rewrite !Hlk.
    destruct (stock_items db !! i) as [s|] eqn:Hs; [|done].
    destruct (stock_items db !! j) as [t|] eqn:Ht; [|done].
    simpl. intros [= <-] [= <-] Hname. apply (Hun i j s t); [done|done|].
    destruct (Hlab i s) as [Hi _], (Hlab j t) as [Hj _]. congruence.
Qed.

(** One new row, under a free key, with an unused name and no selling price. *)
Lemma evolves_insert_fresh db db' id (s : StockItem price) :
  stock_items db' = <[id := s]> (stock_items db) ->
  stock_items db !! id = None -> name_unused db (s_name s) -> s_sellingPrice s = None ->
  stock_evolves db db' /\ (names_unique db -> names_unique db').
Proof.
  intros Hins Hfree Hname Hsp. unfold name_unused in Hname. split; [split|].
  - intros i t Ht. exists t. split; [|apply same_label_refl].
    rewrite Hins, lookup_insert_ne; [done|]. intros ->. congruence.
  - intros i t. rewrite Hins. destruct (decide (id = i)) as [->|Hne].
    + rewrite lookup_insert_eq. by intros [= <-].
    + rewrite lookup_insert_ne by done. congruence.
  - intros Hun i j t u. rewrite Hins.
    destruct (decide (id = i)) as [Ei|Hi], (decide (id = j)) as [Ej|Hj]; subst;
      rewrite ?lookup_insert_eq, ?lookup_insert_ne by done; try done.
    + intros [= <-] Hu Heq. by destruct (Hname _ u Hu).
    + intros Ht [= <-] Heq. by destruct (Hname _ t Ht).
    + apply Hun.
Qed.

Lemma decrement_same_label n (s : StockItem price) : same_label s (decrement n s).
Proof. by split. Qed.

Lemma updateData_same_label (body : StockBody price) data (s : StockItem price) :
  updateData body = Some data -> same_label s (data s).
Proof.
  unfold updateData. destruct (parseInt <$> sb_quantity body) as [[q|]|]; [|done|];
    intros [= <-]; by split.
Qed.

(** What one request, of any kind, does to the stock table. *)
Lemma serve_stock_step (rq : Request price) w :
  stock_evolves (w_db w) (w_db (snd (serve rq w))) /\
  (names_unique (w_db w) -> names_unique (w_db (snd (serve rq w)))).
Proof.
  assert (forall db', stock_items db' = stock_items (w_db w) ->
            stock_evolves (w_db w) db' /\ (names_unique (w_db w) -> names_unique db')) as Hsame.
  { intros db' Heq. apply (evolves_pointwise _ _ (fun _ s => s)).
    - intros i. rewrite Heq. by destruct (_ !! i).
    - intros i s. apply same_label_refl. }
  destruct rq as [userId newId body|id0|id0 reason|newId body|id0 body]; simpl.
  - apply Hsame. by destruct (post_orders_cases userId newId body w) as [? _].
  - destruct (patch_approve_cases id0 w) as [[[Hdb _] _]|(o & _ & _ & Hdb & _)].
    + apply Hsame. by rewrite Hdb.
    + apply (evolves_pointwise _ _ (fun i => decrement (requested i (o_orderItems o)))).
      * intros i. rewrite Hdb. apply settle_stock_lookup.
      * intros i s. apply decrement_same_label.
  - apply Hsame. by destruct (patch_reject_cases id0 reason w) as [? _].
  - destruct (post_stock_cases newId body w)
      as [[_ [Hdb _]]|(name & q & p & stored & _ & _ & _ & _ & _ & _ & Hfree & Hun & Hins & _)].
    + apply Hsame. by rewrite Hdb.
    + by eapply evolves_insert_fresh.
  - destruct (patch_stock_cases id0 body w)
      as [[_ [Hdb _]]|(data & s & Hdata & Hs & _ & Hins & _)].
    + apply Hsame. by rewrite Hdb.
    + apply (evolves_pointwise _ _
               (fun i t => if decide (id0 = i) then data t else t)).
      * intros i. rewrite Hins. destruct (decide (id0 = i)) as [->|Hne].
        -- by rewrite lookup_insert_eq, Hs.
        -- rewrite lookup_insert_ne by done. by destruct (_ !! i).
      * intros i t. case_decide; [by eapply updateData_same_label|apply same_label_refl].
Qed.

End StockFacts.

(** X3. Adding a stock item is refused with 400 when the name, the
    quantity or the buying price is missing, when the quantity or the price
    is negative, and when a row already carries the name; a refusal, like
    any answer other than 201, leaves the database as it was. *)
Theorem post_stock_validation {price} `{!JsNum price}
    (newId : string) (body : StockBody price) (w : World price) :
  let r := fst (post_stock newId body w) in
  let w' := snd (post_stock newId body w) in
  (truthy (sb_name body) = false \/ sb_quantity body = None \/ sb_buyingPrice body = None ->
   r = res_error 400 "Name, quantity, and buying price are required" /\ w' = w)
  /\ (forall quantity buyingPrice,
       truthy (sb_name body) = true ->
       sb_quantity body = Some quantity -> sb_buyingPrice body = Some buyingPrice ->
       quantity < 0 \/ num_negative buyingPrice = true ->
       r = res_error 400 "Values must be non-negative" /\ w' = w)
  /\ (forall name quantity buyingPrice i s,
       body = mkStockBody (Some name) (Some quantity) (Some buyingPrice) ->
       name <> "" -> 0 <= quantity -> num_negative buyingPrice = false ->
       w_faults w = [] ->
       stock_items (w_db w) !! i = Some s -> s_name s = name ->
       r = res_error 400 "Item with this name already exists" /\ w' = w)
  /\ (res_status r <> 201 -> unchanged w w').
Proof.
  intros r w'. repeat apply conj.
  - unfold r, w', post_stock, try_catch_500.
    destruct body as [name [quantity|] [buyingPrice|]]; simpl;
      intros [Hm|[Hm|Hm]]; try done; by rewrite Hm.
  - intros quantity buyingPrice Hn Hq Hp Hneg.
    unfold r, w', post_stock, try_catch_500.
    destruct body as [name q p]; simpl in *; subst q p. rewrite Hn; simpl.
    replace ((quantity <? 0) || num_negative buyingPrice) with true; [done|].
    symmetry. apply orb_true_iff. destruct Hneg as [Hlt|Hneg]; [left|by right].
    by apply Z.ltb_lt.
  - intros name quantity buyingPrice i s -> Hne Hq Hp Hf Hs Hname.
    destruct w as [db fs c]; simpl in *; subst fs.
    unfold r, w', post_stock, try_catch_500; simpl.
    replace (negb (String.eqb name "")) with true
      by (symmetry; apply negb_true_iff, String.eqb_neq; done).
    replace ((quantity <? 0) || num_negative buyingPrice) with false
      by (symmetry; apply orb_false_iff; split; [by apply Z.ltb_ge|done]).
    unfold bind, stockItem_findUnique_name, get_db, ret; simpl.
    destruct (list_find _ _) as [hit|] eqn:Hfind; [done|].
    pose proof (proj1 (find_name_None _ _) Hfind) as Hnone. by destruct (Hnone i s Hs).
  - intros Hr. destruct (post_stock_cases newId body w) as [[_ Hu]|Hok]; [done|].
    destruct Hok as (? & ? & ? & ? & _ & _ & _ & _ & _ & _ & _ & _ & _ & _ & Hr').
    unfold r in Hr.
    by rewrite Hr' in Hr.
Qed.

Lemma post_stock_validation_witness :
  let res := post_stock "s9" plywood_again (start (plywood 10)) in
  fst res = res_error 400 "Item with this name already exists" /\ snd res = start (plywood 10).
Proof.
  apply (post_stock_validation "s9" plywood_again (start (plywood 10)))
    with (i := "s1") (s := mkStockItem "Plywood" 10 80 (Some 100)) (name := "Plywood")
         (quantity := 5) (buyingPrice := 80);
    try reflexivity; [discriminate|lia].
Defined.

(** X4. A stock item that is added (201) is a new row under a key that was
    free, with a name no row had, the supplied buying price and no selling
    price.  Its quantity is what [parseInt] makes of the supplied quantity,
    a value the INTEGER column holds and that is not negative: the supplied
    quantity itself, or, for a quantity of 2^53 and more that is printed in
    exponent notation (1e21, say), a single digit from 1 to 9.  Every other
    row and every order is as before.  Whatever the answer, adding a stock
    item keeps quantities non-negative and names unique.  A well-formed
    body with a fresh key and an unused name is answered with 201 when no
    round trip fails and the quantity is one the column holds; when what
    [parseInt] makes of it is out of the column's range (as for
    2147483648), or is NaN, the answer is 500. *)
Theorem post_stock_adds_row {price} `{!JsNum price}
    (newId : string) (body : StockBody price) (w : World price) :
  let r := fst (post_stock newId body w) in
  let w' := snd (post_stock newId body w) in
  (res_status r = 201 ->
   exists name quantity buyingPrice stored,
     body = mkStockBody (Some name) (Some quantity) (Some buyingPrice) /\
     name <> "" /\ 0 <= quantity /\
     parseInt quantity = Some stored /\ in_int32 stored = true /\ 0 <= stored /\
     (stored = quantity \/ (2 ^ 53 <= quantity /\ 1 <= stored <= 9)) /\
     stock_items (w_db w) !! newId = None /\ name_unused (w_db w) name /\
     stock_items (w_db w') !! newId
     = Some (mkStockItem name stored (num_parseFloat buyingPrice) None) /\
     (forall i, i <> newId -> stock_items (w_db w') !! i = stock_items (w_db w) !! i) /\
     orders (w_db w') = orders (w_db w))
  /\ (stock_nonneg (w_db w) -> stock_nonneg (w_db w'))
  /\ (names_unique (w_db w) -> names_unique (w_db w'))
  /\ (forall name quantity buyingPrice,
       body = mkStockBody (Some name) (Some quantity) (Some buyingPrice) ->
       name <> "" -> 0 <= quantity -> num_negative buyingPrice = false ->
       w_faults w = [] ->
       stock_items (w_db w) !! newId = None -> name_unused (w_db w) name ->
       (in_int32 quantity = true -> res_status r = 201) /\
       (forall stored, parseInt quantity = Some stored ->
          (in_int32 stored = true -> res_status r = 201) /\
          (in_int32 stored = false -> r = internal_error)) /\
       (parseInt quantity = None -> r = internal_error)).
Proof.
  intros r w'.
  assert (forall q stored, 0 <= q -> parseInt q = Some stored -> in_int32 stored = true ->
            0 <= stored /\ (stored = q \/ (2 ^ 53 <= q /\ 1 <= stored <= 9))) as Hstored.
  { intros q stored Hq Hp Hfit.
    destruct (parseInt_spec q stored Hp Hfit) as [->|(Hbig & Hd & Hsgn)]; [by split; [|left]|].
    assert (0 < 2 ^ 53) by done.
    rewrite (Z.abs_eq q) in Hbig by done. rewrite (Z.sgn_pos q) in Hsgn by lia.
    assert (0 < stored) by (by apply Z.sgn_pos_iff; rewrite Hsgn).
    split; [lia|]. right. lia. }
  split; [|split; [|split]].
  - intros H201. destruct (post_stock_cases newId body w) as [[Hne _]|Hok]; [done|].
    destruct Hok as (name & q & p & stored & -> & Hn & Hq & _ & Hparse & Hfit & Hfree & Hun
                     & Hins & _).
    destruct (Hstored q stored Hq Hparse Hfit) as [H0 Hform].
    exists name, q, p, stored. unfold w'. rewrite Hins, lookup_insert_eq.
    do 10 (split; [done|]). split.
    + intros i Hi. by rewrite lookup_insert_ne.
    + apply post_stock_orders.
  - intros Hpos. destruct (post_stock_cases newId body w) as [[_ [Hdb _]]|Hok].
    + unfold w'. by rewrite Hdb.
    + destruct Hok as (name & q & p & stored & _ & _ & Hq & _ & Hparse & Hfit & _ & _ & Hins & _).
      destruct (Hstored q stored Hq Hparse Hfit) as [H0 _].
      intros i s. unfold w'. rewrite Hins. destruct (decide (newId = i)) as [Ei|Hi].
      * subst. rewrite lookup_insert_eq. by intros [= <-].
      * rewrite lookup_insert_ne by done. apply Hpos.
  - apply (serve_stock_step (CreateStock newId body) w).
  - intros name q p -> Hn Hq Hp Hf Hfree Hun.
    destruct w as [db fs c]; simpl in *; subst fs.
    pose proof (proj2 (find_name_None (stock_items db) name) Hun) as Hfind.
    assert (forall stored, parseInt q = Some stored ->
              (in_int32 stored = true -> res_status r = 201) /\
              (in_int32 stored = false -> r = internal_error)) as Hsome.
    { intros stored Hparse. unfold r, post_stock, try_catch_500; simpl.
      replace (negb (String.eqb name "")) with true
        by (symmetry; apply negb_true_iff, String.eqb_neq; done).
      replace ((q <? 0) || num_negative p) with false
        by (symmetry; apply orb_false_iff; split; [by apply Z.ltb_ge|done]).
      unfold bind, stockItem_findUnique_name, get_db, ret; simpl.
      rewrite Hfind; simpl. rewrite Hparse.
      unfold stockItem_create, bind, get_db, ret, throw; simpl. rewrite Hfree, Hfind.
      destruct (in_int32 stored); (split; [intros ?|intros ?]); done. }
    split; [|split; [exact Hsome|]].
    + intros Hfit. by apply (Hsome q (parseInt_int32 q Hfit)).
    + intros Hnan. unfold r, post_stock, try_catch_500; simpl.
      replace (negb (String.eqb name "")) with true
        by (symmetry; apply negb_true_iff, String.eqb_neq; done).
      replace ((q <? 0) || num_negative p) with false
        by (symmetry; apply orb_false_iff; split; [by apply Z.ltb_ge|done]).
      unfold bind, stockItem_findUnique_name, get_db, ret; simpl.
      rewrite Hfind; simpl. by rewrite Hnan.
Qed.

Lemma post_stock_adds_row_witness :
  let res := post_stock "s2" nails_body (start (plywood 10)) in
  res_status (fst res) = 201 /\
  stock_items (w_db (snd res)) !! "s2" = Some (mkStockItem "Nails" 50 1 None).
Proof.
  intros res.
  destruct (post_stock_adds_row "s2" nails_body (start (plywood 10))) as (Hrow & _ & _ & Hcan).
  assert (res_status (fst res) = 201) as H201.
  { apply (Hcan "Nails" 50 1); try reflexivity; [discriminate|lia|].
    intros i s Hs.
    change (stock_items (w_db (start (plywood 10))))
      with ({[ "s1" := mkStockItem "Plywood" 10 80 (Some 100) ]} : gmap string (StockItem Z)) in Hs.
    apply lookup_singleton_Some in Hs as [_ <-]. discriminate. }
  split; [exact H201|].
  destruct (Hrow H201) as (name & q & p & stored & Hb & _ & _ & Hparse & _ & _ & _ & _ & _ & Hnew & _).
  injection Hb as <- <- <-. vm_compute in Hparse. injection Hparse as <-. exact Hnew.
Defined.

(** Quantities the column does not hold.  1e21 is printed "1e+21", of which
    [parseInt] reads 1: the item is added with quantity 1.  2147483648 is
    read as it is and refused by the store: 500, nothing added. *)
Example post_stock_large_quantities :
  let exponent := post_stock "s2" (mkStockBody (Some "Nails") (Some (10 ^ 21)) (Some 1))
                    (start (plywood 10)) in
  let too_large := post_stock "s2" (mkStockBody (Some "Nails") (Some 2147483648) (Some 1))
                     (start (plywood 10)) in
  res_status (fst exponent) = 201 /\
  s_quantity <$> stock_items (w_db (snd exponent)) !! "s2" = Some 1 /\
  fst too_large = res_error 500 "Internal server error" /\
  w_db (snd too_large) = plywood 10.
Proof. repeat split; vm_compute; reflexivity. Qed.

(** X5. Editing a stock item that exists (200) replaces its quantity and
    its buying price by what [parseInt] and [parseFloat] make of the
    supplied values, each kept when not supplied, and keeps its name and
    selling price.  The new quantity is one the INTEGER column holds,
    whatever its sign: the supplied quantity itself, or, for a quantity of
    magnitude 2^53 and more that is printed in exponent notation (-1e21,
    say), a single digit with the sign of the supplied quantity.  Every
    other row and every order is as before.  Editing a key that names no
    row is answered with 500 and changes nothing.  Editing an existing row
    is answered with 200 when no round trip fails and the quantity the row
    is left with is one the column holds; when what [parseInt] makes of
    the supplied quantity is out of the column's range (as for 2147483648),
    or is NaN, the answer is 500 and nothing changes. *)
Theorem patch_stock_effect {price} `{!JsNum price}
    (id : string) (body : StockBody price) (w : World price) :
  let r := fst (patch_stock id body w) in
  let w' := snd (patch_stock id body w) in
  (res_status r = 200 ->
   exists s s', stock_items (w_db w) !! id = Some s /\ stock_items (w_db w') !! id = Some s' /\
     s_name s' = s_name s /\ s_sellingPrice s' = s_sellingPrice s /\
     (sb_quantity body = None -> s_quantity s' = s_quantity s) /\
     (forall quantity, sb_quantity body = Some quantity ->
        parseInt quantity = Some (s_quantity s') /\
        (s_quantity s' = quantity \/
         (2 ^ 53 <= Z.abs quantity /\ 1 <= Z.abs (s_quantity s') <= 9 /\
          Z.sgn (s_quantity s') = Z.sgn quantity))) /\
     in_int32 (s_quantity s') = true /\
     s_buyingPrice s' = default (s_buyingPrice s) (num_parseFloat <$> sb_buyingPrice body) /\
     (forall i, i <> id -> stock_items (w_db w') !! i = stock_items (w_db w) !! i))
  /\ orders (w_db w') = orders (w_db w)
  /\ (stock_items (w_db w) !! id = None -> r = internal_error /\ unchanged w w')
  /\ (forall s, stock_items (w_db w) !! id = Some s -> w_faults w = [] ->
        (forall quantity, sb_quantity body = Some quantity -> in_int32 quantity = true ->
                          res_status r = 200) /\
        (sb_quantity body = None -> in_int32 (s_quantity s) = true -> res_status r = 200))
  /\ (forall quantity, sb_quantity body = Some quantity ->
        (parseInt quantity = None -> r = internal_error /\ unchanged w w') /\
        (forall stored, parseInt quantity = Some stored -> in_int32 stored = false ->
                        r = internal_error /\ unchanged w w')).
Proof.
  intros r w'. split; [|split; [|split; [|split]]].
  - intros H200.
    destruct (patch_stock_cases id body w) as [[Hr _]|(data & s & Hdata & Hs & Hfit & Hins & _)].
    + fold r in Hr. by rewrite Hr in H200.
    + exists s, (data s). unfold w'. rewrite Hins, lookup_insert_eq.
      split; [done|]. split; [done|].
      destruct (updateData_same_label body data s Hdata) as [Hname Hsell].
      split; [done|]. split; [done|].
      revert Hdata Hfit. unfold updateData.
      destruct (sb_quantity body) as [quantity|]; cbn [fmap option_fmap option_map].
      * destruct (parseInt quantity) as [q|] eqn:Hparse; [|done].
        intros [= <-] Hfit. cbn [s_quantity s_buyingPrice] in *.
        split; [done|]. split.
        { intros ? [= <-]. split; [done|]. by apply parseInt_spec. }
        split; [done|]. split; [by destruct (sb_buyingPrice body)|].
        intros i Hi. by rewrite lookup_insert_ne.
      * intros [= <-] Hfit. cbn [s_quantity s_buyingPrice] in *.
        split; [done|]. split; [done|].
        split; [done|]. split; [by destruct (sb_buyingPrice body)|].
        intros i Hi. by rewrite lookup_insert_ne.
  - apply patch_stock_orders.
  - intros Hnone. destruct (patch_stock_cases id body w) as [Hfail|(data & s & _ & Hs & _)];
      [done|congruence].
  - intros s Hs Hf. destruct w as [db fs c]; simpl in *; subst fs. split.
    + intros quantity Hq Hfit.
      unfold r, patch_stock, try_catch_500, updateData. rewrite Hq.
      cbn [fmap option_fmap option_map]. rewrite (parseInt_int32 _ Hfit).
      unfold bind, stockItem_update, bind, get_db, db_call. cbn [w_faults w_db fst snd].
      rewrite Hs. cbn [s_quantity]. by rewrite Hfit.
    + intros Hq Hfit.
      unfold r, patch_stock, try_catch_500, updateData. rewrite Hq.
      cbn [fmap option_fmap option_map].
      unfold bind, stockItem_update, bind, get_db, db_call. cbn [w_faults w_db fst snd].
      rewrite Hs. cbn [s_quantity]. by rewrite Hfit.
  - intros quantity Hq.
    destruct (patch_stock_cases id body w) as [Hfail|(data & s & Hdata & Hs & Hfit & _)];
      [done|].
    revert Hdata Hfit. unfold updateData. rewrite Hq. cbn [fmap option_fmap option_map].
    destruct (parseInt quantity) as [q|]; [|done].
    intros [= <-] Hfit. cbn [s_quantity] in Hfit. split; [done|].
    intros stored [= <-] Hno. congruence.
Qed.

Lemma patch_stock_effect_witness :
  let res := patch_stock "s1" overdraw (start (plywood 10)) in
  res_status (fst res) = 200 /\
  exists s', stock_items (w_db (snd res)) !! "s1" = Some s' /\
             s_quantity s' = -7 /\ s_name s' = "Plywood".
Proof.
  intros res.
  destruct (patch_stock_effect "s1" overdraw (start (plywood 10))) as (Hdone & _ & _ & Hcan & _).
  assert (res_status (fst res) = 200) as H200.
  { eapply (proj1 (Hcan _ eq_refl eq_refl)); reflexivity. }
  split; [exact H200|].
  destruct (Hdone H200) as (s & s' & Hs & Hs' & Hn & _ & _ & Hq & _).
  vm_compute in Hs. injection Hs as <-. exists s'. split; [exact Hs'|].
  destruct (Hq (-7) eq_refl) as [Hparse _].
  assert (parseInt (-7) = Some (-7)) as H7 by reflexivity.
  rewrite H7 in Hparse. injection Hparse as Hparse.
  split; [symmetry; exact Hparse|exact Hn].
Defined.

(** An edit with a quantity the column does not hold.  -1e21 is printed
    "-1e+21", of which [parseInt] reads -1: Plywood is left at -1.
    2147483648 is refused by the store: 500, Plywood as it was. *)
Example patch_stock_large_quantities :
  let exponent := patch_stock "s1" (mkStockBody None (Some (- 10 ^ 21)) None)
                    (start (plywood 10)) in
  let too_large := patch_stock "s1" (mkStockBody None (Some 2147483648) None)
                     (start (plywood 10)) in
  res_status (fst exponent) = 200 /\
  s_quantity <$> stock_items (w_db (snd exponent)) !! "s1" = Some (-1) /\
  fst too_large = res_error 500 "Internal server error" /\
  w_db (snd too_large) = plywood 10.
Proof. repeat split; vm_compute; reflexivity. Qed.

Section StockSequences.
Context {price : Type} `{!JsNum price}.

Lemma serve_all_stock (rs : list (Request price)) (w : World price) :
  stock_evolves (w_db w) (w_db (serve_all rs w)) /\
  (names_unique (w_db w) -> names_unique (w_db (serve_all rs w))).
Proof.
  revert w. induction rs as [|rq rs IH]; intros w; simpl.
  - split; [split|done].
    + intros id s Hs. exists s. split; [done|apply same_label_refl].
    + intros id s' Hs' Hn. congruence.
  - destruct (serve_stock_step rq w) as [[Hkeep1 Hnew1] Hun1].
    destruct (IH (snd (serve rq w))) as [[Hkeep2 Hnew2] Hun2].
    split; [split|auto].
    + intros id s Hs. destruct (Hkeep1 id s Hs) as (s1 & Hs1 & Hl1).
      destruct (Hkeep2 id s1 Hs1) as (s2 & Hs2 & Hl2).
      exists s2. split; [done|]. by eapply same_label_trans.
    + intros id s' Hs' Hnone.
      destruct (stock_items (w_db (snd (serve rq w))) !! id) as [s1|] eqn:Hs1.
      * destruct (Hkeep2 id s1 Hs1) as (s2 & Hs2 & [_ Hsp]).
        rewrite Hs' in Hs2. injection Hs2 as <-. rewrite Hsp. by eapply Hnew1.
      * by eapply Hnew2.
Qed.

End StockSequences.

(** X6. Through any sequence of requests to the order and stock routers
    (create, approve and reject an order; add and edit a stock item) no
    stock row is ever removed or renamed and no selling price is ever
    written: a row that exists stays under its key with its name and its
    selling price, a row that appears has no selling price, and if no two
    rows shared a name before, none do after. *)
Theorem stock_rows_keep_name_and_selling_price {price} `{!JsNum price}
    (rs : list (Request price)) (w : World price) :
  let db' := w_db (serve_all rs w) in
  (forall id s, stock_items (w_db w) !! id = Some s ->
     exists s', stock_items db' !! id = Some s' /\
                s_name s' = s_name s /\ s_sellingPrice s' = s_sellingPrice s)
  /\ (forall id s', stock_items db' !! id = Some s' -> stock_items (w_db w) !! id = None ->
        s_sellingPrice s' = None)
  /\ (names_unique (w_db w) -> names_unique db').
Proof.
  intros db'. destruct (serve_all_stock rs w) as [[Hkeep Hnew] Hun].
  repeat apply conj; [|exact Hnew|exact Hun].
  intros id s Hs. destruct (Hkeep id s Hs) as (s' & Hs' & Hn & Hsp). by exists s'.
Qed.

Lemma stock_rows_keep_name_and_selling_price_witness :
  let later := [CreateStock "s2" nails_body; UpdateStock "s1" reprice; ApproveOrder "o1"] in
  exists s', stock_items (w_db (serve_all later pending_4_of_10)) !! "s1" = Some s' /\
             s_name s' = "Plywood" /\ s_sellingPrice s' = Some 100.
Proof.
  intros later.
  destruct (stock_rows_keep_name_and_selling_price later pending_4_of_10) as (Hkeep & _ & _).
  apply (Hkeep "s1" (mkStockItem "Plywood" 10 80 (Some 100))). reflexivity.
Defined.

(** ** CORS and the error handler *)

Lemma strip_prefix_Some p s rest : strip_prefix p s = Some rest <-> s = p +:+ rest.
Proof.
  revert s. induction p as [|a p IH]; intros s; simpl.
  - split; [by intros [= ->]|by intros ->].
  - destruct s as [|b s]; [split; [done|]|].
    + intros Heq. discriminate Heq.
    + destruct (Ascii.eqb_spec a b) as [->|Hne].
      * rewrite IH. split; [by intros ->|]. by intros [= ->].
      * split; [done|]. intros [= -> _]. done.
Qed.

Lemma localhost_dev_origin_spec origin :
  localhost_dev_origin origin = true <->
  origin = "http://localhost:3000" \/ origin = "http://localhost:5173" \/
  origin = "http://localhost:5174".
Proof.
  unfold localhost_dev_origin.
  destruct (strip_prefix _ origin) as [port|] eqn:Hp.
  - apply strip_prefix_Some in Hp. subst origin.
    rewrite !orb_true_iff, !String.eqb_eq. split.
    + intros [[->| ->]| ->]; auto.
    + intros [H|[H|H]]; cbv [String.append] in H; injection H as ->; auto.
  - split; [done|].
    intros [->|[->| ->]]; discriminate Hp.
Qed.

(** X7. The CORS decision.  A request without an Origin header (or with an
    empty one) is always let through.  In production an origin is let
    through exactly when it is in the allowed list; in development also
    when it is http://localhost on port 3000, 5173 or 5174.  Every other
    origin gets the error "Not allowed by CORS".  With the default list the
    decision is the same in both modes. *)
Theorem cors_origin_decision (isProd : bool) (allowedOrigins : list string)
    (origin : option string) :
  (origin = None \/ origin = Some "" -> cors_origin isProd allowedOrigins origin = CorsAllow)
  /\ (forall o, origin = Some o -> o <> "" ->
       (cors_origin true allowedOrigins origin = CorsAllow <-> o ∈ allowedOrigins) /\
       (cors_origin false allowedOrigins origin = CorsAllow <->
        o ∈ allowedOrigins \/ o = "http://localhost:3000" \/ o = "http://localhost:5173" \/
        o = "http://localhost:5174") /\
       (cors_origin isProd allowedOrigins origin <> CorsAllow ->
        cors_origin isProd allowedOrigins origin = CorsError "Not allowed by CORS"))
  /\ cors_origin true defaultOrigins origin = cors_origin false defaultOrigins origin.
Proof.
  repeat apply conj.
  - by intros [-> | ->].
  - intros o -> Hne. unfold cors_origin. simpl.
    replace (negb (String.eqb o "")) with true
      by (symmetry; apply negb_true_iff, String.eqb_neq; done).
    simpl. split; [|split].
    + case_bool_decide; split; done.
    + destruct (localhost_dev_origin o) eqn:Hl.
      * apply localhost_dev_origin_spec in Hl. split; auto.
      * assert (~ (o = "http://localhost:3000" \/ o = "http://localhost:5173" \/
                   o = "http://localhost:5174")) as Hnot.
        { intros H. apply localhost_dev_origin_spec in H. congruence. }
        case_bool_decide; split; try done; auto. intros [?|?]; done.
    + destruct (negb isProd && localhost_dev_origin o); [done|].
      by case_bool_decide.
  - destruct origin as [o|]; [|done]. unfold cors_origin. simpl.
    destruct (negb (String.eqb o "")); [simpl|done].
    destruct (localhost_dev_origin o) eqn:Hl; [|done].
    apply localhost_dev_origin_spec in Hl.
    rewrite bool_decide_true; [done|].
    unfold defaultOrigins. destruct Hl as [->|[->| ->]]; set_solver.
Qed.

Lemma cors_origin_decision_witness :
  cors_origin true defaultOrigins (Some "https://nameftrading.com") = CorsAllow /\
  cors_origin true defaultOrigins (Some "https://example.org")
  = CorsError "Not allowed by CORS".
Proof.
  destruct (cors_origin_decision true defaultOrigins (Some "https://nameftrading.com"))
    as (_ & Hyes & _).
  destruct (cors_origin_decision true defaultOrigins (Some "https://example.org"))
    as (_ & Hno & _).
  split.
  - assert ("https://nameftrading.com" <> "") as Hne by discriminate.
    destruct (Hyes "https://nameftrading.com" eq_refl Hne) as ([_ Hin] & _).
    apply Hin. unfold defaultOrigins.
    do 4 apply list_elem_of_further. apply list_elem_of_here.
  - assert ("https://example.org" <> "") as Hne by discriminate.
    destruct (Hno "https://example.org" eq_refl Hne) as (_ & _ & Hout).
    apply Hout. discriminate.
Defined.

(** X8. The error handler.  An error whose message is "Not allowed by CORS"
    is answered 403 "forbidden", in both modes, and that is what a request
    refused by the CORS decision gets.  Any other error whose status is a
    status code (100 to 999) is answered "server_error" with that status,
    and one without a status (or with 0) with 500; in production the reply
    carries the fixed text "An unexpected error occurred." and no stack,
    never the error's message, in development the error's message and
    stack.  For a status that is no status code (99, say) the handler's
    own reply cannot be sent and Express answers 500 with its page. *)
Theorem error_handler_replies (isProd : bool) (err : JsError) :
  let a := error_handler isProd err in
  let sent status :=
    a = JsonAnswer
          (if isProd
           then mkErrorReply status "server_error" "An unexpected error occurred." None
           else mkErrorReply status "server_error" (err_message err) (Some (err_stack err))) in
  (err_message err = "Not allowed by CORS" ->
   a = JsonAnswer (mkErrorReply 403 "forbidden" "Not allowed by CORS" None))
  /\ (err_message err <> "Not allowed by CORS" ->
      (forall s, err_status err = Some s -> 100 <= s <= 999 -> sent s) /\
      (err_status err = None \/ err_status err = Some 0 -> sent 500) /\
      (forall s, err_status err = Some s -> s <> 0 -> s < 100 \/ 999 < s ->
                 a = ExpressAnswer500))
  /\ (forall reply, a = JsonAnswer reply -> isProd = true ->
        er_stack reply = None /\
        (er_message reply = "An unexpected error occurred." \/
         er_message reply = "Not allowed by CORS"))
  /\ (forall allowedOrigins origin stack,
        match cors_gate isProd allowedOrigins origin stack with
        | None => cors_origin isProd allowedOrigins origin = CorsAllow
        | Some answer =>
            cors_origin isProd allowedOrigins origin <> CorsAllow /\
            answer = JsonAnswer (mkErrorReply 403 "forbidden" "Not allowed by CORS" None)
        end).
Proof.
  intros a sent. unfold sent, a, error_handler. split; [|split; [|split]].
  - intros ->. reflexivity.
  - intros Hne. apply String.eqb_neq in Hne. rewrite Hne. split; [|split].
    + intros s -> [Hlo Hhi]. unfold status_or_500, res_status_json.
      destruct (Z.eqb_spec s 0) as [->|_]; [lia|].
      destruct isProd; simpl;
        by destruct (Z.leb_spec 100 s), (Z.leb_spec s 999); try lia.
    + intros [-> | ->]; by destruct isProd.
    + intros s -> Hs Hout. unfold status_or_500, res_status_json.
      destruct (Z.eqb_spec s 0) as [->|_]; [done|].
      destruct isProd; simpl;
        by destruct (Z.leb_spec 100 s), (Z.leb_spec s 999); try lia.
  - intros reply Ha ->. revert Ha.
    destruct (String.eqb_spec (err_message err) "Not allowed by CORS") as [Heq|_].
    + rewrite Heq. intros [= <-]. split; [done|by right].
    + simpl. unfold res_status_json. simpl.
      destruct (_ && _); [|done]. intros [= <-]. split; [done|by left].
  - intros allowedOrigins origin stack. unfold cors_gate, cors_origin.
    destruct (negb (truthy origin)); [done|].
    destruct (negb isProd && localhost_dev_origin _); [done|].
    case_bool_decide; done.
Qed.

Lemma error_handler_replies_witness :
  cors_gate true defaultOrigins (Some "https://example.org") "at origin (index.js)"
  = Some (JsonAnswer (mkErrorReply 403 "forbidden" "Not allowed by CORS" None)) /\
  error_handler true (mkJsError "not found" (Some 404) "at route")
  = JsonAnswer (mkErrorReply 404 "server_error" "An unexpected error occurred." None) /\
  error_handler true (mkJsError "odd" (Some 99) "at route") = ExpressAnswer500.
Proof.
  split; [reflexivity|].
  destruct (error_handler_replies true (mkJsError "not found" (Some 404) "at route"))
    as (_ & Hvalid & _).
  destruct (error_handler_replies true (mkJsError "odd" (Some 99) "at route"))
    as (_ & Hinvalid & _).
  assert ("not found" <> "Not allowed by CORS") as Hm1 by discriminate.
  assert ("odd" <> "Not allowed by CORS") as Hm2 by discriminate.
  destruct (Hvalid Hm1) as (Hsent & _ & _). destruct (Hinvalid Hm2) as (_ & _ & Hthrown).
  split.
  - apply (Hsent 404 eq_refl). lia.
  - apply (Hthrown 99 eq_refl); lia.
Defined.

(** ** The users router *)

Section UsersFacts.
Context {price : Type} `{!JsNum price}.
Implicit Types (s : Site price) (users : gmap string User).

Lemma site_same_refl s : site_same s s.
Proof. split; [done|apply unchanged_refl]. Qed.

Lemma site_same_trans s1 s2 s3 : site_same s1 s2 -> site_same s2 s3 -> site_same s1 s3.
Proof. intros [? ?] [? ?]. split; [congruence|by eapply unchanged_trans]. Qed.

Lemma in_world_db_call_same s r s' : in_world db_call s = (r, s') -> site_same s s'.
Proof.
  unfold in_world. destruct (db_call (site_world s)) as [r0 w'] eqn:E.
  intros [= <- <-]. split; [done|]. by eapply db_call_unchanged.
Qed.

Lemma find_username_None users username :
  find_username users username = None <->
  forall i u, users !! i = Some u -> u_username u <> username.
Proof.
  unfold find_username. rewrite fmap_None, list_find_None, Forall_forall. split.
  - intros Hall i u Hu. apply (Hall (i, u)). by apply elem_of_map_to_list.
  - intros Hall [i u] Hin. apply elem_of_map_to_list in Hin. by apply (Hall i u).
Qed.

Lemma find_username_Some users username i u :
  find_username users username = Some (i, u) ->
  users !! i = Some u /\ u_username u = username.
Proof.
  unfold find_username. intros Hf. apply fmap_Some in Hf as ([n [j v]] & Hf & [= -> ->]).
  apply list_find_Some in Hf as (Hl & Hn & _).
  split; [|done]. apply elem_of_map_to_list. by eapply list_elem_of_lookup_2.
Qed.

Lemma user_findUnique_username_spec username s r s' :
  user_findUnique_username username s = (r, s') ->
  site_same s s' /\ forall v, r = inr v -> v = find_username (site_users s) username.
Proof.
  unfold user_findUnique_username, sbind, get_users_table, sret.
  destruct (in_world db_call s) as [[e|[]] s1] eqn:E; intros [= <- <-];
    apply in_world_db_call_same in E as Hs; split; try done.
  intros v [= <-]. by destruct Hs as [-> _].
Qed.

Lemma user_create_spec id (u : User) s r s' :
  user_create id u s = (r, s') ->
  unchanged (site_world s) (site_world s') /\
  match r with
  | inr v => v = u /\ site_users s !! id = None /\
             (forall i t, site_users s !! i = Some t -> u_username t <> u_username u) /\
             site_users s' = <[id := u]> (site_users s)
  | inl _ => site_users s' = site_users s
  end.
Proof.
  unfold user_create, sbind, get_users_table, put_users_table, sthrow, sret.
  destruct (in_world db_call s) as [[e|[]] s1] eqn:E;
    apply in_world_db_call_same in E as [Hu Hw].
  - by intros [= <- <-].
  - destruct (site_users s1 !! id) eqn:Hid;
      [|destruct (find_username _ _) eqn:Hf]; intros [= <- <-]; simpl; try done.
    rewrite Hu in *. split; [done|]. repeat split; try done.
    by apply find_username_None.
Qed.

Lemma user_update_spec id data s r s' :
  user_update id data s = (r, s') ->
  unchanged (site_world s) (site_world s') /\
  match r with
  | inr v => exists u, site_users s !! id = Some u /\ v = data u /\
                       site_users s' = <[id := data u]> (site_users s)
  | inl _ => site_users s' = site_users s
  end.
Proof.
  unfold user_update, sbind, get_users_table, put_users_table, sthrow, sret.
  destruct (in_world db_call s) as [[e|[]] s1] eqn:E;
    apply in_world_db_call_same in E as [Hu Hw].
  - by intros [= <- <-].
  - destruct (site_users s1 !! id) as [u|] eqn:Hid; intros [= <- <-]; simpl; [|done].
    rewrite Hu in *. split; [done|]. by exists u.
Qed.

Lemma creatable_role_spec role r :
  creatable_role role = Some r <->
  (role = "MANAGER" /\ r = MANAGER) \/ (role = "STORE_KEEPER" /\ r = STORE_KEEPER) \/
  (role = "SALES_REPRESENTATIVE" /\ r = SALES_REPRESENTATIVE).
Proof.
  unfold creatable_role.
  destruct (String.eqb_spec role "MANAGER") as [->|H1]; [split; [intros [= <-]; auto|]|].
  { intros [[_ ->]|[[? _]|[? _]]]; done. }
  destruct (String.eqb_spec role "STORE_KEEPER") as [->|H2]; [split; [intros [= <-]; auto|]|].
  { intros [[? _]|[[_ ->]|[? _]]]; done. }
  destruct (String.eqb_spec role "SALES_REPRESENTATIVE") as [->|H3];
    [split; [intros [= <-]; auto|]|].
  { intros [[? _]|[[? _]|[_ ->]]]; done. }
  split; [done|]. intros [[? _]|[[? _]|[? _]]]; done.
Qed.

(** Every way [POST /api/users] can end. *)
Lemma post_users_cases adminId newId hash (body : UserBody) s :
  let r := fst (post_users adminId newId hash body s) in
  let s' := snd (post_users adminId newId hash body s) in
  (rp_status r <> 201 /\ site_same s s') \/
  (exists username password rolename role,
     body = mkUserBody (Some username) (Some password) (Some rolename) /\
     username <> "" /\ password <> "" /\ creatable_role rolename = Some role /\
     site_users s !! newId = None /\
     (forall i u, site_users s !! i = Some u -> u_username u <> username) /\
     site_users s'
     = <[newId := mkUser username (hash password) role true (Some adminId)]> (site_users s) /\
     unchanged (site_world s) (site_world s') /\
     r = reply_ok 201 (mkUserJson newId username role true)).
Proof.
  unfold post_users, try_catch_reply. destruct body as [un pw ro].
  destruct (negb (truthy un) || negb (truthy pw) || negb (truthy ro)) eqn:Hbad; simpl.
  { left. split; [done|apply site_same_refl]. }
  apply orb_false_elim in Hbad as [Hbad Hro].
  apply orb_false_elim in Hbad as [Hun Hpw].
  apply negb_false_iff, truthy_Some_ne in Hun as (username & -> & Hne1).
  apply negb_false_iff, truthy_Some_ne in Hpw as (password & -> & Hne2).
  apply negb_false_iff, truthy_Some_ne in Hro as (rolename & -> & Hne3). simpl.
  destruct (creatable_role rolename) as [role|] eqn:Hrole; simpl;
    [|left; split; [done|apply site_same_refl]].
  unfold sbind, sret.
  destruct (user_findUnique_username username s) as [[e|found] s1] eqn:E; simpl;
    apply user_findUnique_username_spec in E as [Hs1 Hv].
  { left. by split. }
  rewrite (Hv found eq_refl).
  destruct (find_username (site_users s) username) as [hit|] eqn:Hfind; simpl.
  { left. by split. }
  destruct (user_create _ _ s1) as [[e|v] s2] eqn:E2; simpl;
    apply user_create_spec in E2 as [Hw2 E2].
  - left. split; [done|]. eapply site_same_trans; [exact Hs1|]. by split.
  - destruct E2 as (-> & Hid & Hfree & Hins). destruct Hs1 as [Hu1 Hw1].
    rewrite Hu1 in *. right. exists username, password, rolename, role.
    repeat split; try done; by eapply unchanged_trans.
Qed.

(** Every way [PATCH /api/users/:id/status] can end. *)
Lemma patch_user_status_cases id isActive s :
  let r := fst (patch_user_status id isActive s) in
  let s' := snd (patch_user_status id isActive s) in
  unchanged (site_world s) (site_world s') /\
  ((r = reply_error 500 "Internal server error" /\ site_users s' = site_users s) \/
   (exists u, site_users s !! id = Some u /\
      site_users s' = <[id := set_isActive isActive u]> (site_users s) /\
      r = reply_ok 200 (select_user id (set_isActive isActive u)))).
Proof.
  unfold patch_user_status, try_catch_reply, sbind, sret.
  destruct (user_update _ _ s) as [[e|v] s1] eqn:E; simpl;
    apply user_update_spec in E as [Hw E]; (split; [done|]).
  - by left.
  - right. destruct E as (u & Hu & -> & Hins). by exists u.
Qed.

Lemma get_users_same orderBy s : site_same s (snd (get_users orderBy s)).
Proof.
  unfold get_users, try_catch_reply, sbind, get_users_table, sret.
  destruct (in_world db_call s) as [[e|[]] s1] eqn:E; simpl;
    by apply in_world_db_call_same in E.
Qed.

Lemma same_account_refl (u : User) : same_account u u.
Proof. by repeat split. Qed.

Lemma same_account_trans (u1 u2 u3 : User) :
  same_account u1 u2 -> same_account u2 u3 -> same_account u1 u3.
Proof. intros (?&?&?&?) (?&?&?&?). repeat split; congruence. Qed.

Lemma creatable_role_not_admin role r : creatable_role role = Some r -> r <> ADMIN.
Proof. intros Hr. apply creatable_role_spec in Hr as [[_ ->]|[[_ ->]|[_ ->]]]; done. Qed.

(** What one request to the users router does to the store. *)
Lemma serve_users_step (rq : UserRequest) s :
  let s' := serve_users rq s in
  (forall i u, site_users s !! i = Some u ->
     exists u', site_users s' !! i = Some u' /\ same_account u u') /\
  (forall i u', site_users s' !! i = Some u' -> site_users s !! i = None -> u_role u' <> ADMIN) /\
  (usernames_unique (site_users s) -> usernames_unique (site_users s')) /\
  unchanged (site_world s) (site_world s').
Proof.
  assert (forall s', site_same s s' ->
            (forall i u, site_users s !! i = Some u ->
               exists u', site_users s' !! i = Some u' /\ same_account u u') /\
            (forall i u', site_users s' !! i = Some u' -> site_users s !! i = None ->
               u_role u' <> ADMIN) /\
            (usernames_unique (site_users s) -> usernames_unique (site_users s')) /\
            unchanged (site_world s) (site_world s')) as Hsame.
  { intros s' [Hu Hw]. rewrite Hu. repeat split; try done; try apply Hw.
    - intros i u Hi. exists u. split; [done|apply same_account_refl].
    - congruence. }
  destruct rq as [adminId newId hash body|id isActive|orderBy]; simpl.
  - destruct (post_users_cases adminId newId hash body s)
      as [[_ Hs]|(username & password & rolename & role & _ & _ & _ & Hrole & Hfree & Hun & Hins & Hw & _)];
      [by apply Hsame|].
    rewrite Hins. split; [|split; [|split; [|done]]].
    + intros i u Hi. exists u. split; [|apply same_account_refl].
      rewrite lookup_insert_ne; [done|]. intros ->. congruence.
    + intros i u'. destruct (decide (newId = i)) as [Ei|Hne].
      * subst. rewrite lookup_insert_eq. intros [= <-] _. simpl.
        by eapply creatable_role_not_admin.
      * rewrite lookup_insert_ne by done. congruence.
    + intros Huniq i j u v.
      destruct (decide (newId = i)) as [Ei|Hi], (decide (newId = j)) as [Ej|Hj]; subst;
        rewrite ?lookup_insert_eq, ?lookup_insert_ne by done; try done.
      * intros [= <-] Hv Heq. simpl in Heq. by destruct (Hun _ v Hv).
      * intros Hu [= <-] Heq. simpl in Heq. by destruct (Hun _ u Hu).
      * apply Huniq.
  - destruct (patch_user_status_cases id isActive s) as [Hw [[_ Hu]|(u0 & Hu0 & Hins & _)]].
    + apply Hsame. by split.
    + assert (forall i, site_users (snd (patch_user_status id isActive s)) !! i
                        = (if decide (id = i) then set_isActive isActive else fun u => u)
                            <$> site_users s !! i) as Hlk.
      { intros i. rewrite Hins. destruct (decide (id = i)) as [Ei|Hne].
        - subst. by rewrite lookup_insert_eq, Hu0.
        - rewrite lookup_insert_ne by done. by destruct (_ !! i). }
      assert (forall i u, same_account u ((if decide (id = i) then set_isActive isActive
                                           else fun u => u) u)) as Hacc.
      { intros i u. case_decide; by repeat split. }
      split; [|split; [|split; [|done]]].
      * intros i u Hi. eexists. rewrite Hlk, Hi. split; [done|apply Hacc].
      * intros i u'. rewrite Hlk. intros Hi Hn. by rewrite Hn in Hi.
      * intros Huniq i j u v. rewrite !Hlk.
        destruct (site_users s !! i) as [u1|] eqn:H1; [|done].
        destruct (site_users s !! j) as [v1|] eqn:H2; [|done].
        simpl. intros [= <-] [= <-] Heq. apply (Huniq i j u1 v1); [done|done|].
        destruct (Hacc i u1) as [Ha _], (Hacc j v1) as [Hb _]. congruence.
  - apply Hsame. apply get_users_same.
Qed.

Lemma serve_users_all_steps (rqs : list UserRequest) s :
  let s' := serve_users_all rqs s in
  (forall i u, site_users s !! i = Some u ->
     exists u', site_users s' !! i = Some u' /\ same_account u u') /\
  (forall i u', site_users s' !! i = Some u' -> site_users s !! i = None -> u_role u' <> ADMIN) /\
  (usernames_unique (site_users s) -> usernames_unique (site_users s')) /\
  unchanged (site_world s) (site_world s').
Proof.
  revert s. induction rqs as [|rq rqs IH]; intros s; simpl.
  - repeat split; try done.
    + intros i u Hi. exists u. split; [done|apply same_account_refl].
    + congruence.
  - destruct (serve_users_step rq s) as (Hk1 & Hn1 & Hu1 & Hw1).
    destruct (IH (serve_users rq s)) as (Hk2 & Hn2 & Hu2 & Hw2).
    split; [|split; [|split; [auto|by eapply unchanged_trans]]].
    + intros i u Hi. destruct (Hk1 i u Hi) as (u1 & Hi1 & Ha1).
      destruct (Hk2 i u1 Hi1) as (u2 & Hi2 & Ha2).
      exists u2. split; [done|]. by eapply same_account_trans.
    + intros i u' Hi' Hnone.
      destruct (site_users (serve_users rq s) !! i) as [u1|] eqn:H1.
      * destruct (Hk2 i u1 H1) as (u2 & Hi2 & (_ & _ & Hr & _)).
        rewrite Hi' in Hi2. injection Hi2 as <-. rewrite Hr. by eapply Hn1.
      * by eapply Hn2.
Qed.

End UsersFacts.

(** X9. Creating a user is refused with 400 when the username, the
    password or the role is missing; when the role is none of MANAGER,
    STORE_KEEPER and SALES_REPRESENTATIVE (so for ADMIN); and when the
    username is taken.  A refusal, like any answer other than 201, leaves
    every table as it was. *)
Theorem post_users_validation {price} `{!JsNum price}
    (adminId newId : string) (hash : string -> string) (body : UserBody) (s : Site price) :
  let r := fst (post_users adminId newId hash body s) in
  let s' := snd (post_users adminId newId hash body s) in
  (truthy (ub_username body) = false \/ truthy (ub_password body) = false \/
   truthy (ub_role body) = false ->
   r = reply_error 400 "Username, password, and role are required" /\ s' = s)
  /\ (forall rolename,
       truthy (ub_username body) = true -> truthy (ub_password body) = true ->
       ub_role body = Some rolename -> rolename <> "" ->
       rolename <> "MANAGER" -> rolename <> "STORE_KEEPER" ->
       rolename <> "SALES_REPRESENTATIVE" ->
       r = reply_error 400 "Invalid role" /\ s' = s)
  /\ (forall username password rolename i u,
       body = mkUserBody (Some username) (Some password) (Some rolename) ->
       username <> "" -> password <> "" ->
       rolename = "MANAGER" \/ rolename = "STORE_KEEPER" \/ rolename = "SALES_REPRESENTATIVE" ->
       no_fault s ->
       site_users s !! i = Some u -> u_username u = username ->
       r = reply_error 400 "Username already exists" /\ s' = s)
  /\ (rp_status r <> 201 -> site_same s s').
Proof.
  intros r s'. repeat apply conj.
  - unfold r, s', post_users, try_catch_reply. destruct body as [un pw ro]; simpl.
    intros [Hm|[Hm|Hm]]; rewrite Hm; simpl; by rewrite ?orb_true_r.
  - intros rolename Hun Hpw Hro Hne H1 H2 H3.
    unfold r, s', post_users, try_catch_reply. destruct body as [un pw ro]; simpl in *.
    subst ro. rewrite Hun, Hpw. simpl.
    replace (negb (String.eqb rolename "")) with true
      by (symmetry; apply negb_true_iff, String.eqb_neq; done).
    simpl. destruct (creatable_role rolename) as [role|] eqn:Hrole; [|done].
    apply creatable_role_spec in Hrole as [[? _]|[[? _]|[? _]]]; done.
  - intros username password rolename i u -> Hn1 Hn2 Hrole Hf Hu Hname.
    assert (exists role, creatable_role rolename = Some role) as [role Hcr].
    { destruct Hrole as [->|[->| ->]]; eexists; reflexivity. }
    destruct s as [users [db fs c]]. unfold no_fault in Hf. simpl in *. subst fs.
    unfold r, s', post_users, try_catch_reply. simpl.
    replace (negb (String.eqb username "")) with true
      by (symmetry; apply negb_true_iff, String.eqb_neq; done).
    replace (negb (String.eqb password "")) with true
      by (symmetry; apply negb_true_iff, String.eqb_neq; done).
    replace (negb (String.eqb rolename "")) with true
      by (symmetry; apply negb_true_iff, String.eqb_neq; by destruct Hrole as [->|[->| ->]]).
    simpl. rewrite Hcr.
    unfold sbind, user_findUnique_username, sbind, in_world, get_users_table, sret; simpl.
    destruct (find_username users username) as [hit|] eqn:Hfind; [done|].
    pose proof (proj1 (find_username_None _ _) Hfind) as Hnone. by destruct (Hnone i u Hu).
  - intros Hr. destruct (post_users_cases adminId newId hash body s) as [[_ Hs]|Hok]; [done|].
    destruct Hok as (? & ? & ? & ? & _ & _ & _ & _ & _ & _ & _ & _ & Hr'). unfold r in Hr.
    by rewrite Hr' in Hr.
Qed.

Lemma post_users_validation_witness :
  let res := post_users "u0" "u9" salted new_admin (site_of (start (plywood 10))) in
  fst res = reply_error 400 "Invalid role" /\ snd res = site_of (start (plywood 10)).
Proof.
  apply (post_users_validation "u0" "u9" salted new_admin (site_of (start (plywood 10))))
    with (rolename := "ADMIN"); try reflexivity; discriminate.
Defined.

(** X10. A user that is created (201) is a new row under a key that was
    free, with a username no row had, one of the roles MANAGER,
    STORE_KEEPER and SALES_REPRESENTATIVE (never ADMIN), the hash of the
    supplied password, [isActive] set and the caller as [createdBy]; the
    reply carries the key, username, role and flag.  Every other user, and
    every order and stock row, is as before.  A well-formed body with a
    fresh key and a free username is answered with 201 when no round trip
    fails. *)
Theorem post_users_creates {price} `{!JsNum price}
    (adminId newId : string) (hash : string -> string) (body : UserBody) (s : Site price) :
  let r := fst (post_users adminId newId hash body s) in
  let s' := snd (post_users adminId newId hash body s) in
  (rp_status r = 201 ->
   exists username password rolename role,
     body = mkUserBody (Some username) (Some password) (Some rolename) /\
     (rolename = "MANAGER" /\ role = MANAGER \/
      rolename = "STORE_KEEPER" /\ role = STORE_KEEPER \/
      rolename = "SALES_REPRESENTATIVE" /\ role = SALES_REPRESENTATIVE) /\
     site_users s !! newId = None /\
     (forall i u, site_users s !! i = Some u -> u_username u <> username) /\
     site_users s' !! newId
     = Some (mkUser username (hash password) role true (Some adminId)) /\
     (forall i, i <> newId -> site_users s' !! i = site_users s !! i) /\
     unchanged (site_world s) (site_world s') /\
     r = reply_ok 201 (mkUserJson newId username role true))
  /\ (forall username password rolename,
       body = mkUserBody (Some username) (Some password) (Some rolename) ->
       username <> "" -> password <> "" ->
       rolename = "MANAGER" \/ rolename = "STORE_KEEPER" \/ rolename = "SALES_REPRESENTATIVE" ->
       no_fault s -> site_users s !! newId = None ->
       (forall i u, site_users s !! i = Some u -> u_username u <> username) ->
       rp_status r = 201).
Proof.
  intros r s'. split.
  - intros H201. destruct (post_users_cases adminId newId hash body s) as [[Hne _]|Hok]; [done|].
    destruct Hok as (username & password & rolename & role & -> & _ & _ & Hrole & Hfree & Hun
                     & Hins & Hw & Hr).
    exists username, password, rolename, role. unfold s'. rewrite Hins, lookup_insert_eq.
    apply creatable_role_spec in Hrole. repeat split; try done; try apply Hw.
    intros i Hi. by rewrite lookup_insert_ne.
  - intros username password rolename -> Hn1 Hn2 Hrole Hf Hfree Hun.
    assert (exists role, creatable_role rolename = Some role) as [role Hcr].
    { destruct Hrole as [->|[->| ->]]; eexists; reflexivity. }
    destruct s as [users [db fs c]]. unfold no_fault in Hf. simpl in *. subst fs.
    unfold r, post_users, try_catch_reply. simpl.
    replace (negb (String.eqb username "")) with true
      by (symmetry; apply negb_true_iff, String.eqb_neq; done).
    replace (negb (String.eqb password "")) with true
      by (symmetry; apply negb_true_iff, String.eqb_neq; done).
    replace (negb (String.eqb rolename "")) with true
      by (symmetry; apply negb_true_iff, String.eqb_neq; by destruct Hrole as [->|[->| ->]]).
    simpl. rewrite Hcr.
    pose proof (proj2 (find_username_None users username) Hun) as Hfind.
    unfold sbind, user_findUnique_username, user_create, sbind, in_world, get_users_table,
      sret; simpl.
    rewrite Hfind; simpl. by rewrite Hfree, Hfind.
Qed.

Lemma post_users_creates_witness :
  let res := post_users "u0" "u9" salted new_keeper (site_of (start (plywood 10))) in
  rp_status (fst res) = 201 /\
  site_users (snd res) !! "u9"
  = Some (mkUser "kofi" "$2a$10$s3cret" STORE_KEEPER true (Some "u0")).
Proof.
  intros res.
  destruct (post_users_creates "u0" "u9" salted new_keeper (site_of (start (plywood 10))))
    as [Hrow Hcan].
  assert (rp_status (fst res) = 201) as H201.
  { apply (Hcan "kofi" "s3cret" "STORE_KEEPER"); try reflexivity; try discriminate; [auto|].
    intros i u Hu. change (site_users (site_of (start (plywood 10)))) with two_users in Hu.
    unfold two_users in Hu.
    apply lookup_insert_Some in Hu as [[_ <-]|[_ Hu]]; [discriminate|].
    apply lookup_singleton_Some in Hu as [_ <-]. discriminate. }
  split; [exact H201|].
  destruct (Hrow H201) as (un & pw & rn & role & Hb & Hrole & _ & _ & Hnew & _).
  injection Hb as <- <- <-.
  destruct Hrole as [[Hr _]|[[_ ->]|[Hr _]]]; [discriminate Hr|exact Hnew|discriminate Hr].
Defined.

(** X11. Through any sequence of requests to the users router (create a
    user, set a user's status, list the users) no account is removed and
    none changes its username, password, role or creator; an account that
    appears is never an ADMIN; usernames that were pairwise different stay
    so; and no order or stock row is touched. *)
Theorem users_router_keeps_accounts {price} `{!JsNum price}
    (rqs : list UserRequest) (s : Site price) :
  let s' := serve_users_all rqs s in
  (forall i u, site_users s !! i = Some u ->
     exists u', site_users s' !! i = Some u' /\
       u_username u' = u_username u /\ u_password u' = u_password u /\
       u_role u' = u_role u /\ u_createdBy u' = u_createdBy u)
  /\ (forall i u', site_users s' !! i = Some u' -> u_role u' = ADMIN ->
        exists u, site_users s !! i = Some u /\ u_role u = ADMIN)
  /\ (usernames_unique (site_users s) -> usernames_unique (site_users s'))
  /\ unchanged (site_world s) (site_world s').
Proof.
  intros s'. destruct (serve_users_all_steps rqs s) as (Hkeep & Hnew & Huniq & Hw).
  split; [|split; [|split; [exact Huniq|exact Hw]]].
  - intros i u Hi. destruct (Hkeep i u Hi) as (u' & Hi' & Hacc). by exists u'.
  - intros i u' Hi' Hadmin.
    destruct (site_users s !! i) as [u|] eqn:Hi.
    + destruct (Hkeep i u Hi) as (u2 & Hi2 & (_ & _ & Hr & _)).
      fold s' in Hi2. rewrite Hi' in Hi2. injection Hi2 as <-.
      exists u. split; [done|congruence].
    + by destruct (Hnew i u' Hi' Hi).
Qed.

Lemma users_router_keeps_accounts_witness :
  let rqs := [CreateUser "u0" "u9" salted new_keeper; SetUserStatus "u0" (Some false);
              CreateUser "u0" "u8" salted new_admin] in
  exists u', site_users (serve_users_all rqs (site_of (start (plywood 10)))) !! "u0" = Some u' /\
             u_role u' = ADMIN /\ u_username u' = "root".
Proof.
  intros rqs.
  destruct (users_router_keeps_accounts rqs (site_of (start (plywood 10)))) as (Hkeep & _).
  destruct (Hkeep "u0" (mkUser "root" "$2a$10$rootrootroot" ADMIN true None) eq_refl)
    as (u' & Hu' & Hn & _ & Hr & _).
  exists u'. split; [exact Hu'|]. split; [exact Hr|exact Hn].
Defined.

(** X12. Setting a user's status on a key that exists (200) stores the
    supplied flag, keeps the flag when none is supplied, and leaves the
    other columns, the other users, the orders and the stock as they were;
    an ADMIN row is treated like any other.  On a key that names no user
    the answer is 500 and nothing changes. *)
Theorem patch_user_status_effect {price} `{!JsNum price}
    (id : string) (isActive : option bool) (s : Site price) :
  let r := fst (patch_user_status id isActive s) in
  let s' := snd (patch_user_status id isActive s) in
  (rp_status r = 200 ->
   exists u, site_users s !! id = Some u /\
     site_users s' !! id
     = Some (mkUser (u_username u) (u_password u) (u_role u)
               (default (u_isActive u) isActive) (u_createdBy u)) /\
     (forall i, i <> id -> site_users s' !! i = site_users s !! i) /\
     r = reply_ok 200 (mkUserJson id (u_username u) (u_role u)
                         (default (u_isActive u) isActive)))
  /\ (site_users s !! id = None ->
      r = reply_error 500 "Internal server error" /\ site_same s s')
  /\ unchanged (site_world s) (site_world s')
  /\ (forall u, site_users s !! id = Some u -> no_fault s -> rp_status r = 200).
Proof.
  intros r s'. destruct (patch_user_status_cases id isActive s) as [Hw Hcases].
  fold r s' in Hw, Hcases. repeat apply conj; try apply Hw.
  - intros H200. destruct Hcases as [[Hr _]|(u & Hu & Hins & Hr)].
    + by rewrite Hr in H200.
    + exists u. rewrite Hins, lookup_insert_eq. repeat split; try done.
      intros i Hi. by rewrite lookup_insert_ne.
  - intros Hnone. destruct Hcases as [[Hr Hu]|(u & Hu & _)]; [|congruence].
    split; [done|]. by split.
  - intros u Hu Hf. destruct s as [users [db fs c]]. unfold no_fault in Hf. simpl in *.
    subst fs. unfold r, patch_user_status, try_catch_reply, sbind, user_update, sbind,
      in_world, get_users_table; simpl. by rewrite Hu.
Qed.

Lemma patch_user_status_effect_witness :
  let res := patch_user_status "u0" (Some false) (site_of (start (plywood 10))) in
  rp_status (fst res) = 200 /\
  site_users (snd res) !! "u0" = Some (mkUser "root" "$2a$10$rootrootroot" ADMIN false None).
Proof.
  intros res.
  destruct (patch_user_status_effect "u0" (Some false) (site_of (start (plywood 10))))
    as (Hdone & _ & _ & Hcan).
  assert (rp_status (fst res) = 200) as H200 by (eapply Hcan; reflexivity).
  split; [exact H200|].
  destruct (Hdone H200) as (u & Hu & Hu' & _).
  vm_compute in Hu. injection Hu as <-. exact Hu'.
Defined.

(** X13. The user listing holds exactly the users whose role is not ADMIN,
    each with its key, username, role and flag (whatever order the rows
    come in), and reading it changes nothing; it is answered with 200 when
    the round trip does not fail. *)
Theorem get_users_lists_non_admins {price} `{!JsNum price}
    (orderBy : list (string * User) -> list (string * User)) (s : Site price) :
  (forall l, orderBy l ≡ₚ l) ->
  let r := fst (get_users orderBy s) in
  let s' := snd (get_users orderBy s) in
  site_same s s'
  /\ (forall listed, rp_body r = inr listed ->
        rp_status r = 200 /\
        forall j, j ∈ listed <->
                  exists i u, site_users s !! i = Some u /\ u_role u <> ADMIN /\
                              j = mkUserJson i (u_username u) (u_role u) (u_isActive u))
  /\ (no_fault s -> rp_status r = 200).
Proof.
  intros Hperm r s'. split; [apply get_users_same|]. split.
  - unfold r, get_users, try_catch_reply, sbind, get_users_table, sret.
    destruct (in_world db_call s) as [[e|[]] s1] eqn:E; simpl; [done|].
    apply in_world_db_call_same in E as [Hu _]. rewrite Hu.
    intros listed [= <-]. split; [done|]. intros j.
    rewrite list_elem_of_In, in_map_iff. setoid_rewrite <- list_elem_of_In.
    setoid_rewrite Hperm. setoid_rewrite list_elem_of_filter. split.
    + intros ([i u] & <- & Hrole & Hin). apply elem_of_map_to_list in Hin. by exists i, u.
    + intros (i & u & Hi & Hrole & ->). exists (i, u). repeat split; [done|].
      by apply elem_of_map_to_list.
  - intros Hf. destruct s as [users [db fs c]]. unfold no_fault in Hf. simpl in *. by subst fs.
Qed.

Lemma get_users_lists_non_admins_witness :
  let r := fst (get_users (fun l => l) (site_of (start (plywood 10)))) in
  rp_body r = inr [mkUserJson "rep1" "rita" SALES_REPRESENTATIVE true] /\
  mkUserJson "rep1" "rita" SALES_REPRESENTATIVE true
  ∈ [mkUserJson "rep1" "rita" SALES_REPRESENTATIVE true].
Proof.
  intros r. assert (rp_body r = inr [mkUserJson "rep1" "rita" SALES_REPRESENTATIVE true]) as Hb
    by reflexivity.
  split; [exact Hb|].
  destruct (get_users_lists_non_admins (fun l => l) (site_of (start (plywood 10)))
              (fun l => reflexivity l)) as (_ & Hlist & _).
  destruct (Hlist _ Hb) as [_ Hmem]. apply Hmem.
  exists "rep1", (mkUser "rita" "$2a$10$ritaritarita" SALES_REPRESENTATIVE true (Some "u0")).
  split; [reflexivity|]. split; [discriminate|reflexivity].
Defined.

(** ** Listings and the dashboard *)

Section ReadingFacts.
Context {price : Type} `{!JsNum price}.
Implicit Types (s : Site price) (db : DB price).

Lemma in_world_get_db s : in_world get_db s = (inr (w_db (site_world s)), s).
Proof. unfold in_world, get_db. by destruct s. Qed.

Lemma no_fault_db_call s : no_fault s -> in_world db_call s = (inr tt, s).
Proof.
  destruct s as [users [db fs c]]. unfold no_fault; simpl. by intros ->.
Qed.

(** A query made of one round trip and a reading of the tables. *)
Lemma reads_after_db_call {A} (f : gmap string User -> DB price -> A) (p : SiteM price A) :
  (forall s, p s = match in_world db_call s with
                   | (inr _, s1) => (inr (f (site_users s1) (w_db (site_world s1))), s1)
                   | (inl e, s1) => (inl e, s1)
                   end) ->
  reads p f.
Proof.
  intros Hp s r s'. rewrite Hp.
  destruct (in_world db_call s) as [[e|[]] s1] eqn:E; intros [= <- <-];
    pose proof (in_world_db_call_same _ _ _ E) as Hs; (split; [done|]); split.
  - done.
  - intros Hf. rewrite no_fault_db_call in E by done. done.
  - intros v [= <-]. destruct Hs as [-> [-> _]]. done.
  - intros Hf. rewrite no_fault_db_call in E by done. by injection E as <-.
Qed.

Lemma user_count_reads where_ :
  reads (user_count (price:=price) where_)
    (fun users _ => size (filter (fun row : string * User => where_ (snd row) = true) users)).
Proof.
  apply reads_after_db_call. intros s. unfold user_count, sbind, get_users_table, sret.
  by destruct (in_world db_call s) as [[e|[]] s1].
Qed.

Lemma stockItem_count_reads where_ :
  reads (stockItem_count where_)
    (fun _ db => size (filter (fun row : string * StockItem price => where_ (snd row) = true)
                         (stock_items db))).
Proof.
  apply reads_after_db_call. intros s. unfold stockItem_count, in_world, bind, get_db, ret.
  by destruct (db_call (site_world s)) as [[e|[]] w1].
Qed.

Lemma order_count_reads where_ :
  reads (order_count where_)
    (fun _ db => size (filter (fun row : string * Order price => where_ (snd row) = true)
                         (orders db))).
Proof.
  apply reads_after_db_call. intros s. unfold order_count, in_world, bind, get_db, ret.
  by destruct (db_call (site_world s)) as [[e|[]] w1].
Qed.

Lemma others_commit_same tables s a :
  site_same s a -> site_same (others_commit tables s) (others_commit tables a).
Proof.
  destruct tables as [[users db]|]; [|done].
  intros (_ & _ & Hc). unfold site_same, unchanged; simpl. by rewrite Hc.
Qed.

Lemma others_commit_no_fault tables s : no_fault s -> no_fault (others_commit tables s).
Proof. by destruct tables as [[users db]|]. Qed.

Lemma after_commits_same n others s a :
  site_same s a -> site_same (after_commits n others s) (after_commits n others a).
Proof.
  revert others s a. induction n as [|n IH]; intros others s a Hsame; simpl; [done|].
  by apply IH, others_commit_same.
Qed.

Lemma answers_same {A} (fs : list (gmap string User -> DB price -> A)) others s a :
  site_same s a -> answers fs others s = answers fs others a.
Proof.
  revert others s a. induction fs as [|f fs IH]; intros others s a Hsame; simpl; [done|].
  pose proof (others_commit_same (mjoin (head others)) _ _ Hsame) as Hoc.
  rewrite (IH _ _ _ Hoc). destruct Hoc as (-> & -> & _). done.
Qed.

(** When no other session commits, the store stays the one it was. *)
Lemma after_commits_quiet n others s :
  Forall (fun o => o = None) others -> after_commits n others s = s.
Proof.
  revert others. induction n as [|n IH]; intros others Hq; simpl; [done|].
  destruct Hq as [|o others -> Hq]; simpl; apply IH; [constructor|done].
Qed.

(** [Promise.all] over queries that only read: each is answered on the
    tables as they are by then, and the queries themselves leave them as
    the other sessions did. *)
Lemma promise_all_answers {A} (ps : list (SiteM price A))
    (fs : list (gmap string User -> DB price -> A)) :
  Forall2 reads ps fs ->
  forall others s r s', promise_all ps others s = (r, s') ->
    site_same (after_commits (length ps) others s) s' /\
    (forall vs, r = inr vs -> vs = answers fs others s) /\
    (no_fault s -> r = inr (answers fs others s)).
Proof.
  induction 1 as [|p f ps fs Hp _ IH]; intros others s r s'; simpl.
  - unfold sret. intros [= <- <-]. repeat split; try done.
    by intros v [= <-].
  - destruct (p _) as [r1 s1] eqn:E1.
    destruct (promise_all ps (tail others) s1) as [rs s2] eqn:E2.
    destruct (Hp _ _ _ E1) as (Hs1 & Hv1 & Hf1).
    destruct (IH _ _ _ _ E2) as (Hs2 & Hv2 & Hf2).
    intros [= <- <-]. split; [|split].
    + eapply site_same_trans; [|exact Hs2]. by apply after_commits_same.
    + intros v Hv. destruct r1 as [e|x]; [done|]. destruct rs as [e|xs]; [done|].
      injection Hv as <-. rewrite (Hv1 x eq_refl), (Hv2 xs eq_refl).
      f_equal. symmetry. by apply answers_same.
    + intros Hf. apply (others_commit_no_fault (mjoin (head others))) in Hf.
      destruct (Hf1 Hf) as [-> ->]. by rewrite (Hf2 Hf).
Qed.

End ReadingFacts.

Section CountFacts.
Context {price : Type} `{!JsNum price}.
Implicit Types (s : Site price) (db : DB price).

Lemma size_filter_insert_fresh {A} (P : string * A -> Prop) `{!forall x, Decision (P x)}
    (m : gmap string A) i x :
  m !! i = None ->
  size (filter P (<[i:=x]> m)) = (size (filter P m) + one_if (P (i, x)))%nat.
Proof.
  intros Hi. rewrite map_filter_insert. unfold one_if. case_decide.
  - rewrite map_size_insert_None; [lia|]. apply map_lookup_filter_None. by left.
  - rewrite delete_id by done. lia.
Qed.

(** Replacing the row under [i] moves it from the counts it was in to the
    counts it is in. *)
Lemma size_filter_replace {A} (P : string * A -> Prop) `{!forall x, Decision (P x)}
    (m : gmap string A) i y x :
  m !! i = Some y ->
  (size (filter P (<[i:=x]> m)) + one_if (P (i, y)) = size (filter P m) + one_if (P (i, x)))%nat.
Proof.
  intros Hi.
  assert (<[i:=x]> m = <[i:=x]> (delete i m)) as -> by (by rewrite insert_delete_eq).
  assert (filter P m = filter P (<[i:=y]> (delete i m))) as ->
    by (by rewrite insert_delete_eq, insert_id).
  rewrite !size_filter_insert_fresh by apply lookup_delete_eq. lia.
Qed.

Lemma count_status_where (st : OrderStatus) db :
  size (filter (fun row : string * Order price => bool_decide (o_status (snd row) = st) = true)
          (orders db))
  = count_status st db.
Proof.
  unfold count_status. f_equal. apply map_filter_ext. intros i o _. simpl.
  by rewrite bool_decide_eq_true.
Qed.

Lemma size_filter_le {A} (P : string * A -> Prop) `{!forall x, Decision (P x)}
    (m : gmap string A) :
  (size (filter P m) <= size m)%nat.
Proof. apply map_subseteq_size, map_filter_subseteq. Qed.

Lemma count_two_statuses (st1 st2 : OrderStatus) db :
  st1 <> st2 -> (count_status st1 db + count_status st2 db <= size (orders db))%nat.
Proof.
  intros Hne. unfold count_status.
  rewrite <- map_size_disj_union.
  - apply map_subseteq_size. apply map_union_least; apply map_filter_subseteq.
  - apply map_disjoint_spec. intros i x y Hx Hy.
    apply map_lookup_filter_Some in Hx as [Hx Px], Hy as [Hy Py]. simpl in *. congruence.
Qed.

End CountFacts.

(** X14. The five dashboard numbers come from five queries that are not in
    one transaction; [others] lists what other sessions commit before each
    of them.  The handler itself writes nothing: the store after the
    request is the one the other sessions left.  Each number is a count
    over the tables as they are when its query is answered: users that are
    active and not ADMIN, stock items, PENDING orders, APPROVED orders, and
    stock items with a quantity of at most 10.  The low-stock count is at
    most the number of stock items when the stock table is the same at the
    second and the fifth query, and pending plus approved is at most the
    number of orders when the order table is the same at the third and the
    fourth; both hold, and the store is left as it was, when requests are
    served one at a time (no other session commits during the request).
    The answer is 200 when no round trip fails. *)
Theorem get_stats_counts {price} `{!JsNum price}
    (others : list (option (gmap string User * DB price))) (s : Site price) :
  let r := fst (get_stats others s) in
  let s' := snd (get_stats others s) in
  let db k := w_db (site_world (after_commits k others s)) in
  site_same (after_commits 5 others s) s'
  /\ (forall st, rp_body r = inr st ->
        rp_status r = 200 /\
        totalUsers st
        = size (filter (fun row : string * User =>
                          u_role (snd row) <> ADMIN /\ u_isActive (snd row) = true)
                  (site_users (after_commits 1 others s))) /\
        totalStockItems st = size (stock_items (db 2%nat)) /\
        pendingOrders st = count_status PENDING (db 3%nat) /\
        approvedOrders st = count_status APPROVED (db 4%nat) /\
        lowStockItems st
        = size (filter (fun row : string * StockItem price => s_quantity (snd row) <= 10)
                  (stock_items (db 5%nat))) /\
        (stock_items (db 2%nat) = stock_items (db 5%nat) ->
         (lowStockItems st <= totalStockItems st)%nat) /\
        (orders (db 3%nat) = orders (db 4%nat) ->
         (pendingOrders st + approvedOrders st <= size (orders (db 3%nat)))%nat))
  /\ (Forall (fun o => o = None) others ->
        site_same s s' /\ forall k, after_commits k others s = s)
  /\ (no_fault s -> rp_status r = 200).
Proof.
  intros r s' db.
  epose proof (promise_all_answers (price:=price)
             [ user_count (fun u => bool_decide (u_role u <> ADMIN) && u_isActive u);
               stockItem_count (fun _ => true);
               order_count (fun o => bool_decide (o_status o = PENDING));
               order_count (fun o => bool_decide (o_status o = APPROVED));
               stockItem_count (fun t => s_quantity t <=? 10) ] _) as Hreads.
  unshelve epose proof (Hreads _) as Hall; clear Hreads.
  { constructor; [apply user_count_reads|].
    constructor; [apply stockItem_count_reads|].
    constructor; [apply order_count_reads|].
    constructor; [apply order_count_reads|].
    constructor; [apply stockItem_count_reads|].
    constructor. }
  unfold r, s', get_stats, try_catch_reply, sbind.
  destruct (promise_all _ others s) as [[e|counts] s1] eqn:E;
    destruct (Hall _ _ _ _ E) as (Hsame & Hval & Hnf);
    change (length _) with 5%nat in Hsame; simpl fst; simpl snd.
  - split; [done|]. split; [done|]. split.
    + intros Hq. rewrite (after_commits_quiet 5 others s Hq) in Hsame.
      split; [done|]. intros k. by apply after_commits_quiet.
    + intros Hf. by specialize (Hnf Hf).
  - rewrite (Hval counts eq_refl). split; [done|]. split; [|split].
    + intros st [= <-].
      assert (forall d : DB price,
                size (filter (fun row : string * StockItem price => true = true)
                        (stock_items d)) = size (stock_items d)) as Hevery.
      { intros d. f_equal. apply map_filter_id. done. }
      assert (forall d : DB price,
                size (filter (fun row : string * StockItem price =>
                                (s_quantity (snd row) <=? 10) = true) (stock_items d))
                = size (filter (fun row : string * StockItem price =>
                                  s_quantity (snd row) <= 10) (stock_items d))) as Hlow.
      { intros d. f_equal. apply map_filter_ext. intros i t _. simpl. apply Z.leb_le. }
      cbn [answers rp_status rp_body totalUsers totalStockItems pendingOrders
           approvedOrders lowStockItems].
      rewrite !count_status_where, Hevery, Hlow.
      split; [done|]. split.
      { f_equal. apply map_filter_ext. intros i u _. simpl.
        rewrite andb_true_iff, bool_decide_eq_true. done. }
      split; [done|]. split; [done|]. split; [done|]. split; [done|]. split.
      * intros Heq.
        change (size (filter (fun row : string * StockItem price =>
                                (s_quantity (snd row) <= 10)%Z) (stock_items (db 5%nat)))
                <= size (stock_items (db 2%nat)))%nat.
        rewrite Heq. apply size_filter_le.
      * intros Heq.
        change (count_status PENDING (db 3%nat) + count_status APPROVED (db 4%nat)
                <= size (orders (db 3%nat)))%nat.
        etrans; [|apply (count_two_statuses PENDING APPROVED (db 3%nat)); done].
        unfold count_status. rewrite Heq. done.
    + intros Hq. rewrite (after_commits_quiet 5 others s Hq) in Hsame.
      split; [done|]. intros k. by apply after_commits_quiet.
    + done.
Qed.

(** Another session adds a second low item after the stock items have been
    counted and before the low ones are: the reply shows one stock item and
    two low ones. *)
Example get_stats_between_two_counts :
  let others := [None; None; None; None; Some (two_users, with_screws)] in
  let r := fst (get_stats others (site_of (start (plywood 10)))) in
  rp_status r = 200 /\
  rp_body r = inr (mkStats 1 1 0 0 2) /\
  w_db (site_world (snd (get_stats others (site_of (start (plywood 10)))))) = with_screws.
Proof. vm_compute. done. Qed.

(** X15. How the pending and approved counts move.  A created order (201)
    adds one to the PENDING count; an approval (200) takes one from the
    PENDING count and adds one to the APPROVED count; a rejection (200)
    takes one from the count of the status the order had and adds one to
    the REJECTED count, so the rejection of an APPROVED order takes one
    from the APPROVED count.  No other count moves. *)
Theorem order_requests_move_counts {price} `{!JsNum price}
    (st : OrderStatus) (w : World price) :
  (forall userId newId body,
     res_status (fst (post_orders userId newId body w)) = 201 ->
     count_status st (w_db (snd (post_orders userId newId body w)))
     = (count_status st (w_db w) + one_if (st = PENDING))%nat)
  /\ (forall id,
       res_status (fst (patch_approve id w)) = 200 ->
       (count_status st (w_db (snd (patch_approve id w))) + one_if (st = PENDING)
        = count_status st (w_db w) + one_if (st = APPROVED))%nat)
  /\ (forall id reason,
       res_status (fst (patch_reject id reason w)) = 200 ->
       exists o, orders (w_db w) !! id = Some o /\
         (count_status st (w_db (snd (patch_reject id reason w))) + one_if (o_status o = st)
          = count_status st (w_db w) + one_if (st = REJECTED))%nat).
Proof.
  repeat apply conj.
  - intros userId newId body H201.
    destruct (post_orders_cases userId newId body w) as [_ [[Hne _]|Hok]]; [done|].
    destruct Hok as (name & contact & items & _ & _ & _ & _ & _ & Hfresh & Hins & _).
    unfold count_status. rewrite Hins, size_filter_insert_fresh by done. simpl.
    f_equal. unfold one_if. repeat case_decide; congruence.
  - intros id H200.
    destruct (patch_approve_cases id w) as [[_ Hne]|(o & Ho & Hst & Hdb & _)]; [done|].
    unfold count_status. rewrite Hdb. simpl.
    pose proof (size_filter_replace
                  (fun row : string * Order price => o_status (snd row) = st)
                  (orders (w_db w)) id o (set_status APPROVED o) Ho) as Hmove.
    simpl in Hmove. rewrite Hst in Hmove.
    unfold one_if in *. repeat case_decide; try congruence; lia.
  - intros id reason H200.
    destruct (patch_reject_cases id reason w)
      as [_ [(_ & Hr & _)|[(_ & Hr & _)|(_ & o & Ho & Hins & _)]]];
      [by rewrite Hr in H200|by rewrite Hr in H200|].
    exists o. split; [done|]. unfold count_status. rewrite Hins.
    pose proof (size_filter_replace
                  (fun row : string * Order price => o_status (snd row) = st)
                  (orders (w_db w)) id o (set_rejected reason o) Ho) as Hmove.
    simpl in Hmove. unfold one_if in *. repeat case_decide; try congruence; lia.
Qed.

Lemma order_requests_move_counts_witness :
  count_status PENDING (w_db pending_4_of_10) = 1%nat /\
  (count_status PENDING (w_db (snd (patch_approve "o1" pending_4_of_10))) + 1
   = count_status PENDING (w_db pending_4_of_10) + 0)%nat.
Proof.
  split; [reflexivity|].
  destruct (order_requests_move_counts PENDING pending_4_of_10) as (_ & Happrove & _).
  apply (Happrove "o1"). reflexivity.
Defined.

(** ** The order listing and the sales summary *)

Section ListingFacts.
Context {price : Type} `{!JsNum price}.
Implicit Types (s : Site price) (db : DB price).

Lemma order_findMany_reads where_ withSalesRep orderBy :
  reads (order_findMany where_ withSalesRep orderBy)
    (fun users db =>
       map (fun row => listed_row users db withSalesRep (fst row) (snd row))
         (orderBy (filter (fun row => where_ (fst row) (snd row) = true)
                     (map_to_list (orders db))))).
Proof.
  apply reads_after_db_call. intros s.
  unfold order_findMany, sbind, get_users_table, sret.
  destruct (in_world db_call s) as [[e|[]] s1]; [done|]. by rewrite in_world_get_db.
Qed.

(** A handler that answers 200 with what a reading query gave. *)
Lemma reply_of_reads {A} (q : SiteM price A) f s :
  reads q f ->
  let res := try_catch_reply (sbind q (fun x => sret (reply_ok 200 x))) s in
  site_same s (snd res)
  /\ (forall v, rp_body (fst res) = inr v ->
        rp_status (fst res) = 200 /\ v = f (site_users s) (w_db (site_world s)))
  /\ (no_fault s -> rp_status (fst res) = 200).
Proof.
  intros Hq res. unfold res, try_catch_reply, sbind, sret.
  destruct (q s) as [[e|v] s1] eqn:E; destruct (Hq _ _ _ E) as (Hsame & Hval & Hnf); simpl.
  - split; [done|]. split; [done|]. intros Hf. by destruct (Hnf Hf).
  - split; [done|]. split; [|done]. intros v' [= <-]. split; [done|]. by apply Hval.
Qed.

Lemma listed_rows_elem where_ withSalesRep orderBy users db (row : OrderRow price) :
  (forall l, orderBy l ≡ₚ l) ->
  row ∈ map (fun row => listed_row users db withSalesRep (fst row) (snd row))
          (orderBy (filter (fun row => where_ (fst row) (snd row) = true)
                      (map_to_list (orders db))))
  <-> exists id o, orders db !! id = Some o /\ where_ id o = true /\
                   row = listed_row users db withSalesRep id o.
Proof.
  intros Hperm. rewrite list_elem_of_In, in_map_iff. setoid_rewrite <- list_elem_of_In.
  setoid_rewrite Hperm. setoid_rewrite list_elem_of_filter. split.
  - intros ([id o] & <- & Hw & Hin). apply elem_of_map_to_list in Hin. by exists id, o.
  - intros (id & o & Ho & Hw & ->). exists (id, o). split; [done|]. split; [done|].
    by apply elem_of_map_to_list.
Qed.

Lemma listed_rows_ids where_ withSalesRep orderBy users db :
  (forall l, orderBy l ≡ₚ l) ->
  NoDup (map or_id
           (map (fun row => listed_row users db withSalesRep (fst row) (snd row))
              (orderBy (filter (fun row => where_ (fst row) (snd row) = true)
                          (map_to_list (orders db)))))).
Proof.
  intros Hperm. rewrite map_map. simpl.
  change (map (fun x : string * Order price => x.1) ?l) with (l.*1).
  rewrite Hperm. apply (sublist_NoDup _ ((map_to_list (orders db)).*1)).
  - apply NoDup_fst_map_to_list.
  - apply fmap_sublist, sublist_filter.
Qed.

Lemma order_cost_spec db (items : list (OrderItem price)) (acc c : price) :
  order_cost (map (fun oi => (oi, stock_items db !! oi_stockItemId oi)) items) acc = inr c ->
  c = cost_from db items acc /\
  Forall (fun oi => is_Some (stock_items db !! oi_stockItemId oi)) items.
Proof.
  revert acc c. induction items as [|oi items IH]; intros acc c; simpl.
  - intros [= <-]. by split.
  - destruct (stock_items db !! oi_stockItemId oi) as [t|] eqn:Ht; [|done].
    intros Hc. destruct (IH _ _ Hc) as [-> Hall]. split.
    + unfold cost_from. simpl. by rewrite ?Ht.
    + constructor; [by rewrite Ht|done].
Qed.

Lemma order_cost_total db (items : list (OrderItem price)) (acc : price) :
  Forall (fun oi => is_Some (stock_items db !! oi_stockItemId oi)) items ->
  order_cost (map (fun oi => (oi, stock_items db !! oi_stockItemId oi)) items) acc
  = inr (cost_from db items acc).
Proof.
  intros Hall. revert acc. induction Hall as [|oi items [t Ht] _ IH]; intros acc; simpl.
  - done.
  - by rewrite Ht, IH.
Qed.

Lemma sale_items_of_spec db (items : list (OrderItem price)) its :
  sale_items_of (map (fun oi => (oi, stock_items db !! oi_stockItemId oi)) items) = inr its ->
  Forall2 (sale_item_of_line db) items its.
Proof.
  revert its. induction items as [|oi items IH]; intros its; simpl.
  - intros [= <-]. constructor.
  - destruct (stock_items db !! oi_stockItemId oi) as [t|] eqn:Ht; [|done].
    destruct (sale_items_of _) as [e|l]; [done|]. intros [= <-].
    constructor; [|by apply IH]. unfold sale_item_of_line. simpl.
    split; [done|]. split; [done|]. split; [done|]. by exists t.
Qed.

Lemma sale_items_of_total db (items : list (OrderItem price)) :
  Forall (fun oi => is_Some (stock_items db !! oi_stockItemId oi)) items ->
  exists its,
    sale_items_of (map (fun oi => (oi, stock_items db !! oi_stockItemId oi)) items) = inr its.
Proof.
  induction 1 as [|oi items [t Ht] _ [its IH]]; simpl.
  - by eexists.
  - rewrite Ht, IH. by eexists.
Qed.

Context `{!JsSub price}.

Lemma sales_rows_spec db (rows : list (OrderRow price)) (rev cost : price) sales rev' cost' :
  Forall (fun row => or_order row = include_items db (ov_order (or_order row))) rows ->
  sales_rows rows rev cost = inr (sales, rev', cost') ->
  Forall2 (sale_of_row db) rows sales /\
  rev' = fold_left num_add (map sale_totalAmount sales) rev /\
  cost' = fold_left num_add (map sale_cost sales) cost.
Proof.
  intros Hrows. revert rev cost sales rev' cost'.
  induction Hrows as [|row rows Hrow _ IH]; intros rev cost sales rev' cost'; simpl.
  - intros [= <- <- <-]. split; [constructor|done].
  - rewrite Hrow. simpl.
    destruct (order_cost _ num_zero) as [e|orderCost] eqn:Hc; [done|].
    destruct (or_salesRep row) as [salesRep|] eqn:Hrep; [|done].
    destruct (sale_items_of (price:=price) _) as [e|items] eqn:Hit; [done|].
    destruct (sales_rows rows _ _) as [e|[[sales0 rev0] cost0]] eqn:Hrest; [done|].
    intros [= <- <- <-]. destruct (IH _ _ _ _ _ Hrest) as (Hall & -> & ->).
    apply order_cost_spec in Hc as [-> _]. apply sale_items_of_spec in Hit.
    split; [|done]. constructor; [|done].
    unfold sale_of_row. rewrite Hrow. simpl. by rewrite Hrep.
Qed.

Lemma sales_rows_total users db (rows : list (OrderRow price)) (rev cost : price) :
  Forall (fun row => exists id o, row = listed_row users db true id o /\
                                  references_resolve users db o) rows ->
  exists result, sales_rows rows rev cost = inr result.
Proof.
  intros Hrows. revert rev cost.
  induction Hrows as [|row rows (id & o & -> & [u Hu] & Hlines) _ IH]; intros rev cost; simpl.
  - by eexists.
  - rewrite order_cost_total by done. rewrite Hu. simpl.
    destruct (sale_items_of_total db _ Hlines) as [its ->].
    destruct (IH (num_add rev (o_totalAmount o))
                 (num_add cost (cost_from db (o_orderItems o) num_zero)))
      as [[[sales rev'] cost'] ->].
    by eexists.
Qed.

End ListingFacts.

(** X16. The order listing.  A sales representative is given exactly the
    orders that are theirs, any other role all the orders; each order
    appears once, with its lines and their stock rows, and with the sales
    representative's username for the other roles only.  Listing changes
    nothing, and it is answered with 200 when the round trip does not
    fail. *)
Theorem get_orders_lists_visible {price} `{!JsNum price}
    (orderBy : list (string * Order price) -> list (string * Order price))
    (user : AuthUser) (s : Site price) :
  (forall l, orderBy l ≡ₚ l) ->
  let r := fst (get_orders orderBy user s) in
  let s' := snd (get_orders orderBy user s) in
  let db := w_db (site_world s) in
  site_same s s'
  /\ (forall rows, rp_body r = inr rows ->
        rp_status r = 200 /\
        NoDup (map or_id rows) /\
        forall row, row ∈ rows <->
          exists id o, orders db !! id = Some o /\ visible_to user o /\
            row = mkOrderRow id (include_items db o)
                    (if decide (au_role user = SALES_REPRESENTATIVE) then None
                     else u_username <$> site_users s !! o_salesRepId o))
  /\ (no_fault s -> rp_status r = 200).
Proof.
  intros Hperm r s' db. unfold r, s', get_orders, visible_to.
  destruct (decide (au_role user = SALES_REPRESENTATIVE)) as [Hrole|Hrole].
  - rewrite bool_decide_eq_true_2 by done.
    set (where_ := fun (_ : string) (o : Order price) =>
                     bool_decide (o_salesRepId o = au_id user)).
    destruct (reply_of_reads _ _ s (order_findMany_reads where_ false orderBy))
      as (Hsame & Hval & Hnf).
    split; [exact Hsame|]. split; [|exact Hnf].
    intros rows Hrows. destruct (Hval _ Hrows) as [H200 ->]. split; [exact H200|].
    split; [exact (listed_rows_ids where_ false orderBy _ _ Hperm)|]. intros row.
    etrans; [exact (listed_rows_elem where_ false orderBy _ _ row Hperm)|].
    fold db. split.
    + intros (id & o & Ho & Hw & ->). apply bool_decide_eq_true in Hw. by exists id, o.
    + intros (id & o & Ho & Hw & ->). exists id, o. split; [done|].
      split; [|done]. apply bool_decide_eq_true. by apply Hw.
  - rewrite bool_decide_eq_false_2 by done.
    set (where_ := fun (_ : string) (_ : Order price) => true).
    destruct (reply_of_reads _ _ s (order_findMany_reads where_ true orderBy))
      as (Hsame & Hval & Hnf).
    split; [exact Hsame|]. split; [|exact Hnf].
    intros rows Hrows. destruct (Hval _ Hrows) as [H200 ->]. split; [exact H200|].
    split; [exact (listed_rows_ids where_ true orderBy _ _ Hperm)|]. intros row.
    etrans; [exact (listed_rows_elem where_ true orderBy _ _ row Hperm)|].
    fold db. split.
    + intros (id & o & Ho & _ & ->). by exists id, o.
    + intros (id & o & Ho & _ & ->). by exists id, o.
Qed.

Lemma get_orders_lists_visible_witness :
  let s := site_of pending_4_of_10 in
  let rita := mkAuthUser "rep1" SALES_REPRESENTATIVE in
  let r := fst (get_orders (fun l => l) rita s) in
  let o := mkOrder "Ann" "555-0100" PENDING 400 None "rep1" [mkOrderItem "s1" 4 100 400] in
  orders (w_db pending_4_of_10) !! "o1" = Some o /\
  exists rows, rp_body r = inr rows /\
    mkOrderRow "o1" (include_items (w_db pending_4_of_10) o) None ∈ rows.
Proof.
  intros s rita r o.
  destruct (get_orders_lists_visible (fun l => l) rita s (fun l => reflexivity l))
    as (_ & Hlist & _).
  split; [reflexivity|]. eexists. split; [reflexivity|].
  destruct (Hlist _ eq_refl) as (_ & _ & Hmem). apply Hmem.
  exists "o1", o. split; [reflexivity|]. split; [intros _; reflexivity|reflexivity].
Defined.

(** X17. The sales summary.  Its sales are exactly the APPROVED orders
    (within the dates, when both are given), each once, with the order's
    customer, total amount and lines and its sales representative's
    username; a sale's cost is that of its lines at the buying prices the
    stock rows have now, its profit the total amount minus that cost.  The
    summary's revenue and cost are the sums of the sales' total amounts and
    costs, its profit their difference, and its number of orders the number
    of sales.  Nothing is written.  The answer is 200 when the round trip
    does not fail, the dates are accepted, and the rows those orders refer
    to are there. *)
Theorem get_sales_summary_report {price} `{!JsNum price} `{!JsSub price}
    (createdAt_between : string -> string -> Exn + (string -> bool))
    (orderBy : list (string * Order price) -> list (string * Order price))
    (startDate endDate : option string) (s : Site price) :
  (forall l, orderBy l ≡ₚ l) ->
  let r := fst (get_sales_summary createdAt_between orderBy startDate endDate s) in
  let s' := snd (get_sales_summary createdAt_between orderBy startDate endDate s) in
  let db := w_db (site_world s) in
  site_same s s'
  /\ (forall report, rp_body r = inr report ->
        let sales := sr_sales report in
        let summary := sr_summary report in
        rp_status r = 200 /\
        exists inRange,
          date_range createdAt_between startDate endDate = inr inRange /\
          NoDup (map sale_id sales) /\
          (forall id, id ∈ map sale_id sales <->
                      exists o, orders db !! id = Some o /\ in_summary inRange id o) /\
          (forall sale, sale ∈ sales ->
             exists o u, orders db !! sale_id sale = Some o /\
               site_users s !! o_salesRepId o = Some u /\
               sale_salesRep sale = u_username u /\
               sale_customerName sale = o_customerName o /\
               sale_customerContact sale = o_customerContact o /\
               sale_totalAmount sale = o_totalAmount o /\
               sale_cost sale = cost_now db (o_orderItems o) /\
               sale_profit sale = num_sub (sale_totalAmount sale) (sale_cost sale) /\
               Forall2 (sale_item_of_line db) (o_orderItems o) (sale_items sale)) /\
          sm_totalOrders summary = length sales /\
          sm_totalRevenue summary = fold_left num_add (map sale_totalAmount sales) num_zero /\
          sm_totalCost summary = fold_left num_add (map sale_cost sales) num_zero /\
          sm_totalProfit summary
          = num_sub (sm_totalRevenue summary) (sm_totalCost summary))
  /\ (forall inRange,
        no_fault s ->
        date_range createdAt_between startDate endDate = inr inRange ->
        (forall id o, orders db !! id = Some o -> in_summary inRange id o ->
                      references_resolve (site_users s) db o) ->
        rp_status r = 200).
Proof.
  intros Hperm r s' db. unfold r, s', get_sales_summary, try_catch_reply.
  destruct (date_range createdAt_between startDate endDate) as [e|inRange] eqn:Hrange.
  { split; [apply site_same_refl|]. split; [done|]. by intros inRange _ [=]. }
  set (whereClause := fun (id : string) (o : Order price) =>
                        bool_decide (o_status o = APPROVED) && inRange id).
  pose proof (order_findMany_reads whereClause true orderBy) as Hreads.
  assert (forall id o, whereClause id o = true <-> in_summary inRange id o) as Hwhere.
  { intros id o. unfold whereClause, in_summary.
    by rewrite andb_true_iff, bool_decide_eq_true. }
  unfold sbind.
  destruct (order_findMany whereClause true orderBy s) as [[e|rows] s1] eqn:E;
    destruct (Hreads _ _ _ E) as (Hsame & Hval & Hnf).
  { simpl. split; [done|]. split; [done|]. intros inRange' Hf _ _. by destruct (Hnf Hf). }
  specialize (Hval _ eq_refl). fold db in Hval.
  assert (forall row, row ∈ rows <->
            exists id o, orders db !! id = Some o /\ in_summary inRange id o /\
                         row = listed_row (site_users s) db true id o) as Hmem.
  { intros row. rewrite Hval, (listed_rows_elem whereClause true orderBy) by done.
    by setoid_rewrite Hwhere. }
  assert (NoDup (map or_id rows)) as Hids
    by (rewrite Hval; by apply (listed_rows_ids whereClause true orderBy)).
  assert (Forall (fun row => or_order row = include_items db (ov_order (or_order row))) rows)
    as Hviews.
  { apply Forall_forall. intros row Hrow. apply Hmem in Hrow as (id & o & _ & _ & ->). done. }
  destruct (sales_rows rows num_zero num_zero) as [e|[[sales rev] cost]] eqn:Hsales.
  - simpl. split; [done|]. split; [done|].
    intros inRange' Hf [= <-] Hres.
    destruct (sales_rows_total (site_users s) db rows num_zero num_zero) as [res Hres'].
    + apply Forall_forall. intros row Hrow. apply Hmem in Hrow as (id & o & Ho & Hin & ->).
      exists id, o. split; [done|]. by eapply Hres.
    + congruence.
  - simpl. split; [done|]. split; [|done].
    intros report [= <-]. simpl. split; [done|]. exists inRange. split; [done|].
    destruct (sales_rows_spec db rows _ _ _ _ _ Hviews Hsales) as (Hall & -> & ->).
    assert (map sale_id sales = map or_id rows) as Hsame_ids.
    { clear -Hall. induction Hall as [|row sale rows sales Hrs _ IH]; [done|].
      simpl. f_equal; [apply Hrs|done]. }
    split; [by rewrite Hsame_ids|]. split; [|split; [|split; [|done]]].
    + intros id. rewrite Hsame_ids, list_elem_of_In, in_map_iff.
      setoid_rewrite <- list_elem_of_In. split.
      * intros (row & <- & Hrow). apply Hmem in Hrow as (id & o & Ho & Hin & ->).
        by exists o.
      * intros (o & Ho & Hin). exists (listed_row (site_users s) db true id o).
        split; [done|]. apply Hmem. by exists id, o.
    + intros sale Hsale.
      apply list_elem_of_lookup_1 in Hsale as [i Hi].
      destruct (Forall2_lookup_r _ _ _ _ _ Hall Hi) as (row & Hrow & Hrs).
      apply list_elem_of_lookup_2, Hmem in Hrow as (id & o & Ho & _ & ->).
      destruct Hrs as (Hid & Hname & Hcontact & Hrep & Hamount & Hcost & Hprofit & Hitems).
      simpl in *. destruct (site_users s !! o_salesRepId o) as [u|] eqn:Hu; [|done].
      injection Hrep as Hrep. exists o, u. rewrite Hid. by repeat split.
    + by rewrite (Forall2_length _ _ _ Hall).
Qed.

Lemma get_sales_summary_report_witness :
  let s := site_of (snd (patch_approve "o1" pending_4_of_10)) in
  let r := fst (get_sales_summary (fun _ _ => inr (fun _ => true)) (fun l => l) None None s) in
  exists report, rp_body r = inr report /\
    "o1" ∈ map sale_id (sr_sales report) /\
    sm_totalProfit (sr_summary report) = 80.
Proof.
  intros s r.
  destruct (get_sales_summary_report (fun _ _ => inr (fun _ => true)) (fun l => l) None None s
              (fun l => reflexivity l)) as (_ & Hreport & _).
  eexists. split; [reflexivity|].
  destruct (Hreport _ eq_refl) as (_ & inRange & Hrange & _ & Hmem & _).
  injection Hrange as <-. split; [|reflexivity].
  apply Hmem. eexists. split; [reflexivity|]. split; reflexivity.
Defined.

(** ** The stock listing *)

Section StockListingFacts.
Context {price : Type} `{!JsNum price}.

Lemma stockItem_findMany_reads
    (orderBy : list (string * StockItem price) -> list (string * StockItem price)) :
  reads (stockItem_findMany orderBy)
    (fun _ db => orderBy (map_to_list (stock_items db))).
Proof.
  apply reads_after_db_call. intros s. unfold stockItem_findMany, sbind, sret.
  destruct (in_world db_call s) as [[e|[]] s1]; [done|]. by rewrite in_world_get_db.
Qed.

End StockListingFacts.

(** X18. The stock listing holds every stock row, once, under its key, and
    nothing else, so it is as long as the table is large; reading it
    changes nothing, and it is answered with 200 when the round trip does
    not fail. *)
Theorem get_stock_lists_all {price} `{!JsNum price}
    (orderBy : list (string * StockItem price) -> list (string * StockItem price))
    (s : Site price) :
  (forall l, orderBy l ≡ₚ l) ->
  let r := fst (get_stock orderBy s) in
  let s' := snd (get_stock orderBy s) in
  let db := w_db (site_world s) in
  site_same s s'
  /\ (forall listed, rp_body r = inr listed ->
        rp_status r = 200 /\
        NoDup (map fst listed) /\
        (forall id t, (id, t) ∈ listed <-> stock_items db !! id = Some t) /\
        length listed = size (stock_items db))
  /\ (no_fault s -> rp_status r = 200).
Proof.
  intros Hperm r s' db.
  destruct (reply_of_reads _ _ s (stockItem_findMany_reads orderBy)) as (Hsame & Hval & Hnf).
  split; [exact Hsame|]. split; [|exact Hnf].
  intros listed Hlisted. destruct (Hval _ Hlisted) as [H200 ->]. split; [exact H200|].
  fold db. split; [|split].
  - change (map fst ?l) with (l.*1). rewrite Hperm. apply NoDup_fst_map_to_list.
  - intros id t. rewrite Hperm. apply elem_of_map_to_list.
  - rewrite Hperm. apply length_map_to_list.
Qed.

Lemma get_stock_lists_all_witness :
  let r := fst (get_stock (fun l => l) (site_of (start (plywood 10)))) in
  exists listed, rp_body r = inr listed /\
    ("s1", mkStockItem "Plywood" 10 80 (Some 100)) ∈ listed.
Proof.
  intros r.
  destruct (get_stock_lists_all (fun l => l) (site_of (start (plywood 10)))
              (fun l => reflexivity l)) as (_ & Hlist & _).
  eexists. split; [reflexivity|].
  destruct (Hlist _ eq_refl) as (_ & _ & Hmem & _). apply Hmem. reflexivity.
Defined.


(** ** The seed script *)

Section SeedFacts.
Context {price : Type} `{!JsNum price}.
Implicit Types (s : Site price) (db : DB price).

Lemma rows_kept_refl s : rows_kept s s.
Proof. by repeat split. Qed.

Lemma rows_kept_trans s1 s2 s3 : rows_kept s1 s2 -> rows_kept s2 s3 -> rows_kept s1 s3.
Proof.
  intros (Hu1 & Ht1 & Ho1) (Hu2 & Ht2 & Ho2). split; [|split].
  - intros id u Hu. by apply Hu2, Hu1.
  - intros id t Ht. by apply Ht2, Ht1.
  - congruence.
Qed.

Lemma tables_same_rows_kept s s' : tables_same s s' -> rows_kept s s'.
Proof. intros [Hu Hdb]. unfold rows_kept. rewrite Hu, Hdb. by repeat split. Qed.

Lemma tables_same_trans s1 s2 s3 : tables_same s1 s2 -> tables_same s2 s3 -> tables_same s1 s3.
Proof. intros [? ?] [? ?]. split; congruence. Qed.

Lemma has_stock_name_kept s s' name :
  rows_kept s s' -> has_stock_name s name -> has_stock_name s' name.
Proof. intros (_ & Ht & _) (id & t & Hid & Hn). exists id, t. split; [by apply Ht|done]. Qed.

Lemma has_username_kept s s' name :
  rows_kept s s' -> has_username s name -> has_username s' name.
Proof. intros (Hu & _) (id & u & Hid & Hn). exists id, u. split; [by apply Hu|done]. Qed.

Lemma has_stock_name_same_db s s' name :
  w_db (site_world s') = w_db (site_world s) -> has_stock_name s' name <-> has_stock_name s name.
Proof. intros Hdb. unfold has_stock_name. by rewrite Hdb. Qed.

Lemma not_has_stock_name s name :
  ~ has_stock_name s name <-> name_unused (w_db (site_world s)) name.
Proof.
  unfold has_stock_name, name_unused. split.
  - intros Hno id t Ht Hn. apply Hno. by exists id, t.
  - intros Hno (id & t & Ht & Hn). by eapply Hno.
Qed.

Lemma has_stock_name_dec s name : has_stock_name s name \/ ~ has_stock_name s name.
Proof.
  destruct (list_find (fun row : string * StockItem price => s_name (snd row) = name)
              (map_to_list (stock_items (w_db (site_world s))))) as [hit|] eqn:Hf.
  - left. apply find_name_Some in Hf as [Hid Hn]. by eexists _, _.
  - right. apply not_has_stock_name. unfold name_unused. by apply find_name_None.
Qed.

(** An upsert that updates nothing: either the tables stay as they are, or
    the row is added under the generated key. *)
Lemma stockItem_upsert_cases name newId (create : StockItem price) w r w' :
  s_name create = name ->
  stockItem_upsert name newId (fun t => t) create w = (r, w') ->
  (w_db w' = w_db w /\
   (forall t, r = inr t -> exists id, stock_items (w_db w) !! id = Some t /\ s_name t = name))
  \/ (r = inr create /\ name_unused (w_db w) name /\ stock_items (w_db w) !! newId = None /\
      w_db w' = mkDB (<[newId := create]> (stock_items (w_db w))) (orders (w_db w))).
Proof.
  intros Hname. unfold stockItem_upsert, bind, get_db, put_db, commit, throw, ret.
  destruct (db_call w) as [[e|[]] w1] eqn:E; apply db_call_unchanged in E as [Hdb Hc].
  - intros [= <- <-]. left. by split.
  - rewrite Hname, Hdb.
    destruct (list_find _ _) as [[n [id t]]|] eqn:Hf.
    + apply find_name_Some in Hf as [Hid Hn]. simpl in Hid, Hn.
      intros [= <- <-]. simpl. left. rewrite insert_id by done. split.
      * by destruct (w_db w).
      * intros t' [= <-]. by exists id.
    + destruct (stock_items (w_db w) !! newId) eqn:Hnew.
      * intros [= <- <-]. left. by split.
      * destruct (in_int32 (s_quantity create)); [|intros [= <- <-]; left; by split].
        intros [= <- <-]. simpl. right. split; [done|]. split; [|done].
        unfold name_unused. by apply find_name_None.
Qed.

(** One turn of the loop over the stock items. *)
Lemma stock_upsert_step name newId (create : StockItem price) s r s' :
  s_name create = name ->
  sbind (in_world (stockItem_upsert name newId (fun t => t) create)) (fun _ => sret tt) s
  = (r, s') ->
  site_users s' = site_users s /\
  ((w_db (site_world s') = w_db (site_world s) /\ (r = inr tt -> has_stock_name s name))
   \/ (r = inr tt /\ ~ has_stock_name s name /\
       stock_items (w_db (site_world s)) !! newId = None /\
       w_db (site_world s')
       = mkDB (<[newId := create]> (stock_items (w_db (site_world s))))
           (orders (w_db (site_world s))))).
Proof.
  intros Hname. unfold sbind, in_world, sret.
  destruct (stockItem_upsert _ _ _ _ (site_world s)) as [r0 w'] eqn:E.
  destruct (stockItem_upsert_cases _ _ _ _ _ _ Hname E) as [[Hdb Hfound]|(-> & Hno & Hnew & Hdb)].
  - destruct r0 as [e|t]; intros [= <- <-]; simpl; (split; [done|]); left; (split; [done|]).
    + done.
    + intros _. destruct (Hfound t eq_refl) as (id & Hid & Hn). by exists id, t.
  - intros [= <- <-]. simpl. split; [done|]. right. split; [done|]. split; [|done].
    by apply not_has_stock_name.
Qed.

(** With no fault to come, and a key that is new when it is needed, the
    turn goes through. *)
Lemma stock_upsert_step_ok name newId (create : StockItem price) s :
  s_name create = name -> no_fault s ->
  has_stock_name s name \/
  (stock_items (w_db (site_world s)) !! newId = None /\ in_int32 (s_quantity create) = true) ->
  exists s',
    sbind (in_world (stockItem_upsert name newId (fun t => t) create)) (fun _ => sret tt) s
    = (inr tt, s') /\ no_fault s'.
Proof.
  intros Hname Hf Hkey. destruct s as [users [db fs c]]. unfold no_fault in *. simpl in *.
  subst fs.
  unfold sbind, in_world, stockItem_upsert, bind, db_call, get_db, put_db, commit, ret, throw,
    sret. simpl. rewrite Hname.
  destruct (list_find _ _) as [[n [id t]]|] eqn:Hfind; simpl; [by eexists|].
  destruct Hkey as [(id & t & Ht & Hn)|[Hnew Hfit]].
  - exfalso. eapply (proj1 (find_name_None _ _) Hfind); done.
  - rewrite Hnew, Hfit. simpl. by eexists.
Qed.

Lemma not_has_username s name :
  ~ has_username s name <-> find_username (site_users s) name = None.
Proof.
  rewrite find_username_None. unfold has_username. split.
  - intros Hno id u Hu Hn. apply Hno. by exists id, u.
  - intros Hno (id & u & Hu & Hn). by eapply Hno.
Qed.

(** The same for the upsert of a user. *)
Lemma user_upsert_step username newId (create : User) s r s' :
  u_username create = username ->
  user_upsert username newId (fun u => u) create s = (r, s') ->
  w_db (site_world s') = w_db (site_world s) /\
  ((site_users s' = site_users s /\ (forall u, r = inr u -> has_username s username))
   \/ (r = inr create /\ ~ has_username s username /\ site_users s !! newId = None /\
       site_users s' = <[newId := create]> (site_users s))).
Proof.
  intros Hname. unfold user_upsert, sbind, get_users_table, put_users_table, sret, sthrow.
  destruct (in_world db_call s) as [[e|[]] s1] eqn:E;
    apply in_world_db_call_same in E as [Hu [Hdb _]].
  - intros [= <- <-]. split; [done|]. left. by split.
  - rewrite Hu, Hname.
    destruct (find_username (site_users s) username) as [[id u]|] eqn:Hf.
    + apply find_username_Some in Hf as [Hid Hn].
      intros [= <- <-]. simpl. split; [done|]. left. rewrite insert_id by done.
      split; [done|]. intros _ _. by exists id, u.
    + destruct (site_users s !! newId) eqn:Hnew.
      * intros [= <- <-]. split; [done|]. left. by split.
      * intros [= <- <-]. simpl. split; [done|]. right. split; [done|].
        split; [|done]. by apply not_has_username.
Qed.

Lemma user_upsert_step_ok username newId (create : User) s :
  u_username create = username -> no_fault s ->
  has_username s username \/ site_users s !! newId = None ->
  exists u s', user_upsert username newId (fun u => u) create s = (inr u, s') /\ no_fault s'.
Proof.
  intros Hname Hf Hkey.
  unfold user_upsert, sbind, get_users_table, put_users_table, sret, sthrow.
  rewrite no_fault_db_call by done. rewrite Hname.
  destruct (find_username (site_users s) username) as [[id u]|] eqn:Hfind; [by eexists _, _|].
  destruct Hkey as [Hhas|Hnew].
  - exfalso. by apply (proj2 (not_has_username s username)) in Hhas.
  - rewrite Hnew. by eexists _, _.
Qed.

(** What the loop over the stock items does to the store. *)
Lemma seed_stock_loop_effect stockId (items : list (StockItem price)) s r s' :
  seed_stock_loop stockId items s = (r, s') ->
  site_users s' = site_users s /\
  rows_kept s s' /\
  (forall id t, stock_items (w_db (site_world s')) !! id = Some t ->
                stock_items (w_db (site_world s)) !! id = None -> t ∈ items) /\
  (r = inr tt -> Forall (fun item => has_stock_name s' (s_name item)) items).
Proof.
  revert s r s'. induction items as [|x items IH]; intros s r s'.
  - intros [= <- <-]. split; [done|]. split; [apply rows_kept_refl|]. split; [|done].
    intros id t Ht Hno. congruence.
  - unfold seed_stock_loop. simpl. unfold sbind at 1.
    destruct (sbind (in_world _) _ s) as [r1 s1] eqn:E1.
    destruct (stock_upsert_step _ _ _ _ _ _ eq_refl E1) as [Hu1 Hstep].
    assert (rows_kept s s1 /\
            (forall id t, stock_items (w_db (site_world s1)) !! id = Some t ->
                          stock_items (w_db (site_world s)) !! id = None -> t = x) /\
            (r1 = inr tt -> has_stock_name s1 (s_name x))) as (Hkept1 & Hnew1 & Hhas1).
    { destruct Hstep as [[Hdb Hhas]|(Hr & Hno & Hkey & Hdb)].
      - split; [by apply tables_same_rows_kept|]. split.
        + intros id t Ht Hnone. rewrite Hdb in Ht. congruence.
        + intros Hr. apply (has_stock_name_same_db s s1); [done|by apply Hhas].
      - split; [|split].
        + unfold rows_kept. rewrite Hu1, Hdb. simpl. split; [done|]. split; [|done].
          intros id t Ht. rewrite lookup_insert_ne; [done|]. intros <-. congruence.
        + intros id t Ht Hnone. rewrite Hdb in Ht. simpl in Ht.
          destruct (decide (stockId (s_name x) = id)) as [<-|Hne].
          * rewrite lookup_insert_eq in Ht. congruence.
          * rewrite lookup_insert_ne in Ht by done. congruence.
        + intros _. exists (stockId (s_name x)), x. rewrite Hdb. simpl.
          by rewrite lookup_insert_eq. }
    destruct r1 as [e|[]].
    + intros [= <- <-]. split; [done|]. split; [done|]. split; [|done].
      intros id t Ht Hnone. rewrite (Hnew1 _ _ Ht Hnone). apply list_elem_of_here.
    + intros E2. destruct (IH _ _ _ E2) as (Hu2 & Hkept2 & Hnew2 & Hhas2).
      split; [congruence|]. split; [by eapply rows_kept_trans|]. split.
      * intros id t Ht Hnone.
        destruct (stock_items (w_db (site_world s1)) !! id) as [t1|] eqn:Ht1.
        -- rewrite <- (Hnew1 _ _ Ht1 Hnone).
           destruct Hkept2 as (_ & Hk & _). rewrite (Hk _ _ Ht1) in Ht.
           injection Ht as <-. apply list_elem_of_here.
        -- apply list_elem_of_further. by eapply Hnew2.
      * intros ->. constructor; [|by apply Hhas2].
        eapply has_stock_name_kept; [done|by apply Hhas1].
Qed.

(** Over a store that has every name already, the loop writes nothing new. *)
Lemma seed_stock_loop_again stockId (items : list (StockItem price)) s :
  no_fault s ->
  Forall (fun item => has_stock_name s (s_name item)) items ->
  exists s', seed_stock_loop stockId items s = (inr tt, s') /\ tables_same s s' /\ no_fault s'.
Proof.
  intros Hf Hall. revert s Hf Hall. induction items as [|x items IH]; intros s Hf Hall.
  - exists s. by repeat split.
  - apply Forall_cons in Hall as [Hx Hall].
    destruct (stock_upsert_step_ok (s_name x) (stockId (s_name x)) x s eq_refl Hf (or_introl Hx))
      as (s1 & E1 & Hf1).
    destruct (stock_upsert_step _ _ _ _ _ _ eq_refl E1) as [Hu1 Hstep].
    assert (w_db (site_world s1) = w_db (site_world s)) as Hdb1.
    { destruct Hstep as [[Hdb _]|(_ & Hno & _)]; [done|by destruct Hno]. }
    destruct (IH s1 Hf1) as (s' & E2 & Hsame & Hf').
    { eapply Forall_impl; [exact Hall|]. intros item Hitem.
      by apply (has_stock_name_same_db s s1). }
    exists s'. split; [|split; [|done]].
    + unfold seed_stock_loop in *. simpl. unfold sbind at 1. by rewrite E1.
    + eapply tables_same_trans; [|exact Hsame]. by split.
Qed.

(** With no fault to come, keys that are new and distinct, and quantities
    the column holds, the loop goes through. *)
Lemma seed_stock_loop_succeeds stockId (items : list (StockItem price)) s :
  no_fault s ->
  NoDup (map s_name items) ->
  Forall (fun item => in_int32 (s_quantity item) = true) items ->
  (forall item, item ∈ items -> ~ has_stock_name s (s_name item) ->
     stock_items (w_db (site_world s)) !! stockId (s_name item) = None) ->
  (forall a b, a ∈ items -> b ∈ items ->
     ~ has_stock_name s (s_name a) -> ~ has_stock_name s (s_name b) ->
     stockId (s_name a) = stockId (s_name b) -> s_name a = s_name b) ->
  exists s', seed_stock_loop stockId items s = (inr tt, s').
Proof.
  intros Hf Hnd Hrange Hfresh Hinj. revert s Hf Hfresh Hinj.
  induction items as [|x items IH]; intros s Hf Hfresh Hinj.
  - by exists s.
  - apply NoDup_cons in Hnd as [Hx Hnd]. apply Forall_cons in Hrange as [Hfit Hrange].
    assert (has_stock_name s (s_name x) \/
            (stock_items (w_db (site_world s)) !! stockId (s_name x) = None /\
             in_int32 (s_quantity x) = true)) as Hkey.
    { destruct (has_stock_name_dec s (s_name x)) as [Hhas|Hno]; [by left|right].
      split; [|done]. apply Hfresh; [apply list_elem_of_here|done]. }
    destruct (stock_upsert_step_ok (s_name x) (stockId (s_name x)) x s eq_refl Hf Hkey)
      as (s1 & E1 & Hf1).
    destruct (stock_upsert_step _ _ _ _ _ _ eq_refl E1) as [Hu1 Hstep].
    assert (forall y, y ∈ items ->
              (~ has_stock_name s1 (s_name y) -> ~ has_stock_name s (s_name y)) /\
              (~ has_stock_name s1 (s_name y) ->
               stock_items (w_db (site_world s1)) !! stockId (s_name y) = None)) as Hrest.
    { intros y Hy.
      assert (s_name y <> s_name x) as Hyx.
      { intros Heq. apply Hx. rewrite <- Heq. apply list_elem_of_In, in_map, list_elem_of_In, Hy. }
      destruct Hstep as [[Hdb _]|(_ & Hno & Hnew & Hdb)].
      - split.
        + intros Hno1 Hhas. apply Hno1. by apply (has_stock_name_same_db s s1).
        + intros Hno1. rewrite Hdb. apply Hfresh; [by apply list_elem_of_further|].
          intros Hhas. apply Hno1. by apply (has_stock_name_same_db s s1).
      - assert (~ has_stock_name s1 (s_name y) -> ~ has_stock_name s (s_name y)) as Hback.
        { intros Hno1 (id & t & Ht & Hn). apply Hno1. exists id, t. rewrite Hdb. simpl.
          split; [|done]. rewrite lookup_insert_ne; [done|]. intros <-. congruence. }
        split; [done|]. intros Hno1. rewrite Hdb. simpl.
        rewrite lookup_insert_ne.
        + apply Hfresh; [by apply list_elem_of_further|by apply Hback].
        + intros Heq. apply Hyx. symmetry.
          apply Hinj; [apply list_elem_of_here|by apply list_elem_of_further|done
                      |by apply Hback|done]. }
    destruct (IH Hnd Hrange s1 Hf1) as [s' E2].
    + intros y Hy. by apply Hrest.
    + intros a b Ha Hb Hna Hnb. apply Hinj; [by apply list_elem_of_further
        |by apply list_elem_of_further|by apply (Hrest a)|by apply (Hrest b)].
    + exists s'. unfold seed_stock_loop in *. simpl. unfold sbind at 1. by rewrite E1.
Qed.

Lemma seed_stock_names_distinct : NoDup (map s_name (seed_stockItems (price:=price))).
Proof. apply (bool_decide_unpack _). by vm_compute. Qed.

(** [main()] unfolded into its two loops. *)
Lemma seed_main_eq adminUsername adminPassword hash userId stockId s :
  seed_main adminUsername adminPassword hash userId stockId s
  = match user_upsert adminUsername (userId adminUsername) (fun u => u)
            (mkUser adminUsername (hash adminPassword) ADMIN true None) s with
    | (inr _, s1) => seed_stock_loop stockId seed_stockItems s1
    | (inl e, s1) => (inl e, s1)
    end.
Proof.
  unfold seed_main, seed_stock_loop. simpl for_of at 1. unfold sbind at 1 2 3. simpl.
  by destruct (user_upsert _ _ _ _ s) as [[e|u] s1].
Qed.

Lemma seed_main_effect adminUsername adminPassword hash userId stockId s r s' :
  seed_main adminUsername adminPassword hash userId stockId s = (r, s') ->
  rows_kept s s' /\
  rows_added (fun u => u = mkUser adminUsername (hash adminPassword) ADMIN true None)
    (fun t => t ∈ seed_stockItems (price:=price)) s s' /\
  (r = inr tt -> seeded adminUsername s').
Proof.
  rewrite seed_main_eq.
  destruct (user_upsert _ _ _ _ s) as [r1 s1] eqn:E1.
  destruct (user_upsert_step adminUsername _
              (mkUser adminUsername (hash adminPassword) ADMIN true None) _ _ _ eq_refl E1) as [Hdb1 Hstep].
  assert (rows_kept s s1 /\
          (forall id u, site_users s1 !! id = Some u -> site_users s !! id = None ->
                        u = mkUser adminUsername (hash adminPassword) ADMIN true None) /\
          (forall u, r1 = inr u -> has_username s1 adminUsername)) as (Hkept1 & Hnew1 & Hhas1).
  { destruct Hstep as [[Hu Hhas]|(Hr & Hno & Hkey & Hu)].
    - split; [by apply tables_same_rows_kept|]. split.
      + intros id u Hid Hnone. rewrite Hu in Hid. congruence.
      + intros u Hr. destruct (Hhas u Hr) as (id & v & Hv & Hn). exists id, v.
        by rewrite Hu.
    - split; [|split].
      + unfold rows_kept. rewrite Hu, Hdb1. split; [|done].
        intros id u Hid. rewrite lookup_insert_ne; [done|]. intros <-. congruence.
      + intros id u Hid Hnone. rewrite Hu in Hid.
        destruct (decide (userId adminUsername = id)) as [<-|Hne].
        * rewrite lookup_insert_eq in Hid. congruence.
        * rewrite lookup_insert_ne in Hid by done. congruence.
      + intros u _. eexists _, _. rewrite Hu. split; [apply lookup_insert_eq|done]. }
  destruct r1 as [e|u].
  - intros [= <- <-]. split; [done|]. split; [|done]. split; [done|].
    intros id t Ht Hnone. rewrite Hdb1 in Ht. congruence.
  - intros E2. destruct (seed_stock_loop_effect _ _ _ _ _ E2) as (Hu2 & Hkept2 & Hnew2 & Hhas2).
    split; [by eapply rows_kept_trans|]. split; [split|].
    + intros id v Hid Hnone. rewrite Hu2 in Hid. by eapply Hnew1.
    + intros id t Ht Hnone. rewrite <- Hdb1 in Hnone. by eapply Hnew2.
    + intros ->. split; [|by apply Hhas2].
      eapply has_username_kept; [done|by eapply Hhas1].
Qed.

Lemma seed_main_again adminUsername adminPassword hash userId stockId s :
  no_fault s -> seeded adminUsername s ->
  exists s', seed_main adminUsername adminPassword hash userId stockId s = (inr tt, s') /\
             tables_same s s'.
Proof.
  intros Hf [Huser Hstock]. rewrite seed_main_eq.
  destruct (user_upsert_step_ok adminUsername (userId adminUsername)
              (mkUser adminUsername (hash adminPassword) ADMIN true None) s eq_refl Hf
              (or_introl Huser)) as (u & s1 & E1 & Hf1).
  destruct (user_upsert_step adminUsername _
              (mkUser adminUsername (hash adminPassword) ADMIN true None) _ _ _ eq_refl E1) as [Hdb1 Hstep]. rewrite E1.
  assert (site_users s1 = site_users s) as Hu1.
  { destruct Hstep as [[Hu _]|(_ & Hno & _)]; [done|by destruct Hno]. }
  destruct (seed_stock_loop_again stockId seed_stockItems s1 Hf1) as (s' & E2 & Hsame & _).
  { eapply Forall_impl; [exact Hstock|]. intros item Hitem.
    by apply (has_stock_name_same_db s s1). }
  exists s'. split; [done|]. eapply tables_same_trans; [|exact Hsame]. by split.
Qed.

Lemma seed_main_succeeds adminUsername adminPassword hash userId stockId s :
  no_fault s ->
  seed_keys_fresh userId stockId adminUsername seed_stockItems s ->
  exists s', seed_main adminUsername adminPassword hash userId stockId s = (inr tt, s').
Proof.
  intros Hf (Huser & Hfresh & Hinj). rewrite seed_main_eq.
  destruct (user_upsert_step_ok adminUsername (userId adminUsername)
              (mkUser adminUsername (hash adminPassword) ADMIN true None) s eq_refl Hf Huser)
    as (u & s1 & E1 & Hf1).
  destruct (user_upsert_step adminUsername _
              (mkUser adminUsername (hash adminPassword) ADMIN true None) _ _ _ eq_refl E1) as [Hdb1 _]. rewrite E1.
  apply seed_stock_loop_succeeds; [done|apply seed_stock_names_distinct| | |].
  - repeat constructor.
  - intros item Hitem Hno. rewrite Hdb1. apply Hfresh; [done|].
    intros Hhas. apply Hno. by apply (has_stock_name_same_db s s1).
  - intros a b Ha Hb Hna Hnb. apply Hinj; [done|done| |].
    + intros Hhas. apply Hna. by apply (has_stock_name_same_db s s1).
    + intros Hhas. apply Hnb. by apply (has_stock_name_same_db s s1).
Qed.

Lemma truthy_Some (x : option string) : truthy x = true -> exists v, x = Some v /\ v <> "".
Proof.
  destruct x as [v|]; [|done]. simpl. intros Hv. exists v. split; [done|].
  intros ->. done.
Qed.

End SeedFacts.

(** X19. The seed script never touches a row that is there: every user and
    every stock row stays as it is under its key, and the orders stay,
    however the script ends.  What it adds is the administrator of the
    environment, with the hashed password, active and created by nobody,
    and stock rows of its list, with quantity 0, buying price 0 and no
    selling price.  It ends with 0 or 1; without the two variables it ends
    with 1 and the store is as it was. *)
Theorem seed_keeps_rows {price} `{!JsNum price} (env : SeedEnv) (hash : string -> string)
    (userId stockId : string -> string) (s : Site price) :
  let code := fst (seed env hash userId stockId s) in
  let s' := snd (seed env hash userId stockId s) in
  (code = 0 \/ code = 1)
  /\ rows_kept s s'
  /\ rows_added
       (fun u => exists name password,
          SEED_ADMIN_USERNAME env = Some name /\ SEED_ADMIN_PASSWORD env = Some password /\
          u = mkUser name (hash password) ADMIN true None)
       (fun t => t ∈ seed_stockItems (price:=price) /\
                 s_quantity t = 0 /\ s_buyingPrice t = num_zero /\ s_sellingPrice t = None)
       s s'
  /\ (truthy (SEED_ADMIN_USERNAME env) = false \/ truthy (SEED_ADMIN_PASSWORD env) = false ->
      code = 1 /\ s' = s).
Proof.
  intros code s'. unfold code, s', seed.
  destruct (truthy (SEED_ADMIN_USERNAME env)) eqn:Hu; simpl.
  2:{ split; [by right|]. split; [apply rows_kept_refl|]. split; [|done].
      split; intros id x Hx Hnone; congruence. }
  destruct (truthy (SEED_ADMIN_PASSWORD env)) eqn:Hp; simpl.
  2:{ split; [by right|]. split; [apply rows_kept_refl|]. split; [|done].
      split; intros id x Hx Hnone; congruence. }
  apply truthy_Some in Hu as (name & Hname & _). apply truthy_Some in Hp as (pw & Hpw & _).
  rewrite Hname, Hpw. simpl.
  destruct (seed_main name pw hash userId stockId s) as [r s1] eqn:E.
  destruct (seed_main_effect _ _ _ _ _ _ _ _ E) as (Hkept & [Hnewu Hnewt] & _).
  assert (forall t : StockItem price, t ∈ seed_stockItems (price:=price) ->
            s_quantity t = 0 /\ s_buyingPrice t = num_zero /\ s_sellingPrice t = None) as Hitem.
  { apply Forall_forall. unfold seed_stockItems. repeat constructor. }
  assert (rows_kept s s1 /\
          rows_added
            (fun u => exists name0 password,
               Some name = Some name0 /\ Some pw = Some password /\
               u = mkUser name0 (hash password) ADMIN true None)
            (fun t => t ∈ seed_stockItems (price:=price) /\
                      s_quantity t = 0 /\ s_buyingPrice t = num_zero /\ s_sellingPrice t = None)
            s s1) as [H1 H2].
  { split; [done|]. split.
    - intros id u Hid Hnone. exists name, pw. split; [done|]. split; [done|]. by eapply Hnewu.
    - intros id t Ht Hnone. split; [by eapply Hnewt|]. apply Hitem. by eapply Hnewt. }
  destruct r as [e|[]]; simpl.
  - split; [by right|]. split; [done|]. split; [done|]. by intros [|].
  - split; [by left|]. split; [done|]. split; [done|]. by intros [|].
Qed.

(** X20. When the seed script ends with 0, the store has a user with the
    administrator's username and a stock row for every name of the
    script's list. *)
Theorem seed_exit_0_seeded {price} `{!JsNum price} (env : SeedEnv) (hash : string -> string)
    (userId stockId : string -> string) (s : Site price) :
  fst (seed env hash userId stockId s) = 0 ->
  exists adminUsername,
    SEED_ADMIN_USERNAME env = Some adminUsername /\
    seeded adminUsername (snd (seed env hash userId stockId s)).
Proof.
  unfold seed.
  destruct (truthy (SEED_ADMIN_USERNAME env)) eqn:Hu; simpl; [|done].
  destruct (truthy (SEED_ADMIN_PASSWORD env)) eqn:Hp; simpl; [|done].
  apply truthy_Some in Hu as (name & Hname & _). apply truthy_Some in Hp as (pw & Hpw & _).
  rewrite Hname, Hpw. simpl.
  destruct (seed_main name pw hash userId stockId s) as [[e|[]] s1] eqn:E; simpl; [done|].
  intros _. exists name. split; [done|].
  destruct (seed_main_effect _ _ _ _ _ _ _ _ E) as (_ & _ & Hseeded). by apply Hseeded.
Qed.

Lemma seed_exit_0_seeded_witness :
  exists adminUsername,
    SEED_ADMIN_USERNAME root_env = Some adminUsername /\
    seeded adminUsername
      (snd (seed root_env salted user_key stock_key (site_of (start (plywood 10))))).
Proof.
  apply seed_exit_0_seeded. vm_compute. reflexivity.
Defined.

(** X21. Seeding a second time changes nothing: after a run that ended
    with 0, a further run over the store it left, whatever password hash
    and keys it would use, ends with 0 when no round trip fails and leaves
    the users, the stock and the orders as they are. *)
Theorem seed_again_changes_nothing {price} `{!JsNum price} (env : SeedEnv)
    (hash hash' : string -> string) (userId stockId userId' stockId' : string -> string)
    (s : Site price) :
  let s1 := snd (seed env hash userId stockId s) in
  let again := seed env hash' userId' stockId' s1 in
  fst (seed env hash userId stockId s) = 0 ->
  no_fault s1 ->
  fst again = 0 /\ tables_same s1 (snd again).
Proof.
  intros s1 again. unfold again, s1. clear s1 again. unfold seed.
  destruct (truthy (SEED_ADMIN_USERNAME env)) eqn:Hu; simpl; [|done].
  destruct (truthy (SEED_ADMIN_PASSWORD env)) eqn:Hp; simpl; [|done].
  apply truthy_Some in Hu as (name & Hname & _). apply truthy_Some in Hp as (pw & Hpw & _).
  rewrite Hname, Hpw. simpl.
  destruct (seed_main name pw hash userId stockId s) as [[e|[]] s1] eqn:E; simpl; [done|].
  intros _ Hf.
  destruct (seed_main_effect _ _ _ _ _ _ _ _ E) as (_ & _ & Hseeded).
  destruct (seed_main_again name pw hash' userId' stockId' s1 Hf (Hseeded eq_refl))
    as (s2 & -> & Hsame).
  done.
Qed.

Lemma seed_again_changes_nothing_witness :
  let s1 := snd (seed root_env salted user_key stock_key (site_of (start (plywood 10)))) in
  let again := seed root_env salted user_key stock_key s1 in
  fst again = 0 /\ tables_same s1 (snd again).
Proof.
  assert (fst (seed root_env salted user_key stock_key (site_of (start (plywood 10)))) = 0)
    as Hfirst by (vm_compute; reflexivity).
  assert (no_fault (snd (seed root_env salted user_key stock_key
                           (site_of (start (plywood 10)))))) as Hf
    by (vm_compute; reflexivity).
  exact (seed_again_changes_nothing root_env salted salted user_key stock_key user_key
           stock_key (site_of (start (plywood 10))) Hfirst Hf).
Defined.

(** X22. The seed script ends with 0 when the two variables are set, no
    round trip fails, and the keys generated for the rows it has to create
    are new and, for the stock rows, different from each other. *)
Theorem seed_succeeds {price} `{!JsNum price} (env : SeedEnv) (hash : string -> string)
    (userId stockId : string -> string) (s : Site price) :
  truthy (SEED_ADMIN_USERNAME env) = true ->
  truthy (SEED_ADMIN_PASSWORD env) = true ->
  no_fault s ->
  seed_keys_fresh userId stockId (default "" (SEED_ADMIN_USERNAME env)) seed_stockItems s ->
  fst (seed env hash userId stockId s) = 0.
Proof.
  intros Hu Hp Hf Hkeys. unfold seed. rewrite Hu, Hp. simpl.
  destruct (seed_main_succeeds (default "" (SEED_ADMIN_USERNAME env))
              (default "" (SEED_ADMIN_PASSWORD env)) hash userId stockId s Hf Hkeys)
    as [s' ->].
  done.
Qed.

Lemma seed_succeeds_witness :
  fst (seed root_env salted user_key stock_key (site_of (start (plywood 10)))) = 0.
Proof.
  apply seed_succeeds.
  - reflexivity.
  - reflexivity.
  - reflexivity.
  - split; [|split].
    + left. exists "u0", (mkUser "root" "$2a$10$rootrootroot" ADMIN true None).
      split; reflexivity.
    + intros item Hitem _. apply list_elem_of_In in Hitem. simpl in Hitem.
      repeat (destruct Hitem as [<-|Hitem]; [vm_compute; reflexivity|]). destruct Hitem.
    + intros a b _ _ _ _ Heq. unfold stock_key in Heq. cbv [String.append] in Heq.
      injection Heq as Heq. exact Heq.
Defined.
